(** * Spiderpool control-plane helpers: a shallow embedding

    This development embeds, as executable Rocq definitions, the pure decision
    logic of the spiderpool IPAM add-on:

    - package [controllers] (utility functions [SubnetPoolName],
      [GetSubnetAnnoConfig], [mutateAndValidateSubnetAnno], [GetPoolIPNumber],
      [CalculateJobPodNum], [IsDefaultIPPoolMode], [containsDuplicate],
      [ShouldReclaimIPPool]);
    - package [podmanager] ([GetPodTopController]);
    - package [subnetmanager] (the admission hook [ValidateUpdate]).

    Go strings are byte strings and are modelled by [string] (a list of
    8-bit [ascii] characters).  Go's [int] is the 64-bit signed integer of the
    target platform and is modelled by [Z]; the only place where the width is
    observable in the embedded code is the range check of [strconv.Atoi].
    A nilable pointer is an [option]; a [(value, error)] result keeps Go's
    shape, the error being an [option error].  Debug logging is left out;
    the reads through the Kubernetes client and the warnings of the owner
    resolver are kept as a list of events. *)

From Stdlib Require Import ZArith NArith String Ascii List Lia Bool.
From Stdlib Require Import DecimalString Permutation.
From Stdlib Require DecimalPos.
From stdpp Require Import gmap strings list.

Local Open Scope Z_scope.
Import ListNotations.

(** ** Errors *)

(** [strconv.ErrSyntax] and [strconv.ErrRange]. *)
Inductive NumErrKind : Type := ErrSyntax | ErrRange.

(** The errors built by the embedded code.  Each constructor stands for one
    [fmt.Errorf] / [errors.New] site and keeps the values that the message is
    formatted from. *)
Inductive error : Type :=
  (* *strconv.NumError{Func, Num, Err} *)
  | NumError (func num : string) (kind : NumErrKind)
  (* errInvalidInput(str): "invalid input '%s'" *)
  | ErrInvalidInput (str : string)
  (* fmt.Errorf("%w: %v", outer, cause) *)
  | ErrWrap (outer cause : error)
  (* an error of the JSON decoder or of the Kubernetes client *)
  | ErrExternal (msg : string)
  (* "failed to parse anntation '%s' value '%s', error: %v" *)
  | ErrParseAnnotation (key value : string) (cause : error)
  (* "subnet '%s' value must equal or greater than 0" *)
  | ErrNegativeIPNumber (key : string)
  (* "failed to parse spider subnet '%s', error: %v" *)
  | ErrParseReclaim (key : string) (cause : error)
  (* the validation failures of mutateAndValidateSubnetAnno *)
  | ErrEmptyIPv4Multiple
  | ErrEmptyIPv6Multiple
  | ErrDualEmptyMultiple
  | ErrSameSubnet
  | ErrSameInterface
  | ErrEmptyIPv4Single
  | ErrEmptyIPv6Single
  | ErrDualEmptySingle
  | ErrNoSubnets
  (* "failed to get pod '%s/%s' owner" *)
  | ErrPodOwner (podNamespace podName : string).

(** ** Go standard library: package [strings]

    The separators used by the embedded code are the one-byte strings ["+"]
    and ["-"]; the functions below are the library functions specialised to a
    one-byte separator. *)
Module Strings.

(** [strings.Count(s, sep)] for a one-byte [sep]. *)
Fixpoint Count (s : string) (sep : ascii) : Z :=
  match s with
  | EmptyString => 0
  | String c s' => (if Ascii.eqb c sep then 1 else 0) + Count s' sep
  end.

(** [strings.Cut(s, sep)]: [(before, after, found)] around the first
    occurrence of [sep]; [(s, "", false)] when there is none. *)
Fixpoint Cut (s : string) (sep : ascii) : string * string * bool :=
  match s with
  | EmptyString => (EmptyString, EmptyString, false)
  | String c s' =>
      if Ascii.eqb c sep then (EmptyString, s', true)
      else
        let '(before, after, found) := Cut s' sep in
        (String c before, after, found)
  end.

(** [strings.Split(s, sep)]: the pieces of [s] between the occurrences of
    [sep], as a non-empty list given by its head and tail.  [Split("", sep)]
    is [[""]]. *)
Fixpoint Split_ne (s : string) (sep : ascii) : string * list string :=
  match s with
  | EmptyString => (EmptyString, [])
  | String c s' =>
      let '(hd, tl) := Split_ne s' sep in
      if Ascii.eqb c sep then (EmptyString, hd :: tl)
      else (String c hd, tl)
  end.

Definition Split (s : string) (sep : ascii) : list string :=
  let '(hd, tl) := Split_ne s sep in hd :: tl.

(** [unicode.ToLower] on a byte below [0x80]. *)
Definition lower_byte (c : ascii) : ascii :=
  let n := N_of_ascii c in
  if ((65 <=? n) && (n <=? 90))%N then ascii_of_N (n + 32) else c.

(** [strings.ToLower(s)] on its ASCII path: the bytes ['A'..'Z'] are mapped
    to ['a'..'z'] and every other byte is kept.  (On a string with a byte
    of [0x80] or above Go goes through the Unicode tables, which are not
    modelled; every statement that depends on the lowered text assumes
    [is_ascii].) *)
Fixpoint ToLower (s : string) : string :=
  match s with
  | EmptyString => EmptyString
  | String c s' => String (lower_byte c) (ToLower s')
  end.

Fixpoint is_ascii (s : string) : bool :=
  match s with
  | EmptyString => true
  | String c s' => (N_of_ascii c <? 128)%N && is_ascii s'
  end.

End Strings.

(** ** Go standard library: package [strconv] *)
Module Strconv.

Definition maxUint64 : Z := 2 ^ 64 - 1.

(** The digit loop of [ParseUint(s, 10, 64)]: a byte outside ['0'..'9'] is
    a syntax error; an accumulator that would leave [uint64] is a range
    error, reported as soon as it is met. *)
Fixpoint parse_digits (s : string) (n : Z) : NumErrKind + Z :=
  match s with
  | EmptyString => inr n
  | String c s' =>
      let b := Z.of_N (N_of_ascii c) in
      if (48 <=? b) && (b <=? 57) then
        if maxUint64 / 10 + 1 <=? n then inl ErrRange
        else
          let n1 := n * 10 + (b - 48) in
          if maxUint64 <? n1 then inl ErrRange
          else parse_digits s' n1
      else inl ErrSyntax
  end.

(** [ParseUint(s, 10, 64)]. *)
Definition ParseUint (s : string) : NumErrKind + Z :=
  match s with
  | EmptyString => inl ErrSyntax
  | _ => parse_digits s 0
  end.

(** [Atoi(s)] on a 64-bit platform, that is [ParseInt(s, 10, 0)] with the
    error renamed: an optional sign, then [ParseUint], then the check of
    the signed range. *)
Definition Atoi (s : string) : Z * option error :=
  let fail k := (0, Some (NumError "Atoi" s k)) in
  match s with
  | EmptyString => fail ErrSyntax
  | String c rest =>
      let '(neg, body) :=
        if Ascii.eqb c "+" then (false, rest)
        else if Ascii.eqb c "-" then (true, rest)
        else (false, s) in
      match ParseUint body with
      | inl ErrSyntax => fail ErrSyntax
      | inl ErrRange =>
          (* un = maxUint64 *)
          if neg then (- 2 ^ 63, Some (NumError "Atoi" s ErrRange))
          else (2 ^ 63 - 1, Some (NumError "Atoi" s ErrRange))
      | inr un =>
          if negb neg && (2 ^ 63 <=? un) then
            (2 ^ 63 - 1, Some (NumError "Atoi" s ErrRange))
          else if neg && (2 ^ 63 <? un) then
            (- 2 ^ 63, Some (NumError "Atoi" s ErrRange))
          else (if neg then - un else un, None)
      end
  end.

(** [ParseBool(str)]. *)
Definition ParseBool (str : string) : bool * option error :=
  if existsb (String.eqb str) ["1"; "t"; "T"; "TRUE"; "true"; "True"]%string
  then (true, None)
  else if existsb (String.eqb str) ["0"; "f"; "F"; "FALSE"; "false"; "False"]%string
  then (false, None)
  else (false, Some (NumError "ParseBool" str ErrSyntax)).

(** [%d] of an integer: its decimal text, with a leading [-] when
    negative. *)
Definition FormatInt (z : Z) : string :=
  NilZero.string_of_int (Z.to_int z).

End Strconv.

(** ** Package [controllers]: counts *)

(** [GetPoolIPNumber] judges whether the given parameter is fixed or
    flexible. *)
Definition GetPoolIPNumber (str : string) : bool * Z * option error :=
  let tmp := str in
  let plusSignNum := Strings.Count str "+" in
  if (plusSignNum =? 0) || (plusSignNum =? 1) then
    let '(_, after, found) := Strings.Cut str "+" in
    let tmp := if found then after else tmp in
    let '(ipNum, err) := Strconv.Atoi tmp in
    match err with
    | Some e => (false, -1, Some (ErrWrap (ErrInvalidInput str) e))
    | None => (found, ipNum, None)
    end
  else (false, -1, Some (ErrInvalidInput str)).

(** [CalculateJobPodNum] computes the job replicas; the arguments are the
    [*int32] fields [Parallelism] and [Completions] of a job spec. *)
Definition CalculateJobPodNum (jobSpecParallelism jobSpecCompletions : option Z) : Z :=
  match jobSpecParallelism, jobSpecCompletions with
  | Some p, None => if p =? 0 then 1 else p
  | None, Some c => if c =? 0 then 1 else c
  | Some _, Some c => if c =? 0 then 1 else c
  | None, None => 1
  end.

(** [GetAppReplicas]. *)
Definition GetAppReplicas (replicas : option Z) : Z :=
  match replicas with
  | None => 0
  | Some r => r
  end.

(** ** Package [controllers]: pool naming *)

(** [SubnetPoolName]: ["auto-%s-%s-%s-v%d-%s-%s"] over the lowered kind,
    namespace and name, the IP version, the interface name and the lowered
    last piece of the UID split on ["-"].  [ipVersion] is a
    [types.IPVersion], an [int64].  [Strings.Split] never returns an empty
    list, so [splits[len(splits)-1]] is always in range and the default of
    [List.last] is never used. *)
Definition SubnetPoolName (controllerKind controllerNS controllerName : string)
    (ipVersion : Z) (ifName : string) (controllerUID : string) : string :=
  let splits := Strings.Split controllerUID "-" in
  let lastOne := List.last splits EmptyString in
  "auto-" +:+ Strings.ToLower controllerKind
    +:+ "-" +:+ Strings.ToLower controllerNS
    +:+ "-" +:+ Strings.ToLower controllerName
    +:+ "-v" +:+ Strconv.FormatInt ipVersion
    +:+ "-" +:+ ifName
    +:+ "-" +:+ Strings.ToLower lastOne.

(** The last piece of a UID split on ["-"], lowered: the text that
    [SubnetPoolName] puts at the end of the name. *)
Definition uidTail (controllerUID : string) : string :=
  Strings.ToLower (List.last (Strings.Split controllerUID "-") EmptyString).

(** ** Package [controllers]: the annotation resolver *)

(** Modelled from the spec: the declaration of [types.AnnoSubnetItem] is not
    part of the sources at hand; the fields are the ones the code reads and
    the spec lists ([{Interface, IPv4, IPv6}]). *)
Record AnnoSubnetItem : Type := mkAnnoSubnetItem {
  Interface : string;
  IPv4 : list string;
  IPv6 : list string
}.

(** Modelled from the spec: the declaration of [types.PodSubnetAnnoConfig] is
    not part of the sources at hand; the fields are the ones the code reads
    and writes.  [SingleSubnet] and [FlexibleIPNum] are pointers. *)
Record PodSubnetAnnoConfig : Type := mkPodSubnetAnnoConfig {
  MultipleSubnets : list AnnoSubnetItem;
  SingleSubnet : option AnnoSubnetItem;
  FlexibleIPNum : option Z;
  AssignIPNum : Z;
  ReclaimIPPool : bool
}.

(** The zero value [var subnetAnnoConfig types.PodSubnetAnnoConfig]. *)
Definition zeroPodSubnetAnnoConfig : PodSubnetAnnoConfig :=
  {| MultipleSubnets := []; SingleSubnet := None; FlexibleIPNum := None;
     AssignIPNum := 0; ReclaimIPPool := false |}.

(** Go standard library, package [sort]. *)
Module Sort.

Fixpoint insert (x : string) (l : list string) : list string :=
  match l with
  | [] => [x]
  | y :: l' => if String.leb x y then x :: y :: l' else y :: insert x l'
  end.

(** [sort.Strings(arr)]: [arr] in increasing byte-wise lexicographic order.
    The order is total and two strings that compare equal are the same
    string, so every sorting algorithm returns this list. *)
Fixpoint Strings (arr : list string) : list string :=
  match arr with
  | [] => []
  | x :: l => insert x (Strings l)
  end.

End Sort.

(** The order of [sort.Strings]: strictly below, and a list in which each
    element is below its successor. *)
Definition strictly_below (x y : string) : Prop := String.compare x y = Lt.

Fixpoint ascending (l : list string) : Prop :=
  match l with
  | x :: (y :: _) as rest => String.leb x y = true /\ ascending rest
  | _ => True
  end.

(** The scan [for i := 1; i < len(arr); i++ { if arr[i] == arr[i-1] ... }]. *)
Fixpoint adjacentEqual (arr : list string) : bool :=
  match arr with
  | x :: (y :: _) as rest => if String.eqb y x then true else adjacentEqual rest
  | _ => false
  end.

(** [containsDuplicate] checks whether the given string array has a duplicate
    element.  (The sort is done in place; the callers pass arrays of their own
    that they do not read afterwards.) *)
Definition containsDuplicate (arr : list string) : bool :=
  adjacentEqual (Sort.Strings arr).

(** Two entries of a [MultipleSubnets] list, at different positions, that
    have the same first IPv4 subnet, the same first IPv6 subnet or the same
    interface name.  Equality is equality of byte strings. *)
Definition duplicatedEntries (items : list AnnoSubnetItem) : Prop :=
  exists (i j : nat) (a b : AnnoSubnetItem),
    i <> j /\ items !! i = Some a /\ items !! j = Some b
    /\ ((exists v, head (IPv4 a) = Some v /\ head (IPv4 b) = Some v)
        \/ (exists v, head (IPv6 a) = Some v /\ head (IPv6 b) = Some v)
        \/ Interface a = Interface b).

(** One round of the loop of [mutateAndValidateSubnetAnno] over
    [MultipleSubnets[index]]: the entry as the round leaves it, the three
    arrays after the round, and the error if the round returns one. *)
Definition mutateMultipleItem (item : AnnoSubnetItem)
    (v4SubnetsArray v6SubnetsArray ifNameArray : list string)
  : AnnoSubnetItem * list string * list string * list string * option error :=
  let ifNameArray := ifNameArray ++ [Interface item] in
  let '(item, v4SubnetsArray, err) :=
    match IPv4 item with
    | [] => (item, v4SubnetsArray, None)
    | first :: _ =>
        let item := {| Interface := Interface item; IPv4 := [first]; IPv6 := IPv6 item |} in
        if String.eqb first "" then (item, v4SubnetsArray, Some ErrEmptyIPv4Multiple)
        else (item, v4SubnetsArray ++ [first], None)
    end in
  match err with
  | Some e => (item, v4SubnetsArray, v6SubnetsArray, ifNameArray, Some e)
  | None =>
      let '(item, v6SubnetsArray, err) :=
        match IPv6 item with
        | [] => (item, v6SubnetsArray, None)
        | first :: _ =>
            let item := {| Interface := Interface item; IPv4 := IPv4 item; IPv6 := [first] |} in
            if String.eqb first "" then (item, v6SubnetsArray, Some ErrEmptyIPv6Multiple)
            else (item, v6SubnetsArray ++ [first], None)
        end in
      match err with
      | Some e => (item, v4SubnetsArray, v6SubnetsArray, ifNameArray, Some e)
      | None =>
          if (length (IPv4 item) =? 0)%nat && (length (IPv6 item) =? 0)%nat
          then (item, v4SubnetsArray, v6SubnetsArray, ifNameArray, Some ErrDualEmptyMultiple)
          else (item, v4SubnetsArray, v6SubnetsArray, ifNameArray, None)
      end
  end.

(** The loop [for index := range subnetConfig.MultipleSubnets]: the entries
    as the loop leaves them (an early return leaves the later ones
    untouched), the arrays, and the error of the round that returned. *)
Fixpoint mutateMultipleLoop (items : list AnnoSubnetItem)
    (v4SubnetsArray v6SubnetsArray ifNameArray : list string)
  : list AnnoSubnetItem * list string * list string * list string * option error :=
  match items with
  | [] => ([], v4SubnetsArray, v6SubnetsArray, ifNameArray, None)
  | item :: rest =>
      let '(item, v4SubnetsArray, v6SubnetsArray, ifNameArray, err) :=
        mutateMultipleItem item v4SubnetsArray v6SubnetsArray ifNameArray in
      match err with
      | Some e => (item :: rest, v4SubnetsArray, v6SubnetsArray, ifNameArray, Some e)
      | None =>
          let '(rest, v4SubnetsArray, v6SubnetsArray, ifNameArray, err) :=
            mutateMultipleLoop rest v4SubnetsArray v6SubnetsArray ifNameArray in
          (item :: rest, v4SubnetsArray, v6SubnetsArray, ifNameArray, err)
      end
  end.

Definition setMultipleSubnets (c : PodSubnetAnnoConfig) (items : list AnnoSubnetItem)
  : PodSubnetAnnoConfig :=
  {| MultipleSubnets := items; SingleSubnet := SingleSubnet c;
     FlexibleIPNum := FlexibleIPNum c; AssignIPNum := AssignIPNum c;
     ReclaimIPPool := ReclaimIPPool c |}.

Definition setSingleSubnet (c : PodSubnetAnnoConfig) (item : option AnnoSubnetItem)
  : PodSubnetAnnoConfig :=
  {| MultipleSubnets := MultipleSubnets c; SingleSubnet := item;
     FlexibleIPNum := FlexibleIPNum c; AssignIPNum := AssignIPNum c;
     ReclaimIPPool := ReclaimIPPool c |}.

(** The [SingleSubnet] branch of [mutateAndValidateSubnetAnno]. *)
Definition mutateSingleItem (ClusterDefaultInterfaceName : string) (item : AnnoSubnetItem)
  : AnnoSubnetItem * option error :=
  let '(item, err) :=
    match IPv4 item with
    | [] => (item, None)
    | first :: _ =>
        let item := {| Interface := Interface item; IPv4 := [first]; IPv6 := IPv6 item |} in
        if String.eqb first "" then (item, Some ErrEmptyIPv4Single) else (item, None)
    end in
  match err with
  | Some e => (item, Some e)
  | None =>
      let '(item, err) :=
        match IPv6 item with
        | [] => (item, None)
        | first :: _ =>
            let item := {| Interface := Interface item; IPv4 := IPv4 item; IPv6 := [first] |} in
            if String.eqb first "" then (item, Some ErrEmptyIPv6Single) else (item, None)
        end in
      match err with
      | Some e => (item, Some e)
      | None =>
          if (length (IPv4 item) =? 0)%nat && (length (IPv6 item) =? 0)%nat
          then (item, Some ErrDualEmptySingle)
          else if String.eqb (Interface item) ""
          then ({| Interface := ClusterDefaultInterfaceName;
                   IPv4 := IPv4 item; IPv6 := IPv6 item |}, None)
          else (item, None)
      end
  end.

(** [mutateAndValidateSubnetAnno] keeps the first subnet of every entry and
    checks the interface names and the subnets for duplicates.  The Go
    function updates [*subnetConfig] in place and returns an error; here it
    returns the updated configuration next to the error. *)
Definition mutateAndValidateSubnetAnno (ClusterDefaultInterfaceName : string)
    (subnetConfig : PodSubnetAnnoConfig) : PodSubnetAnnoConfig * option error :=
  if negb (length (MultipleSubnets subnetConfig) =? 0)%nat then
    let '(items, v4SubnetsArray, v6SubnetsArray, ifNameArray, err) :=
      mutateMultipleLoop (MultipleSubnets subnetConfig) [] [] [] in
    let subnetConfig := setMultipleSubnets subnetConfig items in
    match err with
    | Some e => (subnetConfig, Some e)
    | None =>
        if containsDuplicate v4SubnetsArray || containsDuplicate v6SubnetsArray
        then (subnetConfig, Some ErrSameSubnet)
        else if containsDuplicate ifNameArray
        then (subnetConfig, Some ErrSameInterface)
        else (subnetConfig, None)
    end
  else
    match SingleSubnet subnetConfig with
    | Some item =>
        let '(item, err) := mutateSingleItem ClusterDefaultInterfaceName item in
        (setSingleSubnet subnetConfig (Some item), err)
    | None => (subnetConfig, Some ErrNoSubnets)
    end.

(** [IsDefaultIPPoolMode] judges whether the subnet feature is in use. *)
Definition IsDefaultIPPoolMode (subnetConfig : option PodSubnetAnnoConfig) : bool :=
  match subnetConfig with
  | None => true
  | Some subnetConfig =>
      if negb (length (MultipleSubnets subnetConfig) =? 0)%nat then false
      else
        match SingleSubnet subnetConfig with
        | Some _ => false
        | None => false
        end
  end.

(** Package [constant].  Its declarations are not part of the sources at
    hand, so the values the embedded code reads are parameters of the
    functions that read them. *)
Record Constant : Type := mkConstant {
  AnnoSpiderSubnets : string;
  AnnoSpiderSubnet : string;
  AnnoSpiderSubnetPoolIPNumber : string;
  AnnoSpiderSubnetReclaimIPPool : string;
  ClusterDefaultInterfaceName : string;
  SpiderFinalizer : string;
  SpiderpoolAPIGroup : string;
  SpiderSubnetKind : string
}.

(** The values that the comments of the sources and the upstream project
    give to these constants. *)
Definition upstreamConstant : Constant :=
  {| AnnoSpiderSubnets := "ipam.spidernet.io/subnets";
     AnnoSpiderSubnet := "ipam.spidernet.io/subnet";
     AnnoSpiderSubnetPoolIPNumber := "ipam.spidernet.io/ippool-ip-number";
     AnnoSpiderSubnetReclaimIPPool := "ipam.spidernet.io/ippool-reclaim";
     ClusterDefaultInterfaceName := "eth0";
     SpiderFinalizer := "spiderpool.spidernet.io";
     SpiderpoolAPIGroup := "spiderpool.spidernet.io";
     SpiderSubnetKind := "SpiderSubnet" |}.

(** What [GetSubnetAnnoConfig] reads from outside the package: the JSON
    decoder of the standard library at the two types it is used at, and the
    cluster default held by [singletons.ClusterDefaultPool]. *)
Record Collaborators : Type := mkCollaborators {
  (* json.Unmarshal([]byte(s), &cfg.MultipleSubnets) *)
  unmarshalMultipleSubnets : string -> error + list AnnoSubnetItem;
  (* json.Unmarshal([]byte(s), &cfg.SingleSubnet) with cfg.SingleSubnet
     freshly allocated; the JSON text null resets the pointer to nil *)
  unmarshalSingleSubnet : string -> error + option AnnoSubnetItem;
  ClusterSubnetDefaultFlexibleIPNumber : Z
}.

Section Resolver.

Variable constant : Constant.
Variable env : Collaborators.

(** [ShouldReclaimIPPool] checks the pod annotation of the reclaim
    policy. *)
Definition ShouldReclaimIPPool (anno : gmap string string) : bool * option error :=
  match anno !! AnnoSpiderSubnetReclaimIPPool constant with
  | Some reclaimPool =>
      let '(parseBool, err) := Strconv.ParseBool reclaimPool in
      match err with
      | Some e =>
          (false, Some (ErrParseReclaim (AnnoSpiderSubnetReclaimIPPool constant) e))
      | None => (parseBool, None)
      end
  | None => (true, None)
  end.

(** The part of [GetSubnetAnnoConfig] that follows the decoding of the
    subnet annotation. *)
Definition resolveCounts (podAnnotations : gmap string string)
    (subnetAnnoConfig : PodSubnetAnnoConfig)
  : option PodSubnetAnnoConfig * option error :=
  let withCount : PodSubnetAnnoConfig + error :=
    match podAnnotations !! AnnoSpiderSubnetPoolIPNumber constant with
    | Some poolIPNum =>
        let '(isFlexible, ipNum, err) := GetPoolIPNumber poolIPNum in
        match err with
        | Some e => inr e
        | None =>
            if ipNum <? 0
            then inr (ErrNegativeIPNumber (AnnoSpiderSubnetPoolIPNumber constant))
            else if (isFlexible : bool)
            then inl {| MultipleSubnets := MultipleSubnets subnetAnnoConfig;
                        SingleSubnet := SingleSubnet subnetAnnoConfig;
                        FlexibleIPNum := Some ipNum;
                        AssignIPNum := AssignIPNum subnetAnnoConfig;
                        ReclaimIPPool := ReclaimIPPool subnetAnnoConfig |}
            else inl {| MultipleSubnets := MultipleSubnets subnetAnnoConfig;
                        SingleSubnet := SingleSubnet subnetAnnoConfig;
                        FlexibleIPNum := FlexibleIPNum subnetAnnoConfig;
                        AssignIPNum := ipNum;
                        ReclaimIPPool := ReclaimIPPool subnetAnnoConfig |}
        end
    | None =>
        inl {| MultipleSubnets := MultipleSubnets subnetAnnoConfig;
               SingleSubnet := SingleSubnet subnetAnnoConfig;
               FlexibleIPNum := Some (ClusterSubnetDefaultFlexibleIPNumber env);
               AssignIPNum := AssignIPNum subnetAnnoConfig;
               ReclaimIPPool := ReclaimIPPool subnetAnnoConfig |}
    end in
  match withCount with
  | inr e => (None, Some e)
  | inl subnetAnnoConfig =>
      let '(reclaimPool, err) := ShouldReclaimIPPool podAnnotations in
      match err with
      | Some e => (None, Some e)
      | None =>
          let subnetAnnoConfig :=
            {| MultipleSubnets := MultipleSubnets subnetAnnoConfig;
               SingleSubnet := SingleSubnet subnetAnnoConfig;
               FlexibleIPNum := FlexibleIPNum subnetAnnoConfig;
               AssignIPNum := AssignIPNum subnetAnnoConfig;
               ReclaimIPPool := reclaimPool |} in
          let '(subnetAnnoConfig, err) :=
            mutateAndValidateSubnetAnno (ClusterDefaultInterfaceName constant)
              subnetAnnoConfig in
          match err with
          | Some e => (None, Some e)
          | None => (Some subnetAnnoConfig, None)
          end
      end
  end.

(** [GetSubnetAnnoConfig] generates the SpiderSubnet configuration from the
    pod annotations. *)
Definition GetSubnetAnnoConfig (podAnnotations : gmap string string)
  : option PodSubnetAnnoConfig * option error :=
  let subnetAnnoConfig := zeroPodSubnetAnnoConfig in
  match podAnnotations !! AnnoSpiderSubnets constant with
  | Some subnets =>
      match unmarshalMultipleSubnets env subnets with
      | inl e =>
          (None, Some (ErrParseAnnotation (AnnoSpiderSubnets constant) subnets e))
      | inr items =>
          resolveCounts podAnnotations (setMultipleSubnets subnetAnnoConfig items)
      end
  | None =>
      match podAnnotations !! AnnoSpiderSubnet constant with
      | Some subnet =>
          match unmarshalSingleSubnet env subnet with
          | inl e =>
              (None, Some (ErrParseAnnotation (AnnoSpiderSubnet constant) subnet e))
          | inr item =>
              resolveCounts podAnnotations (setSingleSubnet subnetAnnoConfig item)
          end
      | None => (None, None)
      end
  end.

End Resolver.

(** ** Kubernetes object metadata *)

(** [metav1.OwnerReference]. *)
Record OwnerReference : Type := mkOwnerReference {
  refAPIVersion : string;
  refKind : string;
  refName : string;
  refUID : string;
  refController : option bool
}.

(** [metav1.ObjectMeta], the fields the embedded code reads. *)
Record ObjectMeta : Type := mkObjectMeta {
  metaNamespace : string;
  metaName : string;
  metaUID : string;
  metaOwnerReferences : list OwnerReference;
  metaDeletionTimestamp : option Z;
  metaFinalizers : list string
}.

(** [metav1.GetControllerOf]: the first owner reference whose [Controller]
    flag is set and true. *)
Fixpoint GetControllerOfRefs (refs : list OwnerReference) : option OwnerReference :=
  match refs with
  | [] => None
  | r :: refs' =>
      match refController r with
      | Some true => Some r
      | _ => GetControllerOfRefs refs'
      end
  end.

Definition GetControllerOf (controllee : ObjectMeta) : option OwnerReference :=
  GetControllerOfRefs (metaOwnerReferences controllee).

(** [controllerutil.ContainsFinalizer]. *)
Definition ContainsFinalizer (o : ObjectMeta) (finalizer : string) : bool :=
  existsb (fun e => String.eqb e finalizer) (metaFinalizers o).

(** ** Package [podmanager]: the owner-graph resolver *)

(** Modelled from the spec: the kind names of package [constant] are not part
    of the sources at hand; the spec enumerates them as [{Pod, ReplicaSet,
    Deployment, Job, CronJob, DaemonSet, StatefulSet, Unknown}]. *)
Definition KindPod : string := "Pod".
Definition KindReplicaSet : string := "ReplicaSet".
Definition KindDeployment : string := "Deployment".
Definition KindJob : string := "Job".
Definition KindCronJob : string := "CronJob".
Definition KindDaemonSet : string := "DaemonSet".
Definition KindStatefulSet : string := "StatefulSet".
Definition KindUnknown : string := "Unknown".

(** [appsv1.SchemeGroupVersion.String()] and
    [batchv1.SchemeGroupVersion.String()]. *)
Definition appsv1_GroupVersion : string := "apps/v1".
Definition batchv1_GroupVersion : string := "batch/v1".

(** The group of an [apiVersion] text, after [schema.ParseGroupVersion]: the
    text before the ["/"], or the empty (core) group when there is none. *)
Definition apiGroup (apiVersion : string) : string :=
  let '(before, _, found) := Strings.Cut apiVersion "/" in
  if found then before else EmptyString.

(** The Go type of the object handed to [client.Get]. *)
Inductive ObjectType : Type :=
  | TReplicaSet | TDeployment | TJob | TCronJob | TDaemonSet | TStatefulSet.

(** The value of the [APP] field, an [interface{}]: the pod itself or the
    fetched workload.  Only the metadata of an object is read by the
    resolver. *)
Inductive App : Type :=
  | AppPod (pod : ObjectMeta)
  | AppObject (type : ObjectType) (obj : ObjectMeta).

(** [types.PodTopController]. *)
Record PodTopController : Type := mkPodTopController {
  Kind : string;
  Namespace : string;
  Name : string;
  UID : string;
  APP : option App
}.

(** The zero value [types.PodTopController{}]. *)
Definition zeroPodTopController : PodTopController :=
  {| Kind := ""; Namespace := ""; Name := ""; UID := ""; APP := None |}.

(** What the resolver does besides returning: reads through the client and
    warnings on the logger. *)
Inductive Event : Type :=
  | EvGet (type : ObjectType) (namespace name : string)
  | EvWarn (ownerKind podNamespace podName : string).

Section PodManager.

(** [pm.client.Get(ctx, NamespacedName{namespace, name}, &obj)] at the type
    of [obj]: the fetched object or the error. *)
Variable client_Get : ObjectType -> string -> string -> error + ObjectMeta.

(** [GetPodTopController] finds the top owner controller of the given pod.
    The result is the list of events in program order and the pair that
    the Go method returns. *)
Definition GetPodTopController (pod : ObjectMeta)
  : list Event * (PodTopController * option error) :=
  let ownerErr := ErrPodOwner (metaNamespace pod) (metaName pod) in
  let failed err := (zeroPodTopController, Some (ErrWrap ownerErr err)) in
  match GetControllerOf pod with
  | None =>
      ([], ({| Kind := KindPod; Namespace := metaNamespace pod; Name := metaName pod;
               UID := metaUID pod; APP := Some (AppPod pod) |}, None))
  | Some podOwner =>
      if negb (String.eqb (refAPIVersion podOwner) appsv1_GroupVersion)
         && negb (String.eqb (refAPIVersion podOwner) batchv1_GroupVersion)
      then
        ([], ({| Kind := KindUnknown; Namespace := metaNamespace pod;
                 Name := refName podOwner; UID := refUID podOwner; APP := None |}, None))
      else if String.eqb (refKind podOwner) KindReplicaSet then
        let ev1 := EvGet TReplicaSet (metaNamespace pod) (refName podOwner) in
        match client_Get TReplicaSet (metaNamespace pod) (refName podOwner) with
        | inl err => ([ev1], failed err)
        | inr replicaset =>
            match GetControllerOf replicaset with
            | Some replicasetOwner =>
                if String.eqb (refKind replicasetOwner) KindDeployment then
                  let ev2 := EvGet TDeployment (metaNamespace replicaset)
                               (refName replicasetOwner) in
                  match client_Get TDeployment (metaNamespace replicaset)
                          (refName replicasetOwner) with
                  | inl err => ([ev1; ev2], failed err)
                  | inr deployment =>
                      ([ev1; ev2],
                       ({| Kind := KindDeployment; Namespace := metaNamespace deployment;
                           Name := metaName deployment; UID := metaUID deployment;
                           APP := Some (AppObject TDeployment deployment) |}, None))
                  end
                else
                  ([ev1; EvWarn (refKind replicasetOwner) (metaNamespace pod) (metaName pod)],
                   ({| Kind := KindUnknown; Namespace := metaNamespace pod;
                       Name := refName replicasetOwner; UID := refUID replicasetOwner;
                       APP := None |}, None))
            | None =>
                ([ev1],
                 ({| Kind := KindReplicaSet; Namespace := metaNamespace replicaset;
                     Name := metaName replicaset; UID := metaUID replicaset;
                     APP := Some (AppObject TReplicaSet replicaset) |}, None))
            end
        end
      else if String.eqb (refKind podOwner) KindJob then
        let ev1 := EvGet TJob (metaNamespace pod) (refName podOwner) in
        match client_Get TJob (metaNamespace pod) (refName podOwner) with
        | inl err => ([ev1], failed err)
        | inr job =>
            match GetControllerOf job with
            | Some jobOwner =>
                if String.eqb (refKind jobOwner) KindCronJob then
                  let ev2 := EvGet TCronJob (metaNamespace job) (refName jobOwner) in
                  match client_Get TCronJob (metaNamespace job) (refName jobOwner) with
                  | inl err => ([ev1; ev2], failed err)
                  | inr cronJob =>
                      ([ev1; ev2],
                       ({| Kind := KindCronJob; Namespace := metaNamespace cronJob;
                           Name := metaName cronJob; UID := metaUID cronJob;
                           APP := Some (AppObject TCronJob cronJob) |}, None))
                  end
                else
                  ([ev1; EvWarn (refKind jobOwner) (metaNamespace pod) (metaName pod)],
                   ({| Kind := KindUnknown; Namespace := metaNamespace job;
                       Name := refName jobOwner; UID := refUID jobOwner;
                       APP := None |}, None))
            | None =>
                ([ev1],
                 ({| Kind := KindJob; Namespace := metaNamespace job;
                     Name := metaName job; UID := metaUID job;
                     APP := Some (AppObject TJob job) |}, None))
            end
        end
      else if String.eqb (refKind podOwner) KindDaemonSet then
        let ev1 := EvGet TDaemonSet (metaNamespace pod) (refName podOwner) in
        match client_Get TDaemonSet (metaNamespace pod) (refName podOwner) with
        | inl err => ([ev1], failed err)
        | inr daemonSet =>
            ([ev1],
             ({| Kind := KindDaemonSet; Namespace := metaNamespace daemonSet;
                 Name := metaName daemonSet; UID := metaUID daemonSet;
                 APP := Some (AppObject TDaemonSet daemonSet) |}, None))
        end
      else if String.eqb (refKind podOwner) KindStatefulSet then
        let ev1 := EvGet TStatefulSet (metaNamespace pod) (refName podOwner) in
        match client_Get TStatefulSet (metaNamespace pod) (refName podOwner) with
        | inl err => ([ev1], failed err)
        | inr statefulSet =>
            ([ev1],
             ({| Kind := KindStatefulSet; Namespace := metaNamespace statefulSet;
                 Name := metaName statefulSet; UID := metaUID statefulSet;
                 APP := Some (AppObject TStatefulSet statefulSet) |}, None))
        end
      else
        ([EvWarn (refKind podOwner) (metaNamespace pod) (metaName pod)],
         ({| Kind := KindUnknown; Namespace := metaNamespace pod;
             Name := refName podOwner; UID := refUID podOwner; APP := None |}, None))
  end.

End PodManager.

(** ** Package [subnetmanager]: the admission hook *)

(** [spiderpoolv1.SubnetSpec], the fields that [GenSubnetFreeIPs] reads. *)
Record SubnetSpec : Type := mkSubnetSpec {
  IPVersion : option Z;
  IPs : list string;
  ExcludeIPs : list string
}.

(** [spiderpoolv1.SpiderSubnet]. *)
Record SpiderSubnet : Type := mkSpiderSubnet {
  subnetMeta : ObjectMeta;
  Spec : SubnetSpec
}.

(** The [*apierrors.StatusError] values built by the hook, over the type of
    the field errors of the structural validation. *)
Inductive StatusError (FieldError : Type) : Type :=
  (* apierrors.NewForbidden(schema.GroupResource{}, "", errors.New(msg)) *)
  | Forbidden (msg : string)
  (* apierrors.NewInvalid(schema.GroupKind{group, kind}, name, errs) *)
  | Invalid (group kind name : string) (errs : list FieldError).

Arguments Forbidden {FieldError} msg.
Arguments Invalid {FieldError} group kind name errs.

Section SubnetWebhook.

Variable constant : Constant.
Variable FieldError : Type.

(** [sw.validateUpdateSubnet(ctx, oldSubnet, newSubnet)], defined in a file
    of the package that is not part of the sources at hand; the hook only
    tests its result for emptiness and passes it on. *)
Variable validateUpdateSubnet : SpiderSubnet -> SpiderSubnet -> list FieldError.

(** [ValidateUpdate]: [None] admits the update. *)
Definition ValidateUpdate (oldSubnet newSubnet : SpiderSubnet)
  : option (StatusError FieldError) :=
  match metaDeletionTimestamp (subnetMeta newSubnet) with
  | Some _ =>
      if negb (ContainsFinalizer (subnetMeta newSubnet) (SpiderFinalizer constant))
      then None
      else Some (Forbidden "cannot update a terminaing Subnet")
  | None =>
      let errs := validateUpdateSubnet oldSubnet newSubnet in
      if negb (length errs =? 0)%nat
      then Some (Invalid (SpiderpoolAPIGroup constant) (SpiderSubnetKind constant)
                   (metaName (subnetMeta newSubnet)) errs)
      else None
  end.

End SubnetWebhook.

(** ** Package [controllers]: application labels *)

(** [AppLabelValue] joins the application kind, namespace and name into a
    label value, ["%s_%s_%s"]. *)
Definition AppLabelValue (appKind appNS appName : string) : string :=
  appKind +:+ "_" +:+ appNS +:+ "_" +:+ appName.

(** [ParseAppLabelValue] unpacks a label value; the four named results start
    at their zero values and are only assigned when the first cut finds the
    separator. *)
Definition ParseAppLabelValue (str : string) : string * string * string * bool :=
  let '(typeKind, after, found) := Strings.Cut str "_" in
  if found then
    let '(appNS, appName, _) := Strings.Cut after "_" in
    (typeKind, appNS, appName, found)
  else (EmptyString, EmptyString, EmptyString, false).

(** ** What [mutateAndValidateSubnetAnno] accepts

    The vocabulary of the statements about the validation: an entry is well
    formed when it names a subnet and none of the first subnets it names is
    blank; the entry that the validation leaves keeps the first subnet of
    each family. *)
Definition firstOnly (subnets : list string) : list string :=
  match subnets with
  | [] => []
  | first :: _ => [first]
  end.

Definition normalizeItem (item : AnnoSubnetItem) : AnnoSubnetItem :=
  {| Interface := Interface item; IPv4 := firstOnly (IPv4 item);
     IPv6 := firstOnly (IPv6 item) |}.

Definition wellFormedItem (item : AnnoSubnetItem) : Prop :=
  head (IPv4 item) <> Some EmptyString
  /\ head (IPv6 item) <> Some EmptyString
  /\ (IPv4 item <> [] \/ IPv6 item <> []).

(** The interface name that the single-subnet branch leaves. *)
Definition defaultInterface (defaultIf : string) (item : AnnoSubnetItem) : AnnoSubnetItem :=
  {| Interface := if String.eqb (Interface item) "" then defaultIf else Interface item;
     IPv4 := IPv4 item; IPv6 := IPv6 item |}.

(** An entry as a returned configuration holds it: at most one subnet per
    family, no blank subnet, and a subnet in one family at least. *)
Definition normalItem (item : AnnoSubnetItem) : Prop :=
  (length (IPv4 item) <= 1)%nat /\ (length (IPv6 item) <= 1)%nat
  /\ (EmptyString ∉ IPv4 item) /\ (EmptyString ∉ IPv6 item)
  /\ (IPv4 item <> [] \/ IPv6 item <> []).

(** ** Package [podmanager]: kinds and types *)

(** The kind name that [GetPodTopController] reports for a fetched object of
    each Go type. *)
Definition typeKind (type : ObjectType) : string :=
  match type with
  | TReplicaSet => KindReplicaSet
  | TDeployment => KindDeployment
  | TJob => KindJob
  | TCronJob => KindCronJob
  | TDaemonSet => KindDaemonSet
  | TStatefulSet => KindStatefulSet
  end.

Definition isGet (ev : Event) : bool :=
  match ev with EvGet _ _ _ => true | EvWarn _ _ _ => false end.

Definition isWarn (ev : Event) : bool :=
  match ev with EvGet _ _ _ => false | EvWarn _ _ _ => true end.

(** ** Package [subnetmanager]: the other admission hooks *)

Section SubnetWebhookHooks.

Variable constant : Constant.
Variable FieldError : Type.

(** [sw.validateCreateSubnet(ctx, subnet)] and [sw.mutateSubnet(ctx, subnet)],
    defined in files of the package that are declared elsewhere; the first
    returns the field errors, the second updates the subnet in place and
    returns an error. *)
Variable validateCreateSubnet : SpiderSubnet -> list FieldError.
Variable mutateSubnet : SpiderSubnet -> SpiderSubnet * option error.

(** [Default]: the subnet as [mutateSubnet] leaves it, and the returned
    error, which is always nil (a failure is only logged). *)
Definition Default (subnet : SpiderSubnet) : SpiderSubnet * option error :=
  let '(subnet, _) := mutateSubnet subnet in (subnet, None).

(** [ValidateCreate]: [None] admits the creation. *)
Definition ValidateCreate (subnet : SpiderSubnet) : option (StatusError FieldError) :=
  let errs := validateCreateSubnet subnet in
  if negb (length errs =? 0)%nat
  then Some (Invalid (SpiderpoolAPIGroup constant) (SpiderSubnetKind constant)
               (metaName (subnetMeta subnet)) errs)
  else None.

(** [ValidateDelete]. *)
Definition ValidateDelete (subnet : SpiderSubnet) : option (StatusError FieldError) :=
  None.

End SubnetWebhookHooks.

(** ** The stages of [GetSubnetAnnoConfig]

    The vocabulary of the statements about the resolver.  The subnet
    annotation is selected and decoded: the subnets annotation gives
    [multiple], or, in its absence, the subnet annotation gives [single]. *)
Definition selectedSubnets (constant : Constant) (env : Collaborators)
    (anno : gmap string string)
    (multiple : list AnnoSubnetItem) (single : option AnnoSubnetItem) : Prop :=
  (exists subnets,
      anno !! AnnoSpiderSubnets constant = Some subnets
      /\ unmarshalMultipleSubnets env subnets = inr multiple /\ single = None)
  \/ (exists subnet,
        anno !! AnnoSpiderSubnets constant = None
        /\ anno !! AnnoSpiderSubnet constant = Some subnet
        /\ unmarshalSingleSubnet env subnet = inr single /\ multiple = []).

(** The count annotation is absent, or it parses to a count that is not
    negative. *)
Definition parsedCount (constant : Constant) (anno : gmap string string)
    (count : option (bool * Z)) : Prop :=
  (anno !! AnnoSpiderSubnetPoolIPNumber constant = None /\ count = None)
  \/ (exists poolIPNum isFlexible ipNum,
        anno !! AnnoSpiderSubnetPoolIPNumber constant = Some poolIPNum
        /\ GetPoolIPNumber poolIPNum = (isFlexible, ipNum, None)
        /\ 0 <= ipNum /\ count = Some (isFlexible, ipNum)).

(** The configuration that [GetSubnetAnnoConfig] hands to
    [mutateAndValidateSubnetAnno], from the decoded subnets, the parsed count
    and the reclaim policy. *)
Definition configBeforeValidation (env : Collaborators)
    (multiple : list AnnoSubnetItem) (single : option AnnoSubnetItem)
    (count : option (bool * Z)) (reclaimPool : bool) : PodSubnetAnnoConfig :=
  {| MultipleSubnets := multiple; SingleSubnet := single;
     FlexibleIPNum :=
       match count with
       | None => Some (ClusterSubnetDefaultFlexibleIPNumber env)
       | Some (true, ipNum) => Some ipNum
       | Some (false, _) => None
       end;
     AssignIPNum :=
       match count with
       | Some (false, ipNum) => ipNum
       | _ => 0
       end;
     ReclaimIPPool := reclaimPool |}.

(** ** Sample objects

    A small cluster used by the examples: the pod [web-5d4f-x7k2p] is owned
    by the ReplicaSet [web-5d4f], which is owned by the Deployment [web]. *)
Module Fixture.

Definition controllerRef (apiVersion kind name uid : string) : OwnerReference :=
  {| refAPIVersion := apiVersion; refKind := kind; refName := name; refUID := uid;
     refController := Some true |}.

Definition deployment : ObjectMeta :=
  {| metaNamespace := "default"; metaName := "web"; metaUID := "uid-deployment";
     metaOwnerReferences := []; metaDeletionTimestamp := None; metaFinalizers := [] |}.

Definition replicaset : ObjectMeta :=
  {| metaNamespace := "default"; metaName := "web-5d4f"; metaUID := "uid-replicaset";
     metaOwnerReferences := [controllerRef "apps/v1" "Deployment" "web" "uid-deployment"];
     metaDeletionTimestamp := None; metaFinalizers := [] |}.

Definition pod : ObjectMeta :=
  {| metaNamespace := "default"; metaName := "web-5d4f-x7k2p"; metaUID := "uid-pod";
     metaOwnerReferences := [controllerRef "apps/v1" "ReplicaSet" "web-5d4f" "uid-replicaset"];
     metaDeletionTimestamp := None; metaFinalizers := [] |}.

Definition notFound : error := ErrExternal "not found".

(** A client over a store that holds the ReplicaSet and, when [withDeployment]
    is set, the Deployment. *)
Definition client (withDeployment : bool) (type : ObjectType) (namespace name : string)
  : error + ObjectMeta :=
  match type with
  | TReplicaSet =>
      if String.eqb namespace "default" && String.eqb name "web-5d4f"
      then inr replicaset else inl notFound
  | TDeployment =>
      if withDeployment && String.eqb namespace "default" && String.eqb name "web"
      then inr deployment else inl notFound
  | _ => inl notFound
  end.

(** A subnet that is being deleted, before and after the removal of its
    finalizer together with a change of its ranges. *)
Definition terminatingSubnet (finalizers : list string) (ips : list string) : SpiderSubnet :=
  {| subnetMeta :=
       {| metaNamespace := ""; metaName := "subnet-a"; metaUID := "uid-subnet";
          metaOwnerReferences := []; metaDeletionTimestamp := Some 1667433600;
          metaFinalizers := finalizers |};
     Spec := {| IPVersion := Some 4; IPs := ips; ExcludeIPs := [] |} |}.

End Fixture.

(** * Properties *)

(** ** The library models on sample inputs *)

Example Split_uuid :
  Strings.Split "0f0a8f5c-6a3c-4a55-9d2e-3b1c5e7a9f01" "-"
  = ["0f0a8f5c"; "6a3c"; "4a55"; "9d2e"; "3b1c5e7a9f01"]%string.
Proof. reflexivity. Qed.

Example Split_empty : Strings.Split "" "-" = [""%string].
Proof. reflexivity. Qed.

Example Split_trailing : Strings.Split "a--b-" "-" = ["a"; ""; "b"; ""]%string.
Proof. reflexivity. Qed.

Example Cut_first : Strings.Cut "1+2+" "+" = ("1", "2+", true)%string.
Proof. reflexivity. Qed.

Example Cut_none : Strings.Cut "abc" "+" = ("abc", "", false)%string.
Proof. reflexivity. Qed.

Example ToLower_mixed : Strings.ToLower "StatefulSet@[Z`{" = "statefulset@[z`{"%string.
Proof. reflexivity. Qed.

Example Atoi_max : Strconv.Atoi "9223372036854775807" = (9223372036854775807, None).
Proof. reflexivity. Qed.

Example Atoi_overflow :
  Strconv.Atoi "9223372036854775808"
  = (9223372036854775807, Some (NumError "Atoi" "9223372036854775808" ErrRange)).
Proof. reflexivity. Qed.

Example Atoi_min : Strconv.Atoi "-9223372036854775808" = (-9223372036854775808, None).
Proof. reflexivity. Qed.

Example Atoi_sign_only : Strconv.Atoi "-" = (0, Some (NumError "Atoi" "-" ErrSyntax)).
Proof. reflexivity. Qed.

Example Atoi_plus_sign : Strconv.Atoi "+42" = (42, None).
Proof. reflexivity. Qed.

Example FormatInt_samples :
  (Strconv.FormatInt 4, Strconv.FormatInt 0, Strconv.FormatInt (-6)) = ("4", "0", "-6")%string.
Proof. reflexivity. Qed.

Example Sort_Strings_sample :
  Sort.Strings ["net1"; "eth0"; "ETH0"; "eth0"]%string = ["ETH0"; "eth0"; "eth0"; "net1"]%string.
Proof. reflexivity. Qed.

Example SubnetPoolName_sample :
  SubnetPoolName "Deployment" "Default" "web" 4 "eth0" "0f0a8f5c-6a3c-4a55-9d2e-3B1C5E7A9F01"
  = "auto-deployment-default-web-v4-eth0-3b1c5e7a9f01"%string.
Proof. reflexivity. Qed.

Example mutateAndValidateSubnetAnno_truncates :
  mutateAndValidateSubnetAnno "eth0"
    (setSingleSubnet zeroPodSubnetAnnoConfig
       (Some {| Interface := ""; IPv4 := ["subnet-a"; "subnet-b"]%string; IPv6 := [] |}))
  = (setSingleSubnet zeroPodSubnetAnnoConfig
       (Some {| Interface := "eth0"; IPv4 := ["subnet-a"%string]; IPv6 := [] |}), None).
Proof. reflexivity. Qed.

(** Only the first subnet of an entry is kept and compared: the second
    elements below are equal and the configuration is accepted. *)
Example mutateAndValidateSubnetAnno_compares_first_only :
  mutateAndValidateSubnetAnno "eth0"
    (setMultipleSubnets zeroPodSubnetAnnoConfig
       [ {| Interface := "eth0"; IPv4 := ["subnet-a"; "subnet-x"]%string; IPv6 := [] |};
         {| Interface := "net1"; IPv4 := ["subnet-b"; "subnet-x"]%string; IPv6 := [] |} ])
  = (setMultipleSubnets zeroPodSubnetAnnoConfig
       [ {| Interface := "eth0"; IPv4 := ["subnet-a"%string]; IPv6 := [] |};
         {| Interface := "net1"; IPv4 := ["subnet-b"%string]; IPv6 := [] |} ], None).
Proof. reflexivity. Qed.

Example mutateAndValidateSubnetAnno_same_interface :
  snd (mutateAndValidateSubnetAnno "eth0"
         (setMultipleSubnets zeroPodSubnetAnnoConfig
            [ {| Interface := "eth0"; IPv4 := ["subnet-a"%string]; IPv6 := [] |};
              {| Interface := "eth0"; IPv4 := ["subnet-b"%string]; IPv6 := [] |} ]))
  = Some ErrSameInterface.
Proof. reflexivity. Qed.

Example GetPodTopController_no_owner :
  GetPodTopController (Fixture.client true) Fixture.deployment
  = ([], ({| Kind := "Pod"; Namespace := "default"; Name := "web"; UID := "uid-deployment";
             APP := Some (AppPod Fixture.deployment) |}, None)).
Proof. reflexivity. Qed.

(** ** Text helpers *)

Lemma append_inv_head (p a b : string) : p +:+ a = p +:+ b -> a = b.
Proof.
  induction p as [|c p IH]; simpl; intros H.
  - exact H.
  - injection H as H. auto.
Qed.

Lemma Count_nonneg (s : string) (sep : ascii) : 0 <= Strings.Count s sep.
Proof.
  induction s as [|c s IH]; simpl; [lia|].
  destruct (Ascii.eqb c sep); lia.
Qed.

Lemma Count_append (s t : string) (sep : ascii) :
  Strings.Count (s +:+ t) sep = Strings.Count s sep + Strings.Count t sep.
Proof.
  induction s as [|c s IH]; simpl; [reflexivity|].
  rewrite IH. lia.
Qed.

(** Cutting at the first separator of [pre ++ sep ++ suf] when [pre] has
    none. *)
Lemma Cut_append (pre suf : string) (sep : ascii) :
  Strings.Count pre sep = 0 ->
  Strings.Cut (pre +:+ String sep suf) sep = (pre, suf, true).
Proof.
  induction pre as [|c pre IH]; simpl; intros H.
  - now rewrite Ascii.eqb_refl.
  - pose proof (Count_nonneg pre sep) as Hge.
    destruct (Ascii.eqb c sep); [lia|].
    rewrite IH by lia. reflexivity.
Qed.

(** ** C1, C10: [GetPoolIPNumber] *)

(** With exactly one separator the parsed text is what follows it. *)
Lemma GetPoolIPNumber_cut (pre suf : string) :
  Strings.Count pre "+" = 0 -> Strings.Count suf "+" = 0 ->
  GetPoolIPNumber (pre +:+ String "+" suf) =
    match Strconv.Atoi suf with
    | (ipNum, None) => (true, ipNum, None)
    | (_, Some e) =>
        (false, -1, Some (ErrWrap (ErrInvalidInput (pre +:+ String "+" suf)) e))
    end.
Proof.
  intros Hpre Hsuf. unfold GetPoolIPNumber.
  rewrite Count_append. cbn [Strings.Count].
  rewrite Ascii.eqb_refl, Hpre, Hsuf. cbn [Z.add Z.eqb orb Pos.eqb].
  rewrite Cut_append by exact Hpre.
  destruct (Strconv.Atoi suf) as [n [e|]]; reflexivity.
Qed.

(** C1 (as stated, refuted): on ["3+"] the code does not return
    [(true, 3, nil)]; the text after the [+] is empty and [Atoi] fails. *)
Lemma C1_counterexample_3plus :
  GetPoolIPNumber "3+" <> (true, 3, None)
  /\ GetPoolIPNumber "3+" =
       (false, -1, Some (ErrWrap (ErrInvalidInput "3+") (NumError "Atoi" "" ErrSyntax))).
Proof. split; [discriminate | reflexivity]. Qed.

(** C1 (amended): [GetPoolIPNumber] on the test vectors, the flexible count
    being written with the [+] in front: ["5"] gives [(false, 5, nil)],
    ["+3"] gives [(true, 3, nil)], and ["3+"], ["1+2+"] and ["abc"] give an
    error. *)
Theorem C1_GetPoolIPNumber_vectors :
  GetPoolIPNumber "5" = (false, 5, None)
  /\ GetPoolIPNumber "+3" = (true, 3, None)
  /\ (exists e, GetPoolIPNumber "3+" = (false, -1, Some e))
  /\ (exists e, GetPoolIPNumber "1+2+" = (false, -1, Some e))
  /\ (exists e, GetPoolIPNumber "abc" = (false, -1, Some e)).
Proof.
  repeat split; try reflexivity; eexists; reflexivity.
Qed.

(** ** C2: [CalculateJobPodNum] *)

(** C2 (as stated, refuted): a negative parallelism is not treated as 1, and
    neither is a negative completion count. *)
Lemma C2_counterexample_negative :
  CalculateJobPodNum (Some (-3)) None <> Z.max 1 (-3)
  /\ CalculateJobPodNum (Some (-3)) None = -3
  /\ CalculateJobPodNum (Some 2) (Some (-1)) <> Z.max 1 (-1).
Proof. repeat split; discriminate. Qed.

(** C2 (amended): [CalculateJobPodNum] returns 1 when both arguments are
    nil; with [x] the parallelism when only the parallelism is set, and the
    completions when the completions are set (alone or with the parallelism),
    it returns [max(1, x)] when [x] is not negative (so 0 is treated as 1)
    and [x] itself when [x] is negative.  In particular the four values of
    the spec. *)
Theorem C2_CalculateJobPodNum_cases (p c : Z) :
  CalculateJobPodNum None None = 1
  /\ (0 <= p -> CalculateJobPodNum (Some p) None = Z.max 1 p)
  /\ (p < 0 -> CalculateJobPodNum (Some p) None = p)
  /\ (0 <= c -> CalculateJobPodNum None (Some c) = Z.max 1 c)
  /\ (c < 0 -> CalculateJobPodNum None (Some c) = c)
  /\ (0 <= c -> CalculateJobPodNum (Some p) (Some c) = Z.max 1 c)
  /\ (c < 0 -> CalculateJobPodNum (Some p) (Some c) = c)
  /\ CalculateJobPodNum (Some 0) None = 1
  /\ CalculateJobPodNum (Some 3) None = 3
  /\ CalculateJobPodNum (Some 2) (Some 5) = 5.
Proof.
  unfold CalculateJobPodNum.
  destruct (Z.eqb_spec p 0), (Z.eqb_spec c 0); repeat split; intros; lia.
Qed.

Lemma C2_CalculateJobPodNum_cases_witness :
  CalculateJobPodNum (Some 4) None = Z.max 1 4
  /\ CalculateJobPodNum (Some (-2)) None = -2
  /\ CalculateJobPodNum (Some 4) (Some 7) = Z.max 1 7.
Proof.
  destruct (C2_CalculateJobPodNum_cases 4 7) as (_ & Hp & _ & _ & _ & Hc & _).
  destruct (C2_CalculateJobPodNum_cases (-2) 7) as (_ & _ & Hn & _).
  split; [|split].
  - apply Hp. lia.
  - apply Hn. lia.
  - apply Hc. lia.
Defined.

(** ** C7: [IsDefaultIPPoolMode] *)

(** C7: [IsDefaultIPPoolMode(nil)] is true; it is false on a configuration
    with a populated [SingleSubnet] or a non-empty [MultipleSubnets]; it is
    false in the last branch, on a configuration with neither; so it is true
    if and only if its argument is nil. *)
Theorem C7_IsDefaultIPPoolMode_iff_nil :
  IsDefaultIPPoolMode None = true
  /\ (forall c, SingleSubnet c <> None \/ MultipleSubnets c <> [] ->
        IsDefaultIPPoolMode (Some c) = false)
  /\ (forall c, SingleSubnet c = None -> MultipleSubnets c = [] ->
        IsDefaultIPPoolMode (Some c) = false)
  /\ (forall o, IsDefaultIPPoolMode o = true <-> o = None).
Proof.
  assert (Hsome : forall c, IsDefaultIPPoolMode (Some c) = false).
  { intros c. unfold IsDefaultIPPoolMode.
    destruct (negb _); [reflexivity|]. destruct (SingleSubnet c); reflexivity. }
  repeat split; auto.
  - destruct o as [c|]; [rewrite Hsome; discriminate | reflexivity].
  - intros ->. reflexivity.
Qed.

Lemma C7_IsDefaultIPPoolMode_iff_nil_witness :
  IsDefaultIPPoolMode (Some zeroPodSubnetAnnoConfig) = false
  /\ IsDefaultIPPoolMode
       (Some (setSingleSubnet zeroPodSubnetAnnoConfig
                (Some {| Interface := "eth0"; IPv4 := ["subnet-a"%string]; IPv6 := [] |})))
     = false.
Proof.
  split.
  - apply (proj1 (proj2 (proj2 C7_IsDefaultIPPoolMode_iff_nil))); reflexivity.
  - apply (proj1 (proj2 C7_IsDefaultIPPoolMode_iff_nil)). left. discriminate.
Defined.

(** A text with exactly one separator splits around it. *)
Lemma Count_one_split (s : string) (sep : ascii) :
  Strings.Count s sep = 1 ->
  exists pre suf, s = pre +:+ String sep suf
    /\ Strings.Count pre sep = 0 /\ Strings.Count suf sep = 0.
Proof.
  induction s as [|c s IH]; simpl; intros H; [discriminate|].
  destruct (Ascii.eqb_spec c sep) as [->|Hne].
  - exists EmptyString, s. repeat split; simpl; lia.
  - destruct IH as (pre & suf & -> & Hpre & Hsuf); [lia|].
    exists (String c pre), suf. simpl.
    destruct (Ascii.eqb_spec c sep); [contradiction|]. repeat split; lia.
Qed.

Section NegativeCount.

Variable constant : Constant.
Variable env : Collaborators.

(** A count that parses to a negative number stops [GetSubnetAnnoConfig]
    after the decoding of the subnet annotation. *)
Lemma resolveCounts_negative (anno : gmap string string) (s : string)
    (isFlexible : bool) (ipNum : Z) (cfg : PodSubnetAnnoConfig) :
  anno !! AnnoSpiderSubnetPoolIPNumber constant = Some s ->
  GetPoolIPNumber s = (isFlexible, ipNum, None) ->
  ipNum < 0 ->
  resolveCounts constant env anno cfg =
    (None, Some (ErrNegativeIPNumber (AnnoSpiderSubnetPoolIPNumber constant))).
Proof.
  intros Hs Hparse Hneg. unfold resolveCounts. rewrite Hs, Hparse.
  destruct (Z.ltb_spec ipNum 0); [reflexivity | lia].
Qed.

(** [resolveCounts] returns a configuration or an error, never both and
    never neither. *)
Lemma resolveCounts_shape (anno : gmap string string) (cfg : PodSubnetAnnoConfig) :
  (exists e, resolveCounts constant env anno cfg = (None, Some e))
  \/ (exists c, resolveCounts constant env anno cfg = (Some c, None)).
Proof.
  unfold resolveCounts.
  destruct (anno !! AnnoSpiderSubnetPoolIPNumber constant) as [s|].
  - destruct (GetPoolIPNumber s) as [[fl n] [e|]]; [eauto|].
    destruct (n <? 0); [eauto|].
    destruct fl;
      (destruct (ShouldReclaimIPPool constant anno) as [r [e|]]; [eauto|];
       destruct (mutateAndValidateSubnetAnno _ _) as [c [e|]]; eauto).
  - destruct (ShouldReclaimIPPool constant anno) as [r [e|]]; [eauto|].
    destruct (mutateAndValidateSubnetAnno _ _) as [c [e|]]; eauto.
Qed.

Lemma GetSubnetAnnoConfig_shape (anno : gmap string string) :
  GetSubnetAnnoConfig constant env anno = (None, None)
  \/ (exists e, GetSubnetAnnoConfig constant env anno = (None, Some e))
  \/ (exists c, GetSubnetAnnoConfig constant env anno = (Some c, None)).
Proof.
  unfold GetSubnetAnnoConfig.
  destruct (anno !! AnnoSpiderSubnets constant) as [s|].
  - destruct (unmarshalMultipleSubnets env s) as [e|items]; [eauto|].
    right. apply resolveCounts_shape.
  - destruct (anno !! AnnoSpiderSubnet constant) as [s|]; [|auto].
    destruct (unmarshalSingleSubnet env s) as [e|item]; [eauto|].
    right. apply resolveCounts_shape.
Qed.

Lemma GetSubnetAnnoConfig_negative (anno : gmap string string) (s : string)
    (isFlexible : bool) (ipNum : Z) :
  anno !! AnnoSpiderSubnetPoolIPNumber constant = Some s ->
  GetPoolIPNumber s = (isFlexible, ipNum, None) ->
  ipNum < 0 ->
  fst (GetSubnetAnnoConfig constant env anno) = None.
Proof.
  intros Hs Hparse Hneg. unfold GetSubnetAnnoConfig.
  destruct (anno !! AnnoSpiderSubnets constant) as [js|].
  - destruct (unmarshalMultipleSubnets env js); [reflexivity|].
    now rewrite (resolveCounts_negative _ _ _ _ _ Hs Hparse Hneg).
  - destruct (anno !! AnnoSpiderSubnet constant) as [js|]; [|reflexivity].
    destruct (unmarshalSingleSubnet env js); [reflexivity|].
    now rewrite (resolveCounts_negative _ _ _ _ _ Hs Hparse Hneg).
Qed.

(** After the selection of the subnets, [GetSubnetAnnoConfig] is
    [resolveCounts] on the zero configuration with the decoded subnets. *)
Lemma GetSubnetAnnoConfig_selected (anno : gmap string string)
    (multiple : list AnnoSubnetItem) (single : option AnnoSubnetItem) :
  selectedSubnets constant env anno multiple single ->
  GetSubnetAnnoConfig constant env anno
  = resolveCounts constant env anno
      {| MultipleSubnets := multiple; SingleSubnet := single; FlexibleIPNum := None;
         AssignIPNum := 0; ReclaimIPPool := false |}.
Proof.
  unfold GetSubnetAnnoConfig.
  intros [(subnets & -> & -> & ->)|(subnet & -> & -> & -> & ->)]; reflexivity.
Qed.

(** A count annotation that does not parse stops the resolution with the
    error of [GetPoolIPNumber]. *)
Lemma resolveCounts_count_error (anno : gmap string string) (s : string)
    (isFlexible : bool) (ipNum : Z) (e : error) (cfg : PodSubnetAnnoConfig) :
  anno !! AnnoSpiderSubnetPoolIPNumber constant = Some s ->
  GetPoolIPNumber s = (isFlexible, ipNum, Some e) ->
  resolveCounts constant env anno cfg = (None, Some e).
Proof.
  intros Hs Hparse. unfold resolveCounts. now rewrite Hs, Hparse.
Qed.

(** With a parsed count, [resolveCounts] reads the reclaim policy and
    validates the assembled configuration. *)
Lemma resolveCounts_parsed (anno : gmap string string)
    (multiple : list AnnoSubnetItem) (single : option AnnoSubnetItem)
    (count : option (bool * Z)) :
  parsedCount constant anno count ->
  resolveCounts constant env anno
    {| MultipleSubnets := multiple; SingleSubnet := single; FlexibleIPNum := None;
       AssignIPNum := 0; ReclaimIPPool := false |}
  = match ShouldReclaimIPPool constant anno with
    | (_, Some e) => (None, Some e)
    | (reclaimPool, None) =>
        match mutateAndValidateSubnetAnno (ClusterDefaultInterfaceName constant)
                (configBeforeValidation env multiple single count reclaimPool) with
        | (_, Some e) => (None, Some e)
        | (c, None) => (Some c, None)
        end
    end.
Proof.
  unfold resolveCounts, configBeforeValidation.
  intros [[-> ->]|(poolIPNum & isFlexible & ipNum & -> & -> & Hn & ->)].
  - destruct (ShouldReclaimIPPool constant anno) as [r [e|]]; [reflexivity|].
    cbn [MultipleSubnets SingleSubnet FlexibleIPNum AssignIPNum ReclaimIPPool].
    destruct (mutateAndValidateSubnetAnno _ _) as [c [e|]]; reflexivity.
  - destruct (Z.ltb_spec ipNum 0); [lia|].
    destruct isFlexible;
      (destruct (ShouldReclaimIPPool constant anno) as [r [e|]]; [reflexivity|];
       cbn [MultipleSubnets SingleSubnet FlexibleIPNum AssignIPNum ReclaimIPPool];
       destruct (mutateAndValidateSubnetAnno _ _) as [c [e|]]; reflexivity).
Qed.

End NegativeCount.

(** C10: on a text with exactly one [+], [GetPoolIPNumber] parses only what
    follows the [+]: the flag is true and the number is the one [Atoi] reads
    there, or the call fails when [Atoi] fails there; what precedes the [+]
    changes neither the flag, nor the number, nor whether there is an error.
    So ["abc+7"] and ["5+7"] give [(true, 7, nil)] and ["7+"] gives an
    error.  ["-5"] gives [(false, -5, nil)]: the negative count is refused
    by the caller, where [GetSubnetAnnoConfig], once the subnet annotation is
    selected and decoded, returns no configuration and the error about the
    negative value. *)
Theorem C10_GetPoolIPNumber_reads_after_plus :
  (forall str, Strings.Count str "+" = 1 ->
     exists pre suf, str = pre +:+ String "+" suf
       /\ GetPoolIPNumber str =
            match Strconv.Atoi suf with
            | (ipNum, None) => (true, ipNum, None)
            | (_, Some e) => (false, -1, Some (ErrWrap (ErrInvalidInput str) e))
            end)
  /\ (forall pre pre' suf,
        Strings.Count pre "+" = 0 -> Strings.Count pre' "+" = 0 ->
        Strings.Count suf "+" = 0 ->
        fst (GetPoolIPNumber (pre +:+ String "+" suf))
          = fst (GetPoolIPNumber (pre' +:+ String "+" suf))
        /\ (snd (GetPoolIPNumber (pre +:+ String "+" suf)) = None
            <-> snd (GetPoolIPNumber (pre' +:+ String "+" suf)) = None))
  /\ GetPoolIPNumber "abc+7" = (true, 7, None)
  /\ GetPoolIPNumber "5+7" = (true, 7, None)
  /\ (exists e, GetPoolIPNumber "7+" = (false, -1, Some e))
  /\ GetPoolIPNumber "-5" = (false, -5, None)
  /\ (forall constant env (anno : gmap string string) s isFlexible ipNum,
        anno !! AnnoSpiderSubnetPoolIPNumber constant = Some s ->
        GetPoolIPNumber s = (isFlexible, ipNum, None) ->
        ipNum < 0 ->
        fst (GetSubnetAnnoConfig constant env anno) = None
        /\ (forall cfg, resolveCounts constant env anno cfg =
              (None, Some (ErrNegativeIPNumber (AnnoSpiderSubnetPoolIPNumber constant))))
        /\ (forall multiple single,
              selectedSubnets constant env anno multiple single ->
              GetSubnetAnnoConfig constant env anno =
                (None, Some (ErrNegativeIPNumber (AnnoSpiderSubnetPoolIPNumber constant))))).
Proof.
  split; [|split; [|split; [|split; [|split; [|split]]]]]; try reflexivity.
  - intros str H. destruct (Count_one_split _ _ H) as (pre & suf & -> & Hpre & Hsuf).
    exists pre, suf. split; [reflexivity|]. now apply GetPoolIPNumber_cut.
  - intros pre pre' suf Hpre Hpre' Hsuf.
    rewrite !GetPoolIPNumber_cut by assumption.
    destruct (Strconv.Atoi suf) as [n [e|]]; simpl; split; try reflexivity;
      split; intros; (discriminate || reflexivity).
  - eexists; reflexivity.
  - intros constant env anno s isFlexible ipNum Hs Hparse Hneg. split; [|split].
    + eapply GetSubnetAnnoConfig_negative; eassumption.
    + intros cfg. eapply resolveCounts_negative; eassumption.
    + intros multiple single Hsel.
      rewrite (GetSubnetAnnoConfig_selected constant env anno multiple single Hsel).
      eapply resolveCounts_negative; eassumption.
Qed.

Lemma C10_GetPoolIPNumber_reads_after_plus_witness :
  (exists pre suf, "eth+12"%string = pre +:+ String "+" suf
     /\ GetPoolIPNumber "eth+12" =
          match Strconv.Atoi suf with
          | (ipNum, None) => (true, ipNum, None)
          | (_, Some e) => (false, -1, Some (ErrWrap (ErrInvalidInput "eth+12") e))
          end)
  /\ GetSubnetAnnoConfig upstreamConstant
       (mkCollaborators (fun _ => inr [])
          (fun _ => inr (Some {| Interface := "eth0"; IPv4 := ["subnet-a"%string];
                                 IPv6 := [] |}))
          0)
       {[ "ipam.spidernet.io/subnet"%string := "{...}"%string;
          "ipam.spidernet.io/ippool-ip-number"%string := "-5"%string ]}
     = (None, Some (ErrNegativeIPNumber "ipam.spidernet.io/ippool-ip-number")).
Proof.
  destruct C10_GetPoolIPNumber_reads_after_plus as (H1 & _ & _ & _ & _ & _ & H7).
  split.
  - apply H1. reflexivity.
  - refine (proj2 (proj2 (H7 upstreamConstant _ _ "-5"%string false (-5) _ _ _)) [] _ _).
    + reflexivity.
    + reflexivity.
    + lia.
    + right. exists "{...}"%string. repeat split; reflexivity.
Defined.

(** ** C3: [SubnetPoolName] *)

(** C3 (as stated, refuted): two UIDs that differ before their last piece
    give the same pool name. *)
Lemma C3_counterexample_same_tail :
  "0f0a8f5c-6a3c-4a55-9d2e-3b1c5e7a9f01"%string
    <> "7c2d41b9-0e4f-4d8a-8b6a-3b1c5e7a9f01"%string
  /\ SubnetPoolName "Deployment" "default" "web" 4 "eth0"
       "0f0a8f5c-6a3c-4a55-9d2e-3b1c5e7a9f01"
     = SubnetPoolName "Deployment" "default" "web" 4 "eth0"
         "7c2d41b9-0e4f-4d8a-8b6a-3b1c5e7a9f01".
Proof. split; [discriminate | reflexivity]. Qed.

(** C3 (amended): on ASCII inputs [SubnetPoolName] is deterministic, and two
    inputs with the same kind, namespace, name, IP version and interface get
    different names exactly when the lowered last pieces of their UIDs
    (split on ["-"]) differ. *)
Theorem C3_SubnetPoolName_tail_injective
    (kind ns name : string) (ipVersion : Z) (ifName uid1 uid2 : string) :
  Strings.is_ascii kind = true -> Strings.is_ascii ns = true ->
  Strings.is_ascii name = true ->
  Strings.is_ascii uid1 = true -> Strings.is_ascii uid2 = true ->
  (forall kind' ns' name' ipVersion' ifName' uid',
      kind = kind' -> ns = ns' -> name = name' -> ipVersion = ipVersion' ->
      ifName = ifName' -> uid1 = uid' ->
      SubnetPoolName kind ns name ipVersion ifName uid1
        = SubnetPoolName kind' ns' name' ipVersion' ifName' uid')
  /\ (SubnetPoolName kind ns name ipVersion ifName uid1
        <> SubnetPoolName kind ns name ipVersion ifName uid2
      <-> uidTail uid1 <> uidTail uid2).
Proof.
  intros _ _ _ _ _. split.
  - intros; subst; reflexivity.
  - unfold SubnetPoolName, uidTail. split; intros H Heq; apply H.
    + now rewrite Heq.
    + repeat (apply append_inv_head in Heq). exact Heq.
Qed.

Lemma C3_SubnetPoolName_tail_injective_witness :
  SubnetPoolName "Deployment" "default" "web" 4 "eth0"
    "0f0a8f5c-6a3c-4a55-9d2e-3b1c5e7a9f01"
  <> SubnetPoolName "Deployment" "default" "web" 4 "eth0"
       "0f0a8f5c-6a3c-4a55-9d2e-3b1c5e7a9f02".
Proof.
  apply (C3_SubnetPoolName_tail_injective "Deployment" "default" "web" 4 "eth0"
           "0f0a8f5c-6a3c-4a55-9d2e-3b1c5e7a9f01"
           "0f0a8f5c-6a3c-4a55-9d2e-3b1c5e7a9f02");
    try reflexivity.
  vm_compute. discriminate.
Defined.

(** ** The order of [sort.Strings] *)

Lemma ascii_compare_lt_trans (a b c : ascii) :
  Ascii.compare a b = Lt -> Ascii.compare b c = Lt -> Ascii.compare a c = Lt.
Proof.
  unfold Ascii.compare. rewrite !N.compare_lt_iff. lia.
Qed.

Lemma string_compare_lt_trans (s1 s2 s3 : string) :
  String.compare s1 s2 = Lt -> String.compare s2 s3 = Lt -> String.compare s1 s3 = Lt.
Proof.
  revert s2 s3. induction s1 as [|a s1 IH]; intros [|b s2] [|c s3]; simpl;
    try discriminate; try reflexivity.
  destruct (Ascii.compare a b) eqn:Hab; try discriminate;
    destruct (Ascii.compare b c) eqn:Hbc; try discriminate; intros H1 H2.
  - apply Ascii.compare_eq_iff in Hab, Hbc. subst.
    replace (Ascii.compare c c) with Eq
      by (symmetry; unfold Ascii.compare; apply N.compare_refl).
    eauto.
  - apply Ascii.compare_eq_iff in Hab. subst. now rewrite Hbc.
  - apply Ascii.compare_eq_iff in Hbc. subst. now rewrite Hab.
  - now rewrite (ascii_compare_lt_trans _ _ _ Hab Hbc).
Qed.

Lemma string_compare_refl (s : string) : String.compare s s = Eq.
Proof.
  induction s as [|a s IH]; simpl; [reflexivity|].
  unfold Ascii.compare. now rewrite N.compare_refl.
Qed.

Lemma leb_ne_strictly_below (x y : string) :
  String.leb x y = true -> x <> y -> strictly_below x y.
Proof.
  unfold String.leb, strictly_below. intros H Hne.
  destruct (String.compare x y) eqn:Hc; [|reflexivity|discriminate].
  apply String.compare_eq_iff in Hc. contradiction.
Qed.

Lemma leb_false_leb (x y : string) : String.leb x y = false -> String.leb y x = true.
Proof.
  intros H. destruct (String.leb_total x y) as [H'|H']; congruence.
Qed.

Lemma Sort_insert_perm (x : string) (l : list string) : Sort.insert x l ≡ₚ x :: l.
Proof.
  induction l as [|y l IH]; simpl; [reflexivity|].
  destruct (String.leb x y); [reflexivity|].
  rewrite IH. apply perm_swap.
Qed.

Lemma Sort_Strings_perm (l : list string) : Sort.Strings l ≡ₚ l.
Proof.
  induction l as [|x l IH]; simpl; [reflexivity|].
  now rewrite Sort_insert_perm, IH.
Qed.

Lemma Sort_insert_ascending (x : string) (l : list string) :
  ascending l -> ascending (Sort.insert x l).
Proof.
  induction l as [|y l IH]; simpl; [auto|]. intros Hl.
  destruct (String.leb x y) eqn:Hxy.
  - simpl. auto.
  - apply leb_false_leb in Hxy. destruct l as [|z l]; simpl in *.
    + auto.
    + destruct Hl as [Hyz Hl]. specialize (IH Hl).
      destruct (String.leb x z); simpl in *; tauto.
Qed.

Lemma Sort_Strings_ascending (l : list string) : ascending (Sort.Strings l).
Proof.
  induction l as [|x l IH]; simpl; [exact I|].
  now apply Sort_insert_ascending.
Qed.

Lemma adjacentEqual_true_dup (l : list string) : adjacentEqual l = true -> ~ NoDup l.
Proof.
  induction l as [|x [|y l] IH]; simpl; try discriminate.
  destruct (String.eqb_spec y x) as [->|Hne]; intros H Hnd.
  - apply NoDup_cons in Hnd as [Hin _]. apply Hin. left.
  - apply NoDup_cons in Hnd as [_ Hnd]. now apply IH.
Qed.

Lemma ascending_no_adjacent_below (x : string) (l : list string) :
  ascending (x :: l) -> adjacentEqual (x :: l) = false ->
  forall y, y ∈ l -> strictly_below x y.
Proof.
  revert x. induction l as [|z l IH]; intros x Hasc Hadj y Hy.
  - inversion Hy.
  - simpl in Hasc, Hadj. destruct Hasc as [Hxz Hasc].
    destruct (String.eqb_spec z x) as [->|Hne]; [discriminate|].
    assert (Hlt : strictly_below x z) by (apply leb_ne_strictly_below; auto).
    apply elem_of_cons in Hy as [->|Hy]; [exact Hlt|].
    eapply string_compare_lt_trans; [exact Hlt|]. now apply IH.
Qed.

Lemma ascending_no_adjacent_NoDup (l : list string) :
  ascending l -> adjacentEqual l = false -> NoDup l.
Proof.
  induction l as [|x l IH]; intros Hasc Hadj; [constructor|].
  apply NoDup_cons. split.
  - intros Hin. pose proof (ascending_no_adjacent_below x l Hasc Hadj x Hin) as Hlt.
    unfold strictly_below in Hlt. rewrite string_compare_refl in Hlt. discriminate.
  - apply IH.
    + destruct l as [|y l]; simpl in *; tauto.
    + destruct l as [|y l]; [reflexivity|]. simpl in Hadj |- *.
      destruct (String.eqb y x); [discriminate | exact Hadj].
Qed.

(** [containsDuplicate] holds exactly of the arrays with two equal
    elements. *)
Lemma containsDuplicate_spec (arr : list string) :
  containsDuplicate arr = true <-> ~ NoDup arr.
Proof.
  unfold containsDuplicate. split.
  - intros H Hnd. apply (adjacentEqual_true_dup _ H).
    now rewrite Sort_Strings_perm.
  - intros Hdup. destruct (adjacentEqual (Sort.Strings arr)) eqn:Hadj; [reflexivity|].
    exfalso. apply Hdup. rewrite <- Sort_Strings_perm.
    apply ascending_no_adjacent_NoDup; [apply Sort_Strings_ascending | exact Hadj].
Qed.

(** ** C6: duplicates among the entries of [MultipleSubnets] *)

(** The arrays that the loop of [mutateAndValidateSubnetAnno] has collected
    when it ends without an error: the first subnets and the interface names
    of the entries, in order. *)
Lemma mutateMultipleLoop_arrays (items : list AnnoSubnetItem) :
  forall v4 v6 ifs items' v4' v6' ifs',
    mutateMultipleLoop items v4 v6 ifs = (items', v4', v6', ifs', None) ->
    v4' = v4 ++ omap (fun it => head (IPv4 it)) items
    /\ v6' = v6 ++ omap (fun it => head (IPv6 it)) items
    /\ ifs' = ifs ++ (Interface <$> items).
Proof.
  induction items as [|it items IH]; intros v4 v6 ifs items' v4' v6' ifs'; simpl.
  - intros [= <- <- <- <-]. now rewrite !app_nil_r.
  - unfold mutateMultipleItem.
    destruct it as [ifn [|x4 l4] [|x6 l6]]; cbn [IPv4 IPv6 Interface head];
      repeat match goal with
        | |- context [String.eqb ?a ""] =>
            destruct (String.eqb a ""); cbn [IPv4 IPv6 Interface length Nat.eqb andb];
            try discriminate
        end;
      cbn [IPv4 IPv6 Interface length Nat.eqb andb]; try discriminate;
      (destruct (mutateMultipleLoop items _ _ _) as [[[[r a4] a6] ai] e] eqn:Hrec;
       intros [= <- <- <- <- ->]; apply IH in Hrec as (-> & -> & ->);
       rewrite <- !app_assoc; auto).
Qed.

Lemma mutateMultipleLoop_length (items : list AnnoSubnetItem) :
  forall v4 v6 ifs items' v4' v6' ifs' err,
    mutateMultipleLoop items v4 v6 ifs = (items', v4', v6', ifs', err) ->
    length items' = length items.
Proof.
  induction items as [|it items IH]; intros v4 v6 ifs items' v4' v6' ifs' err; simpl.
  - intros [= <- _ _ _ _]. reflexivity.
  - destruct (mutateMultipleItem it v4 v6 ifs) as [[[[it' a4] a6] ai] [e|]].
    + intros [= <- _ _ _ _]. reflexivity.
    + destruct (mutateMultipleLoop items a4 a6 ai) as [[[[r b4] b6] bi] e] eqn:Hrec.
      intros [= <- _ _ _ _]. simpl. f_equal. eapply IH; eauto.
Qed.

Lemma omap_dup {A B} (f : A -> option B) (l : list A) (i j : nat) (a b : A) (v : B) :
  i <> j -> l !! i = Some a -> l !! j = Some b -> f a = Some v -> f b = Some v ->
  ~ NoDup (omap f l).
Proof.
  revert i j. induction l as [|x l IH]; intros i j Hij Hi Hj Ha Hb Hnd.
  - destruct i; discriminate.
  - assert (Hmem : forall k c, l !! k = Some c -> f c = Some v -> v ∈ omap f l).
    { intros k c Hk Hc. apply list_elem_of_omap. exists c. split; [|exact Hc].
      eapply list_elem_of_lookup_2; eauto. }
    destruct i as [|i], j as [|j]; simpl in Hi, Hj; [congruence| | |].
    + injection Hi as ->. cbn [omap list_omap] in Hnd. rewrite Ha in Hnd.
      apply NoDup_cons in Hnd as [Hin _]. eauto.
    + injection Hj as ->. cbn [omap list_omap] in Hnd. rewrite Hb in Hnd.
      apply NoDup_cons in Hnd as [Hin _]. eauto.
    + cbn [omap list_omap] in Hnd.
      assert (Hnd' : NoDup (omap f l)).
      { destruct (f x); [apply NoDup_cons in Hnd; tauto | exact Hnd]. }
      apply (IH i j); auto.
Qed.

Lemma fmap_dup {A B} (f : A -> B) (l : list A) (i j : nat) (a b : A) :
  i <> j -> l !! i = Some a -> l !! j = Some b -> f a = f b -> ~ NoDup (f <$> l).
Proof.
  intros Hij Hi Hj Hab Hnd. apply Hij.
  apply (NoDup_lookup _ i j (f a) Hnd); rewrite list_lookup_fmap.
  - now rewrite Hi.
  - rewrite Hj. simpl. now rewrite Hab.
Qed.

(** Duplicated entries make [mutateAndValidateSubnetAnno] fail. *)
Lemma mutateAndValidateSubnetAnno_duplicates (defaultIf : string)
    (cfg : PodSubnetAnnoConfig) :
  duplicatedEntries (MultipleSubnets cfg) ->
  exists e, snd (mutateAndValidateSubnetAnno defaultIf cfg) = Some e.
Proof.
  intros (i & j & a & b & Hij & Hi & Hj & Hdup).
  unfold mutateAndValidateSubnetAnno.
  destruct (MultipleSubnets cfg) as [|it0 items0] eqn:Hitems; [destruct i; discriminate|].
  rewrite <- Hitems. replace (negb (length (MultipleSubnets cfg) =? 0)%nat) with true
    by (rewrite Hitems; reflexivity).
  destruct (mutateMultipleLoop (MultipleSubnets cfg) [] [] [])
    as [[[[items' v4] v6] ifs] [e|]] eqn:Hloop; [simpl; eauto|].
  apply mutateMultipleLoop_arrays in Hloop as (-> & -> & ->). simpl app.
  rewrite Hitems.
  destruct Hdup as [(v & Ha & Hb)|[(v & Ha & Hb)|Hab]].
  - rewrite (proj2 (containsDuplicate_spec _)
               (omap_dup _ _ i j a b v Hij Hi Hj Ha Hb)). simpl; eauto.
  - rewrite (proj2 (containsDuplicate_spec (omap (fun it => head (IPv6 it)) _))
               (omap_dup _ _ i j a b v Hij Hi Hj Ha Hb)).
    rewrite orb_true_r. simpl; eauto.
  - rewrite (proj2 (containsDuplicate_spec _)
               (fmap_dup Interface _ i j a b Hij Hi Hj Hab)).
    destruct (_ || _); simpl; eauto.
Qed.

Section ResolverFacts.

Variable constant : Constant.
Variable env : Collaborators.

(** A configuration returned by [resolveCounts] has passed
    [mutateAndValidateSubnetAnno], which was given the subnets it
    received. *)
Lemma resolveCounts_success (anno : gmap string string)
    (cfg c : PodSubnetAnnoConfig) (err : option error) :
  resolveCounts constant env anno cfg = (Some c, err) ->
  exists cfg',
    MultipleSubnets cfg' = MultipleSubnets cfg
    /\ SingleSubnet cfg' = SingleSubnet cfg
    /\ mutateAndValidateSubnetAnno (ClusterDefaultInterfaceName constant) cfg' = (c, None).
Proof.
  unfold resolveCounts.
  destruct (anno !! AnnoSpiderSubnetPoolIPNumber constant) as [s|].
  - destruct (GetPoolIPNumber s) as [[fl n] [e|]]; [discriminate|].
    destruct (n <? 0); [discriminate|].
    destruct fl;
      (destruct (ShouldReclaimIPPool constant anno) as [r [e|]]; [discriminate|];
       match goal with
       | |- context [mutateAndValidateSubnetAnno ?d ?x] =>
           destruct (mutateAndValidateSubnetAnno d x) as [c' [e|]] eqn:Hm;
           [discriminate|]; intros [= <- <-]; exists x; auto
       end).
  - destruct (ShouldReclaimIPPool constant anno) as [r [e|]]; [discriminate|].
    match goal with
    | |- context [mutateAndValidateSubnetAnno ?d ?x] =>
        destruct (mutateAndValidateSubnetAnno d x) as [c' [e|]] eqn:Hm;
        [discriminate|]; intros [= <- <-]; exists x; auto
    end.
Qed.

(** [resolveCounts] reads the annotations at two keys only. *)
Lemma resolveCounts_ext (anno1 anno2 : gmap string string) (cfg : PodSubnetAnnoConfig) :
  anno1 !! AnnoSpiderSubnetPoolIPNumber constant
    = anno2 !! AnnoSpiderSubnetPoolIPNumber constant ->
  anno1 !! AnnoSpiderSubnetReclaimIPPool constant
    = anno2 !! AnnoSpiderSubnetReclaimIPPool constant ->
  resolveCounts constant env anno1 cfg = resolveCounts constant env anno2 cfg.
Proof.
  intros H1 H2. unfold resolveCounts, ShouldReclaimIPPool. now rewrite H1, H2.
Qed.

Lemma resolveCounts_duplicates (anno : gmap string string) (cfg : PodSubnetAnnoConfig) :
  duplicatedEntries (MultipleSubnets cfg) ->
  exists e, resolveCounts constant env anno cfg = (None, Some e).
Proof.
  intros Hdup.
  destruct (resolveCounts_shape constant env anno cfg) as [He|[c Hc]]; [exact He|].
  destruct (resolveCounts_success _ _ _ _ Hc) as (cfg' & Hm & _ & Hok).
  rewrite <- Hm in Hdup.
  destruct (mutateAndValidateSubnetAnno_duplicates
              (ClusterDefaultInterfaceName constant) cfg' Hdup) as [e He].
  rewrite Hok in He. discriminate.
Qed.

(** With no single subnet to begin with, a validated configuration has
    none, and it has as many entries as the non-empty [MultipleSubnets] it
    comes from. *)
Lemma mutateAndValidateSubnetAnno_multiple (defaultIf : string)
    (cfg c : PodSubnetAnnoConfig) :
  SingleSubnet cfg = None ->
  mutateAndValidateSubnetAnno defaultIf cfg = (c, None) ->
  SingleSubnet c = None /\ MultipleSubnets c <> []
  /\ length (MultipleSubnets c) = length (MultipleSubnets cfg).
Proof.
  intros Hs. unfold mutateAndValidateSubnetAnno.
  destruct (MultipleSubnets cfg) as [|it items] eqn:Hitems.
  - simpl. rewrite Hs. discriminate.
  - cbn [length Nat.eqb negb].
    destruct (mutateMultipleLoop _ _ _ _) as [[[[items' v4] v6] ifs] [e|]] eqn:Hloop;
      [discriminate|].
    apply mutateMultipleLoop_length in Hloop.
    destruct (_ || _); [discriminate|].
    destruct (containsDuplicate ifs); [discriminate|].
    intros [= <-]. simpl in *. repeat split; auto.
    destruct items'; [discriminate | congruence].
Qed.

End ResolverFacts.

(** C6: whenever the subnets annotation decodes to a list with two entries
    that share their first IPv4 subnet, their first IPv6 subnet or their
    interface name, [GetSubnetAnnoConfig] returns an error and no
    configuration, and so does [mutateAndValidateSubnetAnno] on a
    configuration with such a list; the test for duplicates holds exactly of
    the arrays with two equal byte strings, so that names that differ in
    case only are not duplicates. *)
Theorem C6_duplicated_entries_rejected :
  (forall constant env (anno : gmap string string) subnets items,
      anno !! AnnoSpiderSubnets constant = Some subnets ->
      unmarshalMultipleSubnets env subnets = inr items ->
      duplicatedEntries items ->
      exists e, GetSubnetAnnoConfig constant env anno = (None, Some e))
  /\ (forall defaultIf cfg,
        duplicatedEntries (MultipleSubnets cfg) ->
        exists e, snd (mutateAndValidateSubnetAnno defaultIf cfg) = Some e)
  /\ (forall arr, containsDuplicate arr = true <-> ~ NoDup arr)
  /\ containsDuplicate ["eth0"; "ETH0"]%string = false.
Proof.
  split; [|split; [|split]].
  - intros constant env anno subnets items Hs Hdec Hdup.
    unfold GetSubnetAnnoConfig. rewrite Hs, Hdec.
    now apply resolveCounts_duplicates.
  - apply mutateAndValidateSubnetAnno_duplicates.
  - apply containsDuplicate_spec.
  - reflexivity.
Qed.

(** C9: [GetSubnetAnnoConfig] returns [(nil, nil)] exactly when neither
    subnet annotation is in the map; when the subnets annotation is there, a
    returned configuration has entries in [MultipleSubnets] and no
    [SingleSubnet], and the result is what it would be without the subnet
    annotation, whatever its value and whatever the decoder makes of it; a
    result with an error has no configuration.  Every failure gives the nil
    configuration and an error: a subnet annotation that does not decode, a
    count that does not parse or is negative, a reclaim policy that does not
    parse, a validation that fails; and when none of them fails the
    validated configuration is returned with a nil error. *)
Theorem C9_GetSubnetAnnoConfig_contract
    (constant : Constant) (env : Collaborators) (anno : gmap string string) :
  (GetSubnetAnnoConfig constant env anno = (None, None)
   <-> anno !! AnnoSpiderSubnets constant = None
       /\ anno !! AnnoSpiderSubnet constant = None)
  /\ (forall subnets, anno !! AnnoSpiderSubnets constant = Some subnets ->
        (forall c err, GetSubnetAnnoConfig constant env anno = (Some c, err) ->
           SingleSubnet c = None /\ MultipleSubnets c <> [])
        /\ (forall decodeSingle,
              GetSubnetAnnoConfig constant
                (mkCollaborators (unmarshalMultipleSubnets env) decodeSingle
                   (ClusterSubnetDefaultFlexibleIPNumber env)) anno
              = GetSubnetAnnoConfig constant env anno)
        /\ (forall subnet,
              AnnoSpiderSubnet constant <> AnnoSpiderSubnets constant ->
              AnnoSpiderSubnet constant <> AnnoSpiderSubnetPoolIPNumber constant ->
              AnnoSpiderSubnet constant <> AnnoSpiderSubnetReclaimIPPool constant ->
              GetSubnetAnnoConfig constant env (<[AnnoSpiderSubnet constant := subnet]> anno)
              = GetSubnetAnnoConfig constant env (delete (AnnoSpiderSubnet constant) anno)))
  /\ (snd (GetSubnetAnnoConfig constant env anno) <> None ->
        fst (GetSubnetAnnoConfig constant env anno) = None)
  /\ (forall subnets e,
        anno !! AnnoSpiderSubnets constant = Some subnets ->
        unmarshalMultipleSubnets env subnets = inl e ->
        GetSubnetAnnoConfig constant env anno
          = (None, Some (ErrParseAnnotation (AnnoSpiderSubnets constant) subnets e)))
  /\ (forall subnet e,
        anno !! AnnoSpiderSubnets constant = None ->
        anno !! AnnoSpiderSubnet constant = Some subnet ->
        unmarshalSingleSubnet env subnet = inl e ->
        GetSubnetAnnoConfig constant env anno
          = (None, Some (ErrParseAnnotation (AnnoSpiderSubnet constant) subnet e)))
  /\ (forall multiple single,
        selectedSubnets constant env anno multiple single ->
        (forall poolIPNum isFlexible ipNum e,
           anno !! AnnoSpiderSubnetPoolIPNumber constant = Some poolIPNum ->
           GetPoolIPNumber poolIPNum = (isFlexible, ipNum, Some e) ->
           GetSubnetAnnoConfig constant env anno = (None, Some e))
        /\ (forall poolIPNum isFlexible ipNum,
              anno !! AnnoSpiderSubnetPoolIPNumber constant = Some poolIPNum ->
              GetPoolIPNumber poolIPNum = (isFlexible, ipNum, None) ->
              ipNum < 0 ->
              GetSubnetAnnoConfig constant env anno
                = (None, Some (ErrNegativeIPNumber (AnnoSpiderSubnetPoolIPNumber constant))))
        /\ (forall count,
              parsedCount constant anno count ->
              (forall reclaimPool parsed e,
                 anno !! AnnoSpiderSubnetReclaimIPPool constant = Some reclaimPool ->
                 Strconv.ParseBool reclaimPool = (parsed, Some e) ->
                 GetSubnetAnnoConfig constant env anno
                   = (None, Some (ErrParseReclaim (AnnoSpiderSubnetReclaimIPPool constant) e)))
              /\ (forall reclaimPool,
                    ShouldReclaimIPPool constant anno = (reclaimPool, None) ->
                    (forall c e,
                       mutateAndValidateSubnetAnno (ClusterDefaultInterfaceName constant)
                         (configBeforeValidation env multiple single count reclaimPool)
                       = (c, Some e) ->
                       GetSubnetAnnoConfig constant env anno = (None, Some e))
                    /\ (forall c,
                          mutateAndValidateSubnetAnno (ClusterDefaultInterfaceName constant)
                            (configBeforeValidation env multiple single count reclaimPool)
                          = (c, None) ->
                          GetSubnetAnnoConfig constant env anno = (Some c, None))))).
Proof.
  split; [|split; [|split; [|split; [|split]]]].
  - unfold GetSubnetAnnoConfig. split.
    + destruct (anno !! AnnoSpiderSubnets constant) as [s|].
      * destruct (unmarshalMultipleSubnets env s) as [e|items]; [discriminate|].
        destruct (resolveCounts_shape constant env anno
                    (setMultipleSubnets zeroPodSubnetAnnoConfig items))
          as [[e ->]|[c ->]]; discriminate.
      * destruct (anno !! AnnoSpiderSubnet constant) as [s|]; [|auto].
        destruct (unmarshalSingleSubnet env s) as [e|item]; [discriminate|].
        destruct (resolveCounts_shape constant env anno
                    (setSingleSubnet zeroPodSubnetAnnoConfig item))
          as [[e ->]|[c ->]]; discriminate.
    + intros [-> ->]. reflexivity.
  - intros subnets Hs. split; [|split].
    + intros c err. unfold GetSubnetAnnoConfig. rewrite Hs.
      destruct (unmarshalMultipleSubnets env subnets) as [e|items]; [discriminate|].
      intros Hr. apply resolveCounts_success in Hr as (cfg' & Hm & Hsingle & Hok).
      apply mutateAndValidateSubnetAnno_multiple in Hok as (Hnone & Hne & _);
        [auto | exact Hsingle].
    + intros decodeSingle. unfold GetSubnetAnnoConfig. rewrite Hs. simpl.
      destruct (unmarshalMultipleSubnets env subnets); reflexivity.
    + intros subnet Hn1 Hn2 Hn3. unfold GetSubnetAnnoConfig.
      rewrite lookup_insert_ne, lookup_delete_ne, Hs by auto.
      destruct (unmarshalMultipleSubnets env subnets); [reflexivity|].
      apply resolveCounts_ext;
        now rewrite lookup_insert_ne, lookup_delete_ne by auto.
  - destruct (GetSubnetAnnoConfig_shape constant env anno) as [->|[[e ->]|[c ->]]];
      simpl; congruence.
  - intros subnets e Hs Hdec. unfold GetSubnetAnnoConfig. now rewrite Hs, Hdec.
  - intros subnet e Hs0 Hs Hdec. unfold GetSubnetAnnoConfig. now rewrite Hs0, Hs, Hdec.
  - intros multiple single Hsel.
    rewrite (GetSubnetAnnoConfig_selected constant env anno multiple single Hsel).
    split; [|split].
    + intros poolIPNum isFlexible ipNum e Hp Hparse.
      eapply resolveCounts_count_error; eassumption.
    + intros poolIPNum isFlexible ipNum Hp Hparse Hneg.
      eapply resolveCounts_negative; eassumption.
    + intros count Hcount. rewrite (resolveCounts_parsed constant env anno _ _ _ Hcount).
      split.
      * intros reclaimPool parsed e Hr Hbool. unfold ShouldReclaimIPPool.
        now rewrite Hr, Hbool.
      * intros reclaimPool ->. split.
        -- intros c e ->. reflexivity.
        -- intros c ->. reflexivity.
Qed.

Lemma C6_duplicated_entries_rejected_witness :
  exists e,
    GetSubnetAnnoConfig upstreamConstant
      (mkCollaborators
         (fun _ => inr [ {| Interface := "eth0"; IPv4 := ["subnet-a"%string]; IPv6 := [] |};
                         {| Interface := "net1"; IPv4 := ["subnet-a"%string; "subnet-b"%string];
                            IPv6 := [] |} ])
         (fun _ => inr None) 0)
      {[ "ipam.spidernet.io/subnets"%string := "[...]"%string ]}
    = (None, Some e).
Proof.
  eapply (proj1 C6_duplicated_entries_rejected).
  - reflexivity.
  - reflexivity.
  - exists 0%nat, 1%nat. do 2 eexists.
    split; [lia|]. split; [reflexivity|]. split; [reflexivity|].
    left. exists "subnet-a"%string. split; reflexivity.
Defined.

Lemma C9_GetSubnetAnnoConfig_contract_witness :
  GetSubnetAnnoConfig upstreamConstant
    (mkCollaborators (fun _ => inr []) (fun _ => inr None) 0)
    {[ "ipam.spidernet.io/ippool-ip-number"%string := "+2"%string ]}
  = (None, None)
  /\ GetSubnetAnnoConfig upstreamConstant
       (mkCollaborators
          (fun _ => inr [ {| Interface := "eth0"; IPv4 := ["subnet-a"; "subnet-x"]%string;
                             IPv6 := [] |} ])
          (fun _ => inr (Some {| Interface := ""; IPv4 := ["subnet-b"%string]; IPv6 := [] |}))
          0)
       {[ "ipam.spidernet.io/subnets"%string := "[...]"%string;
          "ipam.spidernet.io/subnet"%string := "{...}"%string;
          "ipam.spidernet.io/ippool-ip-number"%string := "+2"%string ]}
     = (Some {| MultipleSubnets :=
                  [ {| Interface := "eth0"; IPv4 := ["subnet-a"%string]; IPv6 := [] |} ];
                SingleSubnet := None; FlexibleIPNum := Some 2; AssignIPNum := 0;
                ReclaimIPPool := true |}, None)
  /\ GetSubnetAnnoConfig upstreamConstant
       (mkCollaborators (fun _ => inr [])
          (fun _ => inr (Some {| Interface := ""; IPv4 := ["subnet-b"%string]; IPv6 := [] |}))
          0)
       {[ "ipam.spidernet.io/subnet"%string := "{...}"%string;
          "ipam.spidernet.io/ippool-reclaim"%string := "maybe"%string ]}
     = (None, Some (ErrParseReclaim "ipam.spidernet.io/ippool-reclaim"
                      (NumError "ParseBool" "maybe" ErrSyntax))).
Proof.
  split; [|split].
  - apply C9_GetSubnetAnnoConfig_contract. split; reflexivity.
  - match goal with
    | |- GetSubnetAnnoConfig ?constant ?env ?anno = _ =>
        destruct (C9_GetSubnetAnnoConfig_contract constant env anno)
          as (_ & _ & _ & _ & _ & Hstaged)
    end.
    destruct (Hstaged [ {| Interface := "eth0"; IPv4 := ["subnet-a"; "subnet-x"]%string;
                           IPv6 := [] |} ] None) as (_ & _ & Hcount).
    { left. exists "[...]"%string. repeat split; reflexivity. }
    destruct (Hcount (Some (true, 2))) as (_ & Hreclaim).
    { right. exists "+2"%string, true, 2. repeat split; (reflexivity || lia). }
    destruct (Hreclaim true) as (_ & Hvalid); [reflexivity|].
    apply Hvalid. reflexivity.
  - match goal with
    | |- GetSubnetAnnoConfig ?constant ?env ?anno = _ =>
        destruct (C9_GetSubnetAnnoConfig_contract constant env anno)
          as (_ & _ & _ & _ & _ & Hstaged)
    end.
    destruct (Hstaged [] (Some {| Interface := ""; IPv4 := ["subnet-b"%string];
                                  IPv6 := [] |})) as (_ & _ & Hcount).
    { right. exists "{...}"%string. repeat split; reflexivity. }
    destruct (Hcount None) as (Hreclaim & _).
    { left. split; reflexivity. }
    apply (Hreclaim "maybe"%string false); reflexivity.
Defined.

(** ** C4, C8: [GetPodTopController] *)

Lemma apiGroup_not_apps_batch (apiVersion : string) :
  apiGroup apiVersion <> "apps"%string -> apiGroup apiVersion <> "batch"%string ->
  negb (String.eqb apiVersion appsv1_GroupVersion)
  && negb (String.eqb apiVersion batchv1_GroupVersion) = true.
Proof.
  intros Ha Hb.
  destruct (String.eqb_spec apiVersion appsv1_GroupVersion) as [->|_];
    [exfalso; apply Ha; reflexivity|].
  destruct (String.eqb_spec apiVersion batchv1_GroupVersion) as [->|_];
    [exfalso; apply Hb; reflexivity|].
  reflexivity.
Qed.

Lemma apps_or_batch (apiVersion : string) :
  apiVersion = appsv1_GroupVersion \/ apiVersion = batchv1_GroupVersion ->
  negb (String.eqb apiVersion appsv1_GroupVersion)
  && negb (String.eqb apiVersion batchv1_GroupVersion) = false.
Proof. intros [->| ->]; reflexivity. Qed.

(** C4 (as stated, refuted): a pod owned directly by a DaemonSet resolves to
    [Kind=Unknown], without a read, when the owner reference names the
    [apps] group at a version other than [v1], although the client holds
    the DaemonSet. *)
Lemma C4_counterexample_apps_v1beta2 :
  GetControllerOf
    {| metaNamespace := "kube-system"; metaName := "node-agent-x7k2p"; metaUID := "uid-pod";
       metaOwnerReferences :=
         [ {| refAPIVersion := "apps/v1beta2"; refKind := "DaemonSet";
              refName := "node-agent"; refUID := "uid-daemonset";
              refController := Some true |} ];
       metaDeletionTimestamp := None; metaFinalizers := [] |}
  = Some {| refAPIVersion := "apps/v1beta2"; refKind := "DaemonSet";
            refName := "node-agent"; refUID := "uid-daemonset";
            refController := Some true |}
  /\ apiGroup "apps/v1beta2" = "apps"%string
  /\ GetPodTopController
       (fun _ namespace name =>
          inr {| metaNamespace := namespace; metaName := name; metaUID := "uid-daemonset";
                 metaOwnerReferences := []; metaDeletionTimestamp := None;
                 metaFinalizers := [] |})
       {| metaNamespace := "kube-system"; metaName := "node-agent-x7k2p"; metaUID := "uid-pod";
          metaOwnerReferences :=
            [ {| refAPIVersion := "apps/v1beta2"; refKind := "DaemonSet";
                 refName := "node-agent"; refUID := "uid-daemonset";
                 refController := Some true |} ];
          metaDeletionTimestamp := None; metaFinalizers := [] |}
     = ([], ({| Kind := "Unknown"; Namespace := "kube-system"; Name := "node-agent";
                UID := "uid-daemonset"; APP := None |}, None))
  /\ KindUnknown <> KindDaemonSet.
Proof. repeat split; discriminate. Qed.

(** C4 (amended): the resolution of the owner chain, the reads succeeding.
    A pod with no controller owner resolves to itself with [Kind=Pod]; a pod
    whose controller owner has an [apiVersion] other than [apps/v1] and
    [batch/v1], so in particular one in an API group other than [apps] and
    [batch], resolves to [Kind=Unknown] with the identity of that owner and
    without a read; a pod whose controller owner is a DaemonSet of
    [apiVersion] [apps/v1] or [batch/v1] resolves to the fetched DaemonSet; a
    pod whose controller owner is a ReplicaSet of [apiVersion] [apps/v1] or
    [batch/v1], itself owned by a Deployment, resolves to the fetched
    Deployment. *)
Theorem C4_GetPodTopController_resolution
    (client_Get : ObjectType -> string -> string -> error + ObjectMeta)
    (pod : ObjectMeta) :
  (GetControllerOf pod = None ->
     GetPodTopController client_Get pod =
       ([], ({| Kind := KindPod; Namespace := metaNamespace pod; Name := metaName pod;
                UID := metaUID pod; APP := Some (AppPod pod) |}, None)))
  /\ (forall podOwner,
        GetControllerOf pod = Some podOwner ->
        apiGroup (refAPIVersion podOwner) <> "apps"%string ->
        apiGroup (refAPIVersion podOwner) <> "batch"%string ->
        GetPodTopController client_Get pod =
          ([], ({| Kind := KindUnknown; Namespace := metaNamespace pod;
                   Name := refName podOwner; UID := refUID podOwner; APP := None |}, None)))
  /\ (forall podOwner,
        GetControllerOf pod = Some podOwner ->
        refAPIVersion podOwner <> appsv1_GroupVersion ->
        refAPIVersion podOwner <> batchv1_GroupVersion ->
        GetPodTopController client_Get pod =
          ([], ({| Kind := KindUnknown; Namespace := metaNamespace pod;
                   Name := refName podOwner; UID := refUID podOwner; APP := None |}, None)))
  /\ (forall podOwner daemonSet,
        GetControllerOf pod = Some podOwner ->
        refAPIVersion podOwner = appsv1_GroupVersion
          \/ refAPIVersion podOwner = batchv1_GroupVersion ->
        refKind podOwner = KindDaemonSet ->
        client_Get TDaemonSet (metaNamespace pod) (refName podOwner) = inr daemonSet ->
        GetPodTopController client_Get pod =
          ([EvGet TDaemonSet (metaNamespace pod) (refName podOwner)],
           ({| Kind := KindDaemonSet; Namespace := metaNamespace daemonSet;
               Name := metaName daemonSet; UID := metaUID daemonSet;
               APP := Some (AppObject TDaemonSet daemonSet) |}, None)))
  /\ (forall podOwner replicaset replicasetOwner deployment,
        GetControllerOf pod = Some podOwner ->
        refAPIVersion podOwner = appsv1_GroupVersion
          \/ refAPIVersion podOwner = batchv1_GroupVersion ->
        refKind podOwner = KindReplicaSet ->
        client_Get TReplicaSet (metaNamespace pod) (refName podOwner) = inr replicaset ->
        GetControllerOf replicaset = Some replicasetOwner ->
        refKind replicasetOwner = KindDeployment ->
        client_Get TDeployment (metaNamespace replicaset) (refName replicasetOwner)
          = inr deployment ->
        GetPodTopController client_Get pod =
          ([EvGet TReplicaSet (metaNamespace pod) (refName podOwner);
            EvGet TDeployment (metaNamespace replicaset) (refName replicasetOwner)],
           ({| Kind := KindDeployment; Namespace := metaNamespace deployment;
               Name := metaName deployment; UID := metaUID deployment;
               APP := Some (AppObject TDeployment deployment) |}, None))).
Proof.
  unfold GetPodTopController. repeat split.
  - intros ->. reflexivity.
  - intros podOwner -> Ha Hb. now rewrite apiGroup_not_apps_batch.
  - intros podOwner -> Ha Hb.
    destruct (String.eqb_spec (refAPIVersion podOwner) appsv1_GroupVersion);
      [contradiction|].
    destruct (String.eqb_spec (refAPIVersion podOwner) batchv1_GroupVersion);
      [contradiction|].
    reflexivity.
  - intros podOwner daemonSet -> Hv Hk Hget.
    rewrite (apps_or_batch _ Hv), Hk, Hget. reflexivity.
  - intros podOwner replicaset replicasetOwner deployment -> Hv Hk Hget Ho Hk' Hget'.
    rewrite (apps_or_batch _ Hv), Hk. cbn [String.eqb KindReplicaSet].
    simpl. rewrite Hget, Ho, Hk'. simpl. rewrite Hget'. reflexivity.
Qed.

Lemma C4_GetPodTopController_resolution_witness :
  GetPodTopController (Fixture.client true) Fixture.pod =
    ([EvGet TReplicaSet "default" "web-5d4f"; EvGet TDeployment "default" "web"],
     ({| Kind := "Deployment"; Namespace := "default"; Name := "web";
         UID := "uid-deployment";
         APP := Some (AppObject TDeployment Fixture.deployment) |}, None)).
Proof.
  destruct (C4_GetPodTopController_resolution (Fixture.client true) Fixture.pod)
    as (_ & _ & _ & _ & H).
  apply (H (Fixture.controllerRef "apps/v1" "ReplicaSet" "web-5d4f" "uid-replicaset")
           Fixture.replicaset
           (Fixture.controllerRef "apps/v1" "Deployment" "web" "uid-deployment")
           Fixture.deployment); try reflexivity.
  left. reflexivity.
Defined.

(** The cases of a result of [GetPodTopController], for the proofs below. *)
Ltac resolver_cases :=
  unfold GetPodTopController;
  repeat match goal with
    | |- context [match GetControllerOf ?o with _ => _ end] =>
        destruct (GetControllerOf o) eqn:?
    | |- context [match ?c ?t ?ns ?n with inl _ => _ | inr _ => _ end] =>
        destruct (c t ns n) eqn:?
    | |- context [if ?b then _ else _] => destruct b eqn:?
    end.

(** C8: a read that fails while the owner chain is followed makes
    [GetPodTopController] return the error of the read wrapped in the error
    that names the pod, next to the zero result, whose kind is not
    [Unknown]: so it is for the read of the ReplicaSet, of the Deployment, of
    the Job, of the CronJob, of the DaemonSet and of the StatefulSet, and for
    every read that the resolution lists; an error is returned in no other
    case.  A ReplicaSet whose controller owner is not a Deployment, and a
    Job whose controller owner is not a CronJob, give [Kind=Unknown] with a
    nil error and a warning. *)
Theorem C8_GetPodTopController_failures
    (client_Get : ObjectType -> string -> string -> error + ObjectMeta)
    (pod : ObjectMeta) :
  (forall type namespace name err,
      EvGet type namespace name ∈ fst (GetPodTopController client_Get pod) ->
      client_Get type namespace name = inl err ->
      snd (GetPodTopController client_Get pod) =
        (zeroPodTopController,
         Some (ErrWrap (ErrPodOwner (metaNamespace pod) (metaName pod)) err)))
  /\ Kind zeroPodTopController <> KindUnknown
  /\ (forall c e,
        snd (GetPodTopController client_Get pod) = (c, Some e) ->
        c = zeroPodTopController
        /\ exists type namespace name err,
             EvGet type namespace name ∈ fst (GetPodTopController client_Get pod)
             /\ client_Get type namespace name = inl err
             /\ e = ErrWrap (ErrPodOwner (metaNamespace pod) (metaName pod)) err)
  /\ (forall podOwner replicaset replicasetOwner,
        GetControllerOf pod = Some podOwner ->
        refAPIVersion podOwner = appsv1_GroupVersion
          \/ refAPIVersion podOwner = batchv1_GroupVersion ->
        refKind podOwner = KindReplicaSet ->
        client_Get TReplicaSet (metaNamespace pod) (refName podOwner) = inr replicaset ->
        GetControllerOf replicaset = Some replicasetOwner ->
        refKind replicasetOwner <> KindDeployment ->
        GetPodTopController client_Get pod =
          ([EvGet TReplicaSet (metaNamespace pod) (refName podOwner);
            EvWarn (refKind replicasetOwner) (metaNamespace pod) (metaName pod)],
           ({| Kind := KindUnknown; Namespace := metaNamespace pod;
               Name := refName replicasetOwner; UID := refUID replicasetOwner;
               APP := None |}, None)))
  /\ (forall podOwner job jobOwner,
        GetControllerOf pod = Some podOwner ->
        refAPIVersion podOwner = appsv1_GroupVersion
          \/ refAPIVersion podOwner = batchv1_GroupVersion ->
        refKind podOwner = KindJob ->
        client_Get TJob (metaNamespace pod) (refName podOwner) = inr job ->
        GetControllerOf job = Some jobOwner ->
        refKind jobOwner <> KindCronJob ->
        GetPodTopController client_Get pod =
          ([EvGet TJob (metaNamespace pod) (refName podOwner);
            EvWarn (refKind jobOwner) (metaNamespace pod) (metaName pod)],
           ({| Kind := KindUnknown; Namespace := metaNamespace job;
               Name := refName jobOwner; UID := refUID jobOwner;
               APP := None |}, None)))
  /\ (forall podOwner,
        GetControllerOf pod = Some podOwner ->
        refAPIVersion podOwner = appsv1_GroupVersion
          \/ refAPIVersion podOwner = batchv1_GroupVersion ->
        (forall err,
           refKind podOwner = KindReplicaSet ->
           client_Get TReplicaSet (metaNamespace pod) (refName podOwner) = inl err ->
           GetPodTopController client_Get pod =
             ([EvGet TReplicaSet (metaNamespace pod) (refName podOwner)],
              (zeroPodTopController,
               Some (ErrWrap (ErrPodOwner (metaNamespace pod) (metaName pod)) err))))
        /\ (forall replicaset replicasetOwner err,
              refKind podOwner = KindReplicaSet ->
              client_Get TReplicaSet (metaNamespace pod) (refName podOwner) = inr replicaset ->
              GetControllerOf replicaset = Some replicasetOwner ->
              refKind replicasetOwner = KindDeployment ->
              client_Get TDeployment (metaNamespace replicaset) (refName replicasetOwner)
                = inl err ->
              GetPodTopController client_Get pod =
                ([EvGet TReplicaSet (metaNamespace pod) (refName podOwner);
                  EvGet TDeployment (metaNamespace replicaset) (refName replicasetOwner)],
                 (zeroPodTopController,
                  Some (ErrWrap (ErrPodOwner (metaNamespace pod) (metaName pod)) err))))
        /\ (forall err,
              refKind podOwner = KindJob ->
              client_Get TJob (metaNamespace pod) (refName podOwner) = inl err ->
              GetPodTopController client_Get pod =
                ([EvGet TJob (metaNamespace pod) (refName podOwner)],
                 (zeroPodTopController,
                  Some (ErrWrap (ErrPodOwner (metaNamespace pod) (metaName pod)) err))))
        /\ (forall job jobOwner err,
              refKind podOwner = KindJob ->
              client_Get TJob (metaNamespace pod) (refName podOwner) = inr job ->
              GetControllerOf job = Some jobOwner ->
              refKind jobOwner = KindCronJob ->
              client_Get TCronJob (metaNamespace job) (refName jobOwner) = inl err ->
              GetPodTopController client_Get pod =
                ([EvGet TJob (metaNamespace pod) (refName podOwner);
                  EvGet TCronJob (metaNamespace job) (refName jobOwner)],
                 (zeroPodTopController,
                  Some (ErrWrap (ErrPodOwner (metaNamespace pod) (metaName pod)) err))))
        /\ (forall err,
              refKind podOwner = KindDaemonSet ->
              client_Get TDaemonSet (metaNamespace pod) (refName podOwner) = inl err ->
              GetPodTopController client_Get pod =
                ([EvGet TDaemonSet (metaNamespace pod) (refName podOwner)],
                 (zeroPodTopController,
                  Some (ErrWrap (ErrPodOwner (metaNamespace pod) (metaName pod)) err))))
        /\ (forall err,
              refKind podOwner = KindStatefulSet ->
              client_Get TStatefulSet (metaNamespace pod) (refName podOwner) = inl err ->
              GetPodTopController client_Get pod =
                ([EvGet TStatefulSet (metaNamespace pod) (refName podOwner)],
                 (zeroPodTopController,
                  Some (ErrWrap (ErrPodOwner (metaNamespace pod) (metaName pod)) err))))).
Proof.
  split; [|split; [|split; [|split; [|split]]]].
  - intros type namespace name err. resolver_cases; simpl; intros Hin Hget;
      repeat match goal with
        | H : _ ∈ [] |- _ => inversion H
        | H : _ ∈ _ :: _ |- _ => apply elem_of_cons in H as [H|H]
        | H : EvGet _ _ _ = EvGet _ _ _ |- _ => injection H as -> -> ->
        | H : EvGet _ _ _ = EvWarn _ _ _ |- _ => discriminate H
        end; congruence.
  - discriminate.
  - intros c e. resolver_cases; simpl; intros [= <- <-]; (split; [reflexivity|]);
      repeat match goal with
        | H : client_Get ?t ?ns ?n = inl ?err |- _ =>
            exists t, ns, n, err; split; [set_solver | split; [exact H | reflexivity]]
        end.
  - intros podOwner replicaset replicasetOwner Hp Hv Hk Hget Ho Hne.
    unfold GetPodTopController.
    rewrite Hp, (apps_or_batch _ Hv), Hk. simpl. rewrite Hget, Ho.
    destruct (String.eqb_spec (refKind replicasetOwner) KindDeployment);
      [contradiction | reflexivity].
  - intros podOwner job jobOwner Hp Hv Hk Hget Ho Hne.
    unfold GetPodTopController.
    rewrite Hp, (apps_or_batch _ Hv), Hk. simpl. rewrite Hget, Ho.
    destruct (String.eqb_spec (refKind jobOwner) KindCronJob);
      [contradiction | reflexivity].
  - intros podOwner Hp Hv. unfold GetPodTopController.
    rewrite Hp, (apps_or_batch _ Hv). repeat split.
    + intros err Hk Hget. rewrite Hk. simpl. now rewrite Hget.
    + intros replicaset replicasetOwner err Hk Hget Ho Hk' Hget'. rewrite Hk. simpl.
      rewrite Hget, Ho, Hk'. simpl. now rewrite Hget'.
    + intros err Hk Hget. rewrite Hk. simpl. now rewrite Hget.
    + intros job jobOwner err Hk Hget Ho Hk' Hget'. rewrite Hk. simpl.
      rewrite Hget, Ho, Hk'. simpl. now rewrite Hget'.
    + intros err Hk Hget. rewrite Hk. simpl. now rewrite Hget.
    + intros err Hk Hget. rewrite Hk. simpl. now rewrite Hget.
Qed.

Lemma C8_GetPodTopController_failures_witness :
  GetPodTopController (Fixture.client false) Fixture.pod =
    ([EvGet TReplicaSet "default" "web-5d4f"; EvGet TDeployment "default" "web"],
     (zeroPodTopController,
      Some (ErrWrap (ErrPodOwner "default" "web-5d4f-x7k2p") Fixture.notFound))).
Proof.
  destruct (C8_GetPodTopController_failures (Fixture.client false) Fixture.pod)
    as (_ & _ & _ & _ & _ & Hreads).
  destruct (Hreads (Fixture.controllerRef "apps/v1" "ReplicaSet" "web-5d4f" "uid-replicaset")
              eq_refl (or_introl eq_refl)) as (_ & Hdeployment & _).
  exact (Hdeployment Fixture.replicaset
           (Fixture.controllerRef "apps/v1" "Deployment" "web" "uid-deployment")
           Fixture.notFound eq_refl eq_refl eq_refl eq_refl eq_refl).
Defined.

(** ** C5: [ValidateUpdate] *)

Lemma ContainsFinalizer_spec (o : ObjectMeta) (finalizer : string) :
  ContainsFinalizer o finalizer = true <-> finalizer ∈ metaFinalizers o.
Proof.
  unfold ContainsFinalizer. rewrite existsb_exists, list_elem_of_In. split.
  - intros (e & Hin & He). apply String.eqb_eq in He. now subst.
  - intros Hin. exists finalizer. split; [exact Hin | apply String.eqb_refl].
Qed.

(** C5 (as stated, refuted): with the deletion pending, an update that
    removes the finalizer and changes the ranges of the subnet in the same
    request is admitted. *)
Lemma C5_counterexample_change_with_finalizer_removal :
  metaDeletionTimestamp
    (subnetMeta (Fixture.terminatingSubnet ["spiderpool.spidernet.io"%string]
                   ["10.0.0.1-10.0.0.10"%string])) <> None
  /\ metaDeletionTimestamp
       (subnetMeta (Fixture.terminatingSubnet [] ["10.0.0.1-10.0.0.200"%string])) <> None
  /\ Spec (Fixture.terminatingSubnet ["spiderpool.spidernet.io"%string]
             ["10.0.0.1-10.0.0.10"%string])
     <> Spec (Fixture.terminatingSubnet [] ["10.0.0.1-10.0.0.200"%string])
  /\ ValidateUpdate upstreamConstant unit (fun _ _ => [])
       (Fixture.terminatingSubnet ["spiderpool.spidernet.io"%string]
          ["10.0.0.1-10.0.0.10"%string])
       (Fixture.terminatingSubnet [] ["10.0.0.1-10.0.0.200"%string])
     = None.
Proof. repeat split; discriminate. Qed.

(** C5 (amended): when the new object carries a deletion timestamp,
    [ValidateUpdate] denies the update as Forbidden if the new object still
    carries the finalizer, and admits it if the new object does not, whatever
    else the update changes; without a deletion timestamp the result is the
    one of the structural validation, the update being admitted when it
    reports no error and denied as Invalid with all its errors otherwise. *)
Theorem C5_ValidateUpdate_terminating
    (constant : Constant) (FieldError : Type)
    (validateUpdateSubnet : SpiderSubnet -> SpiderSubnet -> list FieldError)
    (oldSubnet newSubnet : SpiderSubnet) :
  (metaDeletionTimestamp (subnetMeta newSubnet) <> None ->
     (SpiderFinalizer constant ∈ metaFinalizers (subnetMeta newSubnet) ->
        ValidateUpdate constant FieldError validateUpdateSubnet oldSubnet newSubnet
          = Some (Forbidden "cannot update a terminaing Subnet"))
     /\ (SpiderFinalizer constant ∉ metaFinalizers (subnetMeta newSubnet) ->
           ValidateUpdate constant FieldError validateUpdateSubnet oldSubnet newSubnet
             = None))
  /\ (metaDeletionTimestamp (subnetMeta newSubnet) = None ->
        ValidateUpdate constant FieldError validateUpdateSubnet oldSubnet newSubnet
          = match validateUpdateSubnet oldSubnet newSubnet with
            | [] => None
            | errs => Some (Invalid (SpiderpoolAPIGroup constant) (SpiderSubnetKind constant)
                              (metaName (subnetMeta newSubnet)) errs)
            end).
Proof.
  unfold ValidateUpdate. split.
  - intros Hts. destruct (metaDeletionTimestamp (subnetMeta newSubnet)); [|contradiction].
    split; intros Hf.
    + apply ContainsFinalizer_spec in Hf. now rewrite Hf.
    + destruct (ContainsFinalizer _ _) eqn:Hc; [|reflexivity].
      apply ContainsFinalizer_spec in Hc. contradiction.
  - intros ->. destruct (validateUpdateSubnet oldSubnet newSubnet); reflexivity.
Qed.

Lemma C5_ValidateUpdate_terminating_witness :
  ValidateUpdate upstreamConstant unit (fun _ _ => [tt])
    (Fixture.terminatingSubnet ["spiderpool.spidernet.io"%string] ["10.0.0.1-10.0.0.10"%string])
    (Fixture.terminatingSubnet ["spiderpool.spidernet.io"%string] ["10.0.0.1-10.0.0.10"%string])
  = Some (Forbidden "cannot update a terminaing Subnet")
  /\ ValidateUpdate upstreamConstant unit (fun _ _ => [tt])
       (Fixture.terminatingSubnet ["spiderpool.spidernet.io"%string] ["10.0.0.1-10.0.0.10"%string])
       (Fixture.terminatingSubnet [] ["10.0.0.1-10.0.0.10"%string])
     = None.
Proof.
  split.
  - apply C5_ValidateUpdate_terminating; [discriminate|].
    apply list_elem_of_here.
  - apply C5_ValidateUpdate_terminating; [discriminate|].
    apply not_elem_of_nil.
Defined.

(** * Further properties of the embedded code *)

(** ** Cutting and joining text *)

Lemma Cut_found (s : string) (sep : ascii) (before after : string) :
  Strings.Cut s sep = (before, after, true) ->
  s = before +:+ String sep after /\ Strings.Count before sep = 0.
Proof.
  revert before. induction s as [|c s IH]; simpl; intros before; [discriminate|].
  destruct (Ascii.eqb_spec c sep) as [->|Hne].
  - intros [= <- <-]. split; reflexivity.
  - destruct (Strings.Cut s sep) as [[b a] f]. intros [= <- <- ->].
    destruct (IH b eq_refl) as [-> Hb]. split; [reflexivity|].
    simpl. destruct (Ascii.eqb_spec c sep); [contradiction | exact Hb].
Qed.

Lemma Cut_not_found (s : string) (sep : ascii) :
  Strings.Count s sep = 0 -> Strings.Cut s sep = (s, EmptyString, false).
Proof.
  induction s as [|c s IH]; simpl; intros H; [reflexivity|].
  pose proof (Count_nonneg s sep).
  destruct (Ascii.eqb c sep); [lia|]. rewrite IH by lia. reflexivity.
Qed.

Lemma Cut_flag (s : string) (sep : ascii) :
  snd (Strings.Cut s sep) = (0 <? Strings.Count s sep).
Proof.
  induction s as [|c s IH]; simpl; [reflexivity|].
  pose proof (Count_nonneg s sep).
  destruct (Ascii.eqb c sep); simpl.
  - symmetry. apply Z.ltb_lt. lia.
  - destruct (Strings.Cut s sep) as [[b a] f]. simpl in *. exact IH.
Qed.

(** ** [AppLabelValue] and [ParseAppLabelValue] *)

(** A label value built by [AppLabelValue] from a kind and a namespace
    without ["_"] is unpacked by [ParseAppLabelValue] into the three parts
    it was built from; the name may hold any text. *)
Theorem ParseAppLabelValue_AppLabelValue (appKind appNS appName : string) :
  Strings.Count appKind "_" = 0 -> Strings.Count appNS "_" = 0 ->
  ParseAppLabelValue (AppLabelValue appKind appNS appName)
    = (appKind, appNS, appName, true).
Proof.
  intros Hk Hn. unfold ParseAppLabelValue, AppLabelValue.
  change ("_" +:+ appNS +:+ "_" +:+ appName)
    with (String "_" (appNS +:+ String "_" appName)).
  rewrite (Cut_append appKind _ "_" Hk), (Cut_append appNS _ "_" Hn). reflexivity.
Qed.

Lemma ParseAppLabelValue_AppLabelValue_witness :
  ParseAppLabelValue (AppLabelValue "Deployment" "kube-system" "dns_cache_1")
    = ("Deployment", "kube-system", "dns_cache_1", true)%string.
Proof.
  apply ParseAppLabelValue_AppLabelValue; reflexivity.
Defined.

(** What [ParseAppLabelValue] makes of any text, by its number of ["_"]:
    with none, nothing is found and the three parts are empty; with one, the
    text is [kind_namespace] and the name is empty; with two or more, the
    three parts join back into the text, the kind and the namespace holding
    no ["_"]. *)
Theorem ParseAppLabelValue_cases (str : string) :
  (Strings.Count str "_" = 0 ->
     ParseAppLabelValue str = (EmptyString, EmptyString, EmptyString, false))
  /\ (Strings.Count str "_" = 1 ->
        exists appKind appNS,
          ParseAppLabelValue str = (appKind, appNS, EmptyString, true)
          /\ str = appKind +:+ "_" +:+ appNS)
  /\ (2 <= Strings.Count str "_" ->
        exists appKind appNS appName,
          ParseAppLabelValue str = (appKind, appNS, appName, true)
          /\ AppLabelValue appKind appNS appName = str
          /\ Strings.Count appKind "_" = 0 /\ Strings.Count appNS "_" = 0).
Proof.
  unfold ParseAppLabelValue, AppLabelValue.
  pose proof (Cut_flag str "_") as Hflag.
  destruct (Strings.Cut str "_") as [[k after] found] eqn:Hcut. simpl in Hflag.
  split; [|split]; intros Hc.
  - rewrite Hc in Hflag. simpl in Hflag. subst found. reflexivity.
  - assert (Hf : found = true) by (rewrite Hflag; apply Z.ltb_lt; lia).
    clear Hflag. subst found.
    apply Cut_found in Hcut as [-> Hk].
    rewrite Count_append in Hc. simpl in Hc.
    rewrite (Cut_not_found after "_") by lia.
    exists k, after. split; reflexivity.
  - assert (Hf : found = true) by (rewrite Hflag; apply Z.ltb_lt; lia).
    clear Hflag. subst found.
    apply Cut_found in Hcut as [-> Hk].
    rewrite Count_append in Hc. simpl in Hc.
    pose proof (Cut_flag after "_") as Hflag'.
    destruct (Strings.Cut after "_") as [[ns name] found'] eqn:Hcut'. simpl in Hflag'.
    assert (Hf' : found' = true) by (rewrite Hflag'; apply Z.ltb_lt; lia).
    clear Hflag'. subst found'.
    apply Cut_found in Hcut' as [-> Hns].
    exists k, ns, name. repeat split; auto.
Qed.

Lemma ParseAppLabelValue_cases_witness :
  ParseAppLabelValue "StatefulSet" = (EmptyString, EmptyString, EmptyString, false)
  /\ exists appKind appNS,
       ParseAppLabelValue "Job_default" = (appKind, appNS, EmptyString, true)
       /\ "Job_default"%string = appKind +:+ "_" +:+ appNS.
Proof.
  split.
  - apply (proj1 (ParseAppLabelValue_cases "StatefulSet")). reflexivity.
  - apply (proj1 (proj2 (ParseAppLabelValue_cases "Job_default"))). reflexivity.
Defined.

(** ** [GetPoolIPNumber]: decimal text *)

Lemma parse_digits_ge (s : string) :
  forall n m, 0 <= n -> Strconv.parse_digits s n = inr m -> n <= m.
Proof.
  induction s as [|c s IH]; simpl; intros n m Hn.
  - intros [= <-]. lia.
  - destruct (Z.leb_spec 48 (Z.of_N (N_of_ascii c))); simpl; [|discriminate].
    destruct (Z.of_N (N_of_ascii c) <=? 57); [|discriminate].
    destruct (Strconv.maxUint64 / 10 + 1 <=? n); [discriminate|].
    destruct (Strconv.maxUint64 <? n * 10 + (Z.of_N (N_of_ascii c) - 48));
      [discriminate|].
    intros H'. apply IH in H'; lia.
Qed.

Lemma Atoi_range (s : string) (n : Z) :
  Strconv.Atoi s = (n, None) -> - 2 ^ 63 <= n <= 2 ^ 63 - 1.
Proof.
  unfold Strconv.Atoi. destruct s as [|c rest]; [discriminate|].
  set (signed := if Ascii.eqb c "+" then (false, rest)
                 else if Ascii.eqb c "-" then (true, rest)
                 else (false, String c rest)).
  destruct signed as [neg body].
  destruct (Strconv.ParseUint body) as [[|]|un] eqn:Hun;
    [discriminate | destruct neg; discriminate |].
  assert (0 <= un).
  { unfold Strconv.ParseUint in Hun. destruct body; [discriminate|].
    eapply parse_digits_ge in Hun; lia. }
  destruct neg; simpl.
  - destruct (Z.ltb_spec (2 ^ 63) un); [discriminate|]. intros [= <-]. lia.
  - destruct (Z.leb_spec (2 ^ 63) un); [discriminate|]. intros [= <-]. lia.
Qed.

Lemma of_uint_acc_ge (d : Decimal.uint) :
  forall acc, (acc <= Pos.of_uint_acc d acc)%positive.
Proof.
  induction d; intros acc; simpl; try lia;
    match goal with
    | |- (_ <= Pos.of_uint_acc _ ?a)%positive => specialize (IHd a); lia
    end.
Qed.

Lemma maxUint64_value : Strconv.maxUint64 = 18446744073709551615.
Proof. reflexivity. Qed.

Lemma parse_digits_of_uint_acc (d : Decimal.uint) :
  forall acc,
    Z.pos (Pos.of_uint_acc d acc) <= Strconv.maxUint64 ->
    Strconv.parse_digits (NilEmpty.string_of_uint d) (Z.pos acc)
      = inr (Z.pos (Pos.of_uint_acc d acc)).
Proof.
  induction d; intros acc Hmax; cbn [NilEmpty.string_of_uint Pos.of_uint_acc] in *;
    [reflexivity | ..];
    match type of Hmax with
    | (Z.pos (Pos.of_uint_acc _ ?a) <= _) =>
        pose proof (of_uint_acc_ge d a) as Hge; specialize (IHd a Hmax)
    end;
    cbn [Strconv.parse_digits];
    match goal with
    | |- context [N_of_ascii ?c] =>
        let v := eval vm_compute in (Z.of_N (N_of_ascii c)) in
        change (Z.of_N (N_of_ascii c)) with v
    end;
    cbn [Z.leb Z.compare Pos.compare Pos.compare_cont andb];
    change (Strconv.maxUint64 / 10 + 1) with 1844674407370955162;
    rewrite maxUint64_value in *;
    match goal with
    | |- context [?a <=? Z.pos acc] =>
        destruct (Z.leb_spec a (Z.pos acc)); [exfalso; lia|]
    end;
    match goal with
    | |- context [?a <? ?b] => destruct (Z.ltb_spec a b); [exfalso; lia|]
    end;
    match goal with
    | H : Strconv.parse_digits _ (Z.pos ?a) = _ |- Strconv.parse_digits _ ?b = _ =>
        replace b with (Z.pos a) by lia; exact H
    end.
Qed.

Lemma parse_digits_of_uint (d : Decimal.uint) :
  Z.of_N (Pos.of_uint d) <= Strconv.maxUint64 ->
  Strconv.parse_digits (NilEmpty.string_of_uint d) 0 = inr (Z.of_N (Pos.of_uint d)).
Proof.
  induction d; intros Hmax; cbn [NilEmpty.string_of_uint Pos.of_uint] in *;
    [reflexivity | exact (IHd Hmax) | ..];
    cbn [Z.of_N] in *;
    match goal with
    | |- _ = inr (Z.pos (Pos.of_uint_acc _ ?a)) =>
        rewrite <- (parse_digits_of_uint_acc d a Hmax)
    end; reflexivity.
Qed.

Lemma string_of_uint_no_plus (d : Decimal.uint) :
  Strings.Count (NilEmpty.string_of_uint d) "+" = 0.
Proof. induction d; simpl; auto. Qed.

Lemma FormatInt_no_plus (z : Z) : Strings.Count (Strconv.FormatInt z) "+" = 0.
Proof.
  unfold Strconv.FormatInt, NilZero.string_of_int, NilZero.string_of_uint.
  destruct (Z.to_int z) as [d|d]; destruct d; simpl;
    rewrite ?string_of_uint_no_plus; reflexivity.
Qed.

(** The decimal text of a positive number is read back by [ParseUint]. *)
Lemma ParseUint_to_uint (p : positive) :
  Z.pos p <= Strconv.maxUint64 ->
  exists c rest,
    NilZero.string_of_uint (Pos.to_uint p) = String c rest
    /\ Ascii.eqb c "+" = false /\ Ascii.eqb c "-" = false
    /\ Strconv.ParseUint (String c rest) = inr (Z.pos p).
Proof.
  intros Hmax. pose proof (DecimalPos.Unsigned.of_to p) as Hof.
  assert (Hparse : Strconv.parse_digits (NilEmpty.string_of_uint (Pos.to_uint p)) 0
                   = inr (Z.pos p)).
  { rewrite parse_digits_of_uint; rewrite Hof; [reflexivity | exact Hmax]. }
  unfold NilZero.string_of_uint.
  destruct (Pos.to_uint p) as [|d|d|d|d|d|d|d|d|d|d]; [discriminate Hof | ..];
    cbn [NilEmpty.string_of_uint] in *; do 2 eexists;
    (split; [reflexivity|]); (split; [reflexivity|]); (split; [reflexivity|]);
    exact Hparse.
Qed.

(** [Atoi] reads back the decimal text of every 64-bit signed integer. *)
Lemma Atoi_FormatInt (z : Z) :
  - 2 ^ 63 <= z <= 2 ^ 63 - 1 -> Strconv.Atoi (Strconv.FormatInt z) = (z, None).
Proof.
  intros Hz. unfold Strconv.FormatInt, NilZero.string_of_int.
  destruct z as [|p|p]; [reflexivity | |]; cbn [Z.to_int].
  - destruct (ParseUint_to_uint p) as (c & rest & -> & Hplus & Hminus & Hparse).
    { rewrite maxUint64_value. lia. }
    unfold Strconv.Atoi. rewrite Hplus, Hminus, Hparse. cbn [negb andb].
    destruct (Z.leb_spec (2 ^ 63) (Z.pos p)); [lia | reflexivity].
  - destruct (ParseUint_to_uint p) as (c & rest & Hs & _ & _ & Hparse).
    { rewrite maxUint64_value. lia. }
    unfold Strconv.Atoi. cbn [Ascii.eqb Bool.eqb]. rewrite Hs, Hparse. cbn [negb andb].
    destruct (Z.ltb_spec (2 ^ 63) (Z.pos p)); [lia | reflexivity].
Qed.

(** The count annotation reads back what a decimal rendering writes: for
    every 64-bit signed integer [z], [GetPoolIPNumber] on the decimal text of
    [z] returns the fixed count [z], and on that text after a ["+"] the
    flexible count [z]. *)
Theorem GetPoolIPNumber_FormatInt (z : Z) :
  - 2 ^ 63 <= z <= 2 ^ 63 - 1 ->
  GetPoolIPNumber (Strconv.FormatInt z) = (false, z, None)
  /\ GetPoolIPNumber ("+" +:+ Strconv.FormatInt z) = (true, z, None).
Proof.
  intros Hz. split.
  - unfold GetPoolIPNumber.
    rewrite FormatInt_no_plus, (Cut_not_found _ _ (FormatInt_no_plus z)).
    cbn [Z.eqb orb]. now rewrite Atoi_FormatInt.
  - change ("+" +:+ Strconv.FormatInt z)
      with (EmptyString +:+ String "+" (Strconv.FormatInt z)).
    rewrite GetPoolIPNumber_cut by (reflexivity || apply FormatInt_no_plus).
    now rewrite Atoi_FormatInt.
Qed.

Lemma GetPoolIPNumber_FormatInt_witness :
  GetPoolIPNumber (Strconv.FormatInt 250) = (false, 250, None)
  /\ GetPoolIPNumber ("+" +:+ Strconv.FormatInt 250) = (true, 250, None).
Proof. apply GetPoolIPNumber_FormatInt. lia. Defined.

(** A count that [GetPoolIPNumber] returns. *)
Lemma GetPoolIPNumber_success (str : string) (isFlexible : bool) (ipNum : Z) :
  GetPoolIPNumber str = (isFlexible, ipNum, None) ->
  - 2 ^ 63 <= ipNum <= 2 ^ 63 - 1
  /\ Strings.Count str "+" <= 1
  /\ (isFlexible = true <-> Strings.Count str "+" = 1).
Proof.
  unfold GetPoolIPNumber. pose proof (Count_nonneg str "+") as Hc.
  pose proof (Cut_flag str "+") as Hflag.
  destruct (Z.eqb_spec (Strings.Count str "+") 0) as [H0|H0];
    [|destruct (Z.eqb_spec (Strings.Count str "+") 1) as [H1|H1]];
    cbn [orb]; try discriminate;
    (destruct (Strings.Cut str "+") as [[b a] f]; simpl in Hflag;
     destruct (Strconv.Atoi _) as [n [e'|]] eqn:Hatoi; [discriminate|];
     intros [= <- <-]; apply Atoi_range in Hatoi;
     split; [exact Hatoi|]; split; [lia|]).
  - rewrite H0 in Hflag. simpl in Hflag. subst f. split; [discriminate | lia].
  - rewrite H1 in Hflag. simpl in Hflag. subst f. split; auto.
Qed.

(** The results of [GetPoolIPNumber]: every error comes with the flag false
    and the number -1; a text with two ["+"] or more is refused as a whole,
    without being parsed; a returned count is a 64-bit signed integer, and it
    is flexible exactly when the text holds a ["+"]. *)
Theorem GetPoolIPNumber_results (str : string) :
  (forall e, snd (GetPoolIPNumber str) = Some e -> fst (GetPoolIPNumber str) = (false, -1))
  /\ (2 <= Strings.Count str "+" ->
        GetPoolIPNumber str = (false, -1, Some (ErrInvalidInput str)))
  /\ (forall isFlexible ipNum,
        GetPoolIPNumber str = (isFlexible, ipNum, None) ->
        - 2 ^ 63 <= ipNum <= 2 ^ 63 - 1
        /\ Strings.Count str "+" <= 1
        /\ (isFlexible = true <-> Strings.Count str "+" = 1)).
Proof.
  split; [|split].
  - intros e. unfold GetPoolIPNumber. destruct (_ || _); [|reflexivity].
    destruct (Strings.Cut str "+") as [[b a] f].
    destruct (Strconv.Atoi _) as [n [e'|]]; [reflexivity | discriminate].
  - intros H2. unfold GetPoolIPNumber.
    destruct (Z.eqb_spec (Strings.Count str "+") 0); [lia|].
    destruct (Z.eqb_spec (Strings.Count str "+") 1); [lia|]. reflexivity.
  - intros isFlexible ipNum Hrun. now apply GetPoolIPNumber_success.
Qed.

Lemma GetPoolIPNumber_results_witness :
  GetPoolIPNumber "1+2+" = (false, -1, Some (ErrInvalidInput "1+2+"))
  /\ (- 2 ^ 63 <= 7 <= 2 ^ 63 - 1 /\ Strings.Count "+7" "+" <= 1
      /\ (true = true <-> Strings.Count "+7" "+" = 1)).
Proof.
  split.
  - apply (proj1 (proj2 (GetPoolIPNumber_results "1+2+"))). vm_compute. discriminate.
  - apply (proj2 (proj2 (GetPoolIPNumber_results "+7")) true 7). reflexivity.
Defined.

(** ** [CalculateJobPodNum]: what it never returns *)

(** [CalculateJobPodNum] never returns 0, whatever its arguments; when the
    completions are set the parallelism is not read; and the result is 1 or
    one of the arguments, so it stays in the range of [int32]. *)
Theorem CalculateJobPodNum_never_zero (jobSpecParallelism jobSpecCompletions : option Z) :
  CalculateJobPodNum jobSpecParallelism jobSpecCompletions <> 0
  /\ (forall c other, jobSpecCompletions = Some c ->
        CalculateJobPodNum jobSpecParallelism jobSpecCompletions
          = CalculateJobPodNum other jobSpecCompletions)
  /\ (CalculateJobPodNum jobSpecParallelism jobSpecCompletions = 1
      \/ Some (CalculateJobPodNum jobSpecParallelism jobSpecCompletions) = jobSpecCompletions
      \/ (jobSpecCompletions = None
          /\ Some (CalculateJobPodNum jobSpecParallelism jobSpecCompletions)
             = jobSpecParallelism)).
Proof.
  unfold CalculateJobPodNum.
  destruct jobSpecParallelism as [p|], jobSpecCompletions as [c|];
    repeat match goal with
      | |- context [?x =? 0] => destruct (Z.eqb_spec x 0)
      end;
    (split; [lia|]); (split; [intros c' [o|]; intros [= <-] || intros [=];
                              repeat match goal with
                                | |- context [?x =? 0] => destruct (Z.eqb_spec x 0)
                                end; lia || reflexivity|]);
    auto.
Qed.

Lemma CalculateJobPodNum_never_zero_witness :
  CalculateJobPodNum (Some 8) (Some 0) = CalculateJobPodNum None (Some 0).
Proof.
  apply (proj1 (proj2 (CalculateJobPodNum_never_zero (Some 8) (Some 0))) 0 None).
  reflexivity.
Defined.

(** ** [SubnetPoolName]: letter case and separators *)

Lemma append_cons (c : ascii) (a b : string) : String c a +:+ b = String c (a +:+ b).
Proof. reflexivity. Qed.

Lemma append_assoc (a b c : string) : (a +:+ b) +:+ c = a +:+ (b +:+ c).
Proof.
  induction a as [|x a IH]; [reflexivity|]. rewrite !append_cons. f_equal. exact IH.
Qed.


Lemma lower_byte_hyphen (c : ascii) :
  Ascii.eqb (Strings.lower_byte c) "-" = Ascii.eqb c "-".
Proof. destruct c as [[] [] [] [] [] [] [] []]; reflexivity. Qed.


Lemma ToLower_append (a b : string) :
  Strings.ToLower (a +:+ b) = Strings.ToLower a +:+ Strings.ToLower b.
Proof.
  induction a as [|c a IH]; [reflexivity|].
  rewrite append_cons. cbn [Strings.ToLower]. rewrite append_cons. f_equal. exact IH.
Qed.



Lemma Split_ne_ToLower (s : string) :
  Strings.Split_ne (Strings.ToLower s) "-"
  = (Strings.ToLower (fst (Strings.Split_ne s "-")),
     List.map Strings.ToLower (snd (Strings.Split_ne s "-"))).
Proof.
  induction s as [|c s IH]; simpl; [reflexivity|].
  rewrite IH, lower_byte_hyphen.
  destruct (Strings.Split_ne s "-") as [hd tl]; simpl.
  destruct (Ascii.eqb c "-"); reflexivity.
Qed.

Lemma last_map_ToLower (l : list string) (d : string) :
  List.last (List.map Strings.ToLower l) (Strings.ToLower d)
  = Strings.ToLower (List.last l d).
Proof.
  induction l as [|x [|y l] IH]; simpl in *; auto.
Qed.

(** The tail of a UID is the tail of the lowered UID. *)
Lemma uidTail_ToLower (uid : string) :
  List.last (Strings.Split (Strings.ToLower uid) "-") EmptyString = uidTail uid.
Proof.
  unfold uidTail, Strings.Split. rewrite Split_ne_ToLower.
  destruct (Strings.Split_ne uid "-") as [hd tl]. cbn [fst snd].
  change (Strings.ToLower hd :: List.map Strings.ToLower tl)
    with (List.map Strings.ToLower (hd :: tl)).
  apply (last_map_ToLower (hd :: tl) EmptyString).
Qed.

(** [SubnetPoolName] does not tell letter case apart in the kind, the
    namespace, the name and the UID: ASCII inputs that are equal once
    lowered, with the same IP version and interface name, get the same pool
    name. *)
Theorem SubnetPoolName_case_insensitive
    (kind kind' ns ns' name name' : string) (ipVersion : Z)
    (ifName uid uid' : string) :
  Strings.is_ascii kind = true -> Strings.is_ascii kind' = true ->
  Strings.is_ascii ns = true -> Strings.is_ascii ns' = true ->
  Strings.is_ascii name = true -> Strings.is_ascii name' = true ->
  Strings.is_ascii uid = true -> Strings.is_ascii uid' = true ->
  Strings.ToLower kind = Strings.ToLower kind' ->
  Strings.ToLower ns = Strings.ToLower ns' ->
  Strings.ToLower name = Strings.ToLower name' ->
  Strings.ToLower uid = Strings.ToLower uid' ->
  SubnetPoolName kind ns name ipVersion ifName uid
    = SubnetPoolName kind' ns' name' ipVersion ifName uid'.
Proof.
  intros _ _ _ _ _ _ _ _ Hk Hns Hn Hu. unfold SubnetPoolName.
  fold (uidTail uid). fold (uidTail uid').
  rewrite <- (uidTail_ToLower uid), <- (uidTail_ToLower uid'), Hk, Hns, Hn, Hu.
  reflexivity.
Qed.

Lemma SubnetPoolName_case_insensitive_witness :
  SubnetPoolName "Deployment" "Default" "Web" 4 "eth0" "0F0A8F5C-6A3C-4A55-9D2E-3B1C5E7A9F01"
  = SubnetPoolName "deployment" "default" "web" 4 "eth0"
      "0f0a8f5c-6a3c-4a55-9d2e-3b1c5e7a9f01".
Proof.
  apply SubnetPoolName_case_insensitive; reflexivity.
Defined.



(** The pool name does not keep the border between the namespace and the
    name: moving a ["-"]-separated piece from the end of the namespace to the
    front of the name gives the same pool name. *)
Theorem SubnetPoolName_hyphen_ambiguity
    (kind a b c : string) (ipVersion : Z) (ifName uid : string) :
  Strings.is_ascii kind = true -> Strings.is_ascii a = true ->
  Strings.is_ascii b = true -> Strings.is_ascii c = true ->
  Strings.is_ascii uid = true ->
  SubnetPoolName kind (a +:+ "-" +:+ b) c ipVersion ifName uid
    = SubnetPoolName kind a (b +:+ "-" +:+ c) ipVersion ifName uid.
Proof.
  intros _ _ _ _ _. unfold SubnetPoolName.
  rewrite !ToLower_append. cbn [Strings.ToLower].
  change (Strings.lower_byte "-") with "-"%char.
  rewrite !append_assoc. reflexivity.
Qed.

Lemma SubnetPoolName_hyphen_ambiguity_witness :
  SubnetPoolName "Deployment" "team-a" "web" 4 "eth0" "u-1"
  = SubnetPoolName "Deployment" "team" "a-web" 4 "eth0" "u-1".
Proof.
  apply (SubnetPoolName_hyphen_ambiguity "Deployment" "team" "a" "web" 4 "eth0" "u-1");
    reflexivity.
Defined.

(** ** What [mutateAndValidateSubnetAnno] accepts and returns *)

Lemma wellFormedItem_dec (item : AnnoSubnetItem) :
  {wellFormedItem item} + {~ wellFormedItem item}.
Proof.
  unfold wellFormedItem.
  destruct item as [ifn [|x4 l4] [|x6 l6]]; cbn [IPv4 IPv6 head];
    try (right; intros (_ & _ & [H|H]); congruence);
    try destruct (String.eqb_spec x4 "") as [->|H4];
    try destruct (String.eqb_spec x6 "") as [->|H6];
    try (right; intros (H1 & H2 & _); congruence);
    left; repeat split; try congruence; (left; discriminate) || (right; discriminate).
Defined.

(** One round of the loop: a well-formed entry is normalized and its first
    subnets and interface name are collected; any other entry stops the loop
    with an error. *)
Lemma mutateMultipleItem_spec (item : AnnoSubnetItem) (v4 v6 ifs : list string) :
  (wellFormedItem item
   /\ mutateMultipleItem item v4 v6 ifs
      = (normalizeItem item, v4 ++ firstOnly (IPv4 item), v6 ++ firstOnly (IPv6 item),
         ifs ++ [Interface item], None))
  \/ (~ wellFormedItem item
      /\ exists e, snd (mutateMultipleItem item v4 v6 ifs) = Some e).
Proof.
  unfold wellFormedItem, mutateMultipleItem, normalizeItem.
  destruct item as [ifn [|x4 l4] [|x6 l6]]; cbn [IPv4 IPv6 Interface head firstOnly];
    repeat match goal with
      | |- context [String.eqb ?a ""] =>
          destruct (String.eqb_spec a "") as [->|?];
          cbn [IPv4 IPv6 Interface length Nat.eqb andb snd]
      end;
    cbn [IPv4 IPv6 Interface length Nat.eqb andb snd];
    first
      [ left; rewrite ?app_nil_r; split; [|reflexivity];
        repeat split; try congruence; (left; discriminate) || (right; discriminate)
      | right; split; [|eexists; reflexivity];
        intros (H1 & H2 & [H3|H3]); congruence ].
Qed.

Lemma mutateMultipleLoop_spec (items : list AnnoSubnetItem) :
  forall v4 v6 ifs,
    (Forall wellFormedItem items ->
       fst (fst (fst (fst (mutateMultipleLoop items v4 v6 ifs)))) = normalizeItem <$> items
       /\ snd (mutateMultipleLoop items v4 v6 ifs) = None)
    /\ (~ Forall wellFormedItem items ->
          exists e, snd (mutateMultipleLoop items v4 v6 ifs) = Some e).
Proof.
  induction items as [|item items IH]; intros v4 v6 ifs.
  - split; [intros _; split; reflexivity | intros H; exfalso; apply H; constructor].
  - cbn [mutateMultipleLoop].
    destruct (mutateMultipleItem_spec item v4 v6 ifs) as [[Hwf ->]|[Hnwf [e He]]].
    + specialize (IH (v4 ++ firstOnly (IPv4 item)) (v6 ++ firstOnly (IPv6 item))
                    (ifs ++ [Interface item])).
      destruct (mutateMultipleLoop items _ _ _) as [[[[r a4] a6] ai] err].
      cbn [fst snd] in *. split.
      * intros Hall. apply Forall_cons in Hall as [_ Hall].
        destruct (proj1 IH Hall) as [-> ->]. split; reflexivity.
      * intros Hnall. apply (proj2 IH). intros Hall. apply Hnall.
        now apply Forall_cons.
    + destruct (mutateMultipleItem item v4 v6 ifs) as [[[[it' a4] a6] ai] err].
      cbn [snd] in He. subst err. cbn [fst snd]. split.
      * intros Hall. apply Forall_cons in Hall as [Hwf _]. contradiction.
      * intros _. eauto.
Qed.

(** The criterion of acceptance in the [MultipleSubnets] branch. *)
Lemma mutateAndValidateSubnetAnno_multiple_criterion
    (defaultIf : string) (cfg : PodSubnetAnnoConfig) :
  MultipleSubnets cfg <> [] ->
  (snd (mutateAndValidateSubnetAnno defaultIf cfg) = None
   <-> Forall wellFormedItem (MultipleSubnets cfg)
       /\ NoDup (omap (fun it => head (IPv4 it)) (MultipleSubnets cfg))
       /\ NoDup (omap (fun it => head (IPv6 it)) (MultipleSubnets cfg))
       /\ NoDup (Interface <$> MultipleSubnets cfg))
  /\ (snd (mutateAndValidateSubnetAnno defaultIf cfg) = None ->
        fst (mutateAndValidateSubnetAnno defaultIf cfg)
          = setMultipleSubnets cfg (normalizeItem <$> MultipleSubnets cfg)).
Proof.
  intros Hne. unfold mutateAndValidateSubnetAnno.
  destruct (MultipleSubnets cfg) as [|it0 items0] eqn:Hitems; [contradiction|].
  cbn [length Nat.eqb negb]. rewrite <- Hitems. clear Hne.
  pose proof (mutateMultipleLoop_spec (MultipleSubnets cfg) [] [] []) as [Hok Hbad].
  pose proof (mutateMultipleLoop_arrays (MultipleSubnets cfg) [] [] []) as Harr.
  destruct (mutateMultipleLoop (MultipleSubnets cfg) [] [] [])
    as [[[[items' v4] v6] ifs] [e|]]; cbn [fst snd] in *.
  - split; [|discriminate]. split; [discriminate|]. intros (Hall & _).
    destruct (Hok Hall) as [_ ?]. discriminate.
  - destruct (Harr _ _ _ _ eq_refl) as (-> & -> & ->). cbn [app].
    assert (Hall : Forall wellFormedItem (MultipleSubnets cfg)).
    { destruct (List.Forall_dec wellFormedItem wellFormedItem_dec (MultipleSubnets cfg))
        as [H|H]; [exact H|]. destruct (Hbad H) as [e ?]. discriminate. }
    destruct (Hok Hall) as [-> _].
    destruct (containsDuplicate (omap (fun it => head (IPv4 it)) (MultipleSubnets cfg)))
      eqn:H4; [|destruct (containsDuplicate
                            (omap (fun it => head (IPv6 it)) (MultipleSubnets cfg))) eqn:H6;
                [|destruct (containsDuplicate (Interface <$> MultipleSubnets cfg)) eqn:Hi]];
      cbn [orb fst snd].
    + split; [|discriminate]. split; [discriminate|]. intros (_ & Hnd & _).
      apply containsDuplicate_spec in H4. contradiction.
    + split; [|discriminate]. split; [discriminate|]. intros (_ & _ & Hnd & _).
      apply containsDuplicate_spec in H6. contradiction.
    + split; [|discriminate]. split; [discriminate|]. intros (_ & _ & _ & Hnd).
      apply containsDuplicate_spec in Hi. contradiction.
    + split; [|reflexivity]. split; [|reflexivity]. intros _.
      repeat split; auto;
        match goal with
        | H : containsDuplicate ?l = false |- NoDup ?l =>
            destruct (decide (NoDup l)) as [Hd|Hd]; [exact Hd|];
            apply containsDuplicate_spec in Hd; congruence
        end.
Qed.

(** The acceptance of a configuration with entries in [MultipleSubnets]:
    [mutateAndValidateSubnetAnno] returns no error exactly when every entry
    is well formed and the first IPv4 subnets, the first IPv6 subnets and the
    interface names of the entries are each free of duplicates; the
    configuration it then returns holds the normalized entries, in order. *)
Theorem mutateAndValidateSubnetAnno_multiple_accepts
    (defaultIf : string) (cfg : PodSubnetAnnoConfig) :
  MultipleSubnets cfg <> [] ->
  (snd (mutateAndValidateSubnetAnno defaultIf cfg) = None
   <-> Forall wellFormedItem (MultipleSubnets cfg)
       /\ NoDup (omap (fun it => head (IPv4 it)) (MultipleSubnets cfg))
       /\ NoDup (omap (fun it => head (IPv6 it)) (MultipleSubnets cfg))
       /\ NoDup (Interface <$> MultipleSubnets cfg))
  /\ (snd (mutateAndValidateSubnetAnno defaultIf cfg) = None ->
        fst (mutateAndValidateSubnetAnno defaultIf cfg)
          = setMultipleSubnets cfg (normalizeItem <$> MultipleSubnets cfg)).
Proof.
  intros Hne.
  destruct (mutateAndValidateSubnetAnno_multiple_criterion defaultIf cfg Hne)
    as [Hcriterion Hreturned].
  split.
  - exact Hcriterion.
  - exact Hreturned.
Qed.

Lemma mutateAndValidateSubnetAnno_multiple_accepts_witness :
  snd (mutateAndValidateSubnetAnno "eth0"
         (setMultipleSubnets zeroPodSubnetAnnoConfig
            [ {| Interface := "eth0"; IPv4 := ["subnet-a"; "subnet-x"]%string; IPv6 := [] |};
              {| Interface := "net1"; IPv4 := []; IPv6 := ["subnet-b"%string] |} ]))
  = None.
Proof.
  apply mutateAndValidateSubnetAnno_multiple_accepts; [discriminate|].
  split; [|repeat split; compute_done].
  repeat constructor; cbn; try discriminate; (left; discriminate) || (right; discriminate).
Defined.

Lemma mutateSingleItem_spec (defaultIf : string) (item : AnnoSubnetItem) :
  (wellFormedItem item
   /\ mutateSingleItem defaultIf item
      = (defaultInterface defaultIf (normalizeItem item), None))
  \/ (~ wellFormedItem item
      /\ exists e, snd (mutateSingleItem defaultIf item) = Some e).
Proof.
  unfold wellFormedItem, mutateSingleItem, normalizeItem, defaultInterface.
  destruct item as [ifn [|x4 l4] [|x6 l6]]; cbn [IPv4 IPv6 Interface head firstOnly];
    repeat match goal with
      | |- context [String.eqb ?a ""] =>
          destruct (String.eqb_spec a "") as [->|?];
          cbn [IPv4 IPv6 Interface length Nat.eqb andb snd]
      end;
    cbn [IPv4 IPv6 Interface length Nat.eqb andb snd];
    first
      [ left; split; [|reflexivity];
        repeat split; try congruence; (left; discriminate) || (right; discriminate)
      | right; split; [|eexists; reflexivity];
        intros (H1 & H2 & [H3|H3]); congruence ].
Qed.

(** The criterion of acceptance in the [SingleSubnet] branch. *)
Lemma mutateAndValidateSubnetAnno_single_criterion
    (defaultIf : string) (cfg : PodSubnetAnnoConfig) :
  MultipleSubnets cfg = [] ->
  (forall item, SingleSubnet cfg = Some item ->
     (snd (mutateAndValidateSubnetAnno defaultIf cfg) = None <-> wellFormedItem item)
     /\ (snd (mutateAndValidateSubnetAnno defaultIf cfg) = None ->
           fst (mutateAndValidateSubnetAnno defaultIf cfg)
             = setSingleSubnet cfg
                 (Some (defaultInterface defaultIf (normalizeItem item)))))
  /\ (SingleSubnet cfg = None ->
        mutateAndValidateSubnetAnno defaultIf cfg = (cfg, Some ErrNoSubnets)).
Proof.
  intros Hm. unfold mutateAndValidateSubnetAnno. rewrite Hm. cbn [length Nat.eqb negb].
  split.
  - intros item ->.
    destruct (mutateSingleItem_spec defaultIf item) as [[Hwf ->]|[Hnwf [e He]]].
    + cbv beta iota. cbn [fst snd]. split; [split; auto | reflexivity].
    + destruct (mutateSingleItem defaultIf item) as [it' err]. cbn [fst snd] in *.
      subst err. split; [|discriminate]. split; [discriminate | contradiction].
  - intros ->. reflexivity.
Qed.

(** The acceptance of a configuration without entries in [MultipleSubnets]:
    with a single subnet, [mutateAndValidateSubnetAnno] returns no error
    exactly when the entry is well formed, and the configuration it then
    returns holds the normalized entry, with the default interface name in
    place of an empty one; with no single subnet either, it fails. *)
Theorem mutateAndValidateSubnetAnno_single_accepts
    (defaultIf : string) (cfg : PodSubnetAnnoConfig) :
  MultipleSubnets cfg = [] ->
  (forall item, SingleSubnet cfg = Some item ->
     (snd (mutateAndValidateSubnetAnno defaultIf cfg) = None <-> wellFormedItem item)
     /\ (snd (mutateAndValidateSubnetAnno defaultIf cfg) = None ->
           fst (mutateAndValidateSubnetAnno defaultIf cfg)
             = setSingleSubnet cfg
                 (Some (defaultInterface defaultIf (normalizeItem item)))))
  /\ (SingleSubnet cfg = None ->
        mutateAndValidateSubnetAnno defaultIf cfg = (cfg, Some ErrNoSubnets)).
Proof.
  intros Hm.
  destruct (mutateAndValidateSubnetAnno_single_criterion defaultIf cfg Hm)
    as [Hsingle Hnone].
  split.
  - intros item Hitem. exact (Hsingle item Hitem).
  - exact Hnone.
Qed.

Lemma mutateAndValidateSubnetAnno_single_accepts_witness :
  fst (mutateAndValidateSubnetAnno "eth0"
         (setSingleSubnet zeroPodSubnetAnnoConfig
            (Some {| Interface := ""; IPv4 := []; IPv6 := ["subnet-6a"; "subnet-6b"]%string |})))
  = setSingleSubnet zeroPodSubnetAnnoConfig
      (Some {| Interface := "eth0"; IPv4 := []; IPv6 := ["subnet-6a"%string] |}).
Proof.
  destruct (mutateAndValidateSubnetAnno_single_accepts "eth0"
              (setSingleSubnet zeroPodSubnetAnnoConfig
                 (Some {| Interface := ""; IPv4 := [];
                          IPv6 := ["subnet-6a"; "subnet-6b"]%string |})) eq_refl)
    as [H _].
  destruct (H _ eq_refl) as [Hiff Hres].
  apply Hres, Hiff. repeat split; cbn; try discriminate. right. discriminate.
Defined.

Lemma head_firstOnly (l : list string) : head (firstOnly l) = head l.
Proof. destruct l; reflexivity. Qed.

Lemma firstOnly_idem (l : list string) : firstOnly (firstOnly l) = firstOnly l.
Proof. destruct l; reflexivity. Qed.

Lemma normalizeItem_idem (item : AnnoSubnetItem) :
  normalizeItem (normalizeItem item) = normalizeItem item.
Proof. unfold normalizeItem. cbn. now rewrite !firstOnly_idem. Qed.

Lemma wellFormedItem_normalize (item : AnnoSubnetItem) :
  wellFormedItem item -> wellFormedItem (normalizeItem item).
Proof.
  unfold wellFormedItem, normalizeItem. cbn. rewrite !head_firstOnly.
  intros (H4 & H6 & H). repeat split; auto.
  destruct (IPv4 item), (IPv6 item); cbn; destruct H; try congruence;
    (left; discriminate) || (right; discriminate).
Qed.

Lemma wellFormedItem_defaultInterface (defaultIf : string) (item : AnnoSubnetItem) :
  wellFormedItem item -> wellFormedItem (defaultInterface defaultIf item).
Proof. unfold wellFormedItem, defaultInterface. cbn. auto. Qed.

Lemma defaultInterface_normalize_idem (defaultIf : string) (item : AnnoSubnetItem) :
  defaultInterface defaultIf (normalizeItem (defaultInterface defaultIf (normalizeItem item)))
  = defaultInterface defaultIf (normalizeItem item).
Proof.
  destruct item as [ifn l4 l6]. unfold defaultInterface, normalizeItem.
  cbn [Interface IPv4 IPv6]. rewrite !firstOnly_idem. f_equal.
  destruct (String.eqb_spec ifn "") as [->|Hne].
  - destruct (String.eqb defaultIf ""); reflexivity.
  - destruct (String.eqb_spec ifn ""); [contradiction | reflexivity].
Qed.

Lemma omap_head_normalize (f : AnnoSubnetItem -> list string)
    (items : list AnnoSubnetItem) :
  (forall it, f (normalizeItem it) = firstOnly (f it)) ->
  omap (fun it => head (f it)) (normalizeItem <$> items)
  = omap (fun it => head (f it)) items.
Proof.
  intros Hf. induction items as [|it items IH]; [reflexivity|].
  cbn [fmap list_fmap omap list_omap]. rewrite Hf, head_firstOnly.
  destruct (head (f it)); [f_equal|]; exact IH.
Qed.

(** Validation is idempotent: a configuration that [mutateAndValidateSubnetAnno]
    returns without an error is returned unchanged, and without an error,
    when it is validated again. *)
Theorem mutateAndValidateSubnetAnno_idempotent
    (defaultIf : string) (cfg c : PodSubnetAnnoConfig) :
  mutateAndValidateSubnetAnno defaultIf cfg = (c, None) ->
  mutateAndValidateSubnetAnno defaultIf c = (c, None).
Proof.
  intros Hrun.
  assert (Hfst : fst (mutateAndValidateSubnetAnno defaultIf cfg) = c) by now rewrite Hrun.
  assert (Hsnd : snd (mutateAndValidateSubnetAnno defaultIf cfg) = None) by now rewrite Hrun.
  clear Hrun.
  rewrite (surjective_pairing (mutateAndValidateSubnetAnno defaultIf c)).
  destruct (MultipleSubnets cfg) as [|it0 items0] eqn:Hitems.
  - destruct (mutateAndValidateSubnetAnno_single_criterion defaultIf cfg Hitems)
      as [Hsome Hnone].
    destruct (SingleSubnet cfg) as [item|] eqn:Hsingle;
      [|rewrite (Hnone eq_refl) in Hsnd; discriminate].
    destruct (Hsome item eq_refl) as [Hiff Hres].
    rewrite (Hres Hsnd) in Hfst. subst c.
    destruct (mutateAndValidateSubnetAnno_single_criterion defaultIf
                (setSingleSubnet cfg (Some (defaultInterface defaultIf (normalizeItem item))))
                Hitems) as [Hsome' _].
    destruct (Hsome' _ eq_refl) as [Hiff' Hres'].
    assert (Hok : snd (mutateAndValidateSubnetAnno defaultIf
                         (setSingleSubnet cfg
                            (Some (defaultInterface defaultIf (normalizeItem item))))) = None).
    { apply Hiff'. apply wellFormedItem_defaultInterface, wellFormedItem_normalize.
      now apply Hiff. }
    rewrite (Hres' Hok), Hok, defaultInterface_normalize_idem. reflexivity.
  - assert (Hne : MultipleSubnets cfg <> []) by (rewrite Hitems; discriminate).
    destruct (mutateAndValidateSubnetAnno_multiple_criterion defaultIf cfg Hne)
      as [Hiff Hres].
    rewrite (Hres Hsnd) in Hfst. subst c.
    destruct (proj1 Hiff Hsnd) as (Hall & H4 & H6 & Hi).
    set (c := setMultipleSubnets cfg (normalizeItem <$> MultipleSubnets cfg)).
    assert (Hne' : MultipleSubnets c <> []).
    { unfold c. cbn [MultipleSubnets setMultipleSubnets]. rewrite Hitems. discriminate. }
    destruct (mutateAndValidateSubnetAnno_multiple_criterion defaultIf c Hne')
      as [Hiff' Hres'].
    assert (Hok : snd (mutateAndValidateSubnetAnno defaultIf c) = None).
    { apply Hiff'. unfold c. cbn [MultipleSubnets setMultipleSubnets].
      rewrite !omap_head_normalize by reflexivity.
      repeat split; auto.
      - apply Forall_fmap. eapply Forall_impl; [exact Hall|].
        intros x Hx. now apply wellFormedItem_normalize.
      - rewrite <- list_fmap_compose. exact Hi. }
    rewrite (Hres' Hok), Hok. f_equal.
    unfold c, setMultipleSubnets. cbn [MultipleSubnets SingleSubnet FlexibleIPNum
                                        AssignIPNum ReclaimIPPool]. f_equal.
    rewrite <- list_fmap_compose. apply list_fmap_ext. intros i x _. cbn.
    apply normalizeItem_idem.
Qed.

Lemma mutateAndValidateSubnetAnno_idempotent_witness :
  mutateAndValidateSubnetAnno "eth0"
    (setSingleSubnet zeroPodSubnetAnnoConfig
       (Some {| Interface := "eth0"; IPv4 := ["subnet-a"%string]; IPv6 := [] |}))
  = (setSingleSubnet zeroPodSubnetAnnoConfig
       (Some {| Interface := "eth0"; IPv4 := ["subnet-a"%string]; IPv6 := [] |}), None).
Proof.
  apply (mutateAndValidateSubnetAnno_idempotent "eth0"
           (setSingleSubnet zeroPodSubnetAnnoConfig
              (Some {| Interface := ""; IPv4 := ["subnet-a"; "subnet-b"]%string; IPv6 := [] |}))).
  reflexivity.
Defined.

(** ** The configurations that [GetSubnetAnnoConfig] returns *)

(** Validation leaves the counts and the reclaim policy as they are, on
    every path. *)
Lemma mutateAndValidateSubnetAnno_frame (defaultIf : string) (cfg : PodSubnetAnnoConfig) :
  FlexibleIPNum (fst (mutateAndValidateSubnetAnno defaultIf cfg)) = FlexibleIPNum cfg
  /\ AssignIPNum (fst (mutateAndValidateSubnetAnno defaultIf cfg)) = AssignIPNum cfg
  /\ ReclaimIPPool (fst (mutateAndValidateSubnetAnno defaultIf cfg)) = ReclaimIPPool cfg.
Proof.
  unfold mutateAndValidateSubnetAnno.
  destruct (negb _).
  - destruct (mutateMultipleLoop _ _ _ _) as [[[[items v4] v6] ifs] [e|]];
      [|destruct (_ || _); [|destruct (containsDuplicate ifs)]]; cbn; auto.
  - destruct (SingleSubnet cfg) as [item|]; [|cbn; auto].
    destruct (mutateSingleItem defaultIf item) as [it' e]. cbn. auto.
Qed.

Lemma normalizeItem_normal (item : AnnoSubnetItem) :
  wellFormedItem item -> normalItem (normalizeItem item).
Proof.
  unfold wellFormedItem, normalItem, normalizeItem.
  destruct item as [ifn [|x4 l4] [|x6 l6]]; cbn [IPv4 IPv6 head firstOnly length];
    intros (H4 & H6 & H); repeat split; try lia;
    try (apply not_elem_of_nil);
    try (intros Hin; apply list_elem_of_singleton in Hin; congruence);
    destruct H; try congruence; (left; discriminate) || (right; discriminate).
Qed.

Lemma concat_normalize (f : AnnoSubnetItem -> list string) (items : list AnnoSubnetItem) :
  (forall it, f (normalizeItem it) = firstOnly (f it)) ->
  concat (f <$> (normalizeItem <$> items)) = omap (fun it => head (f it)) items.
Proof.
  intros Hf. induction items as [|it items IH]; [reflexivity|].
  cbn [fmap list_fmap concat omap list_omap]. rewrite Hf.
  destruct (f it); cbn; [|f_equal]; exact IH.
Qed.

Section ReturnedConfigurations.

Variable constant : Constant.
Variable env : Collaborators.

(** What [resolveCounts] has done when it returns a configuration. *)
Lemma resolveCounts_returns (anno : gmap string string)
    (cfg c : PodSubnetAnnoConfig) (err : option error) :
  resolveCounts constant env anno cfg = (Some c, err) ->
  err = None
  /\ exists cfg',
       mutateAndValidateSubnetAnno (ClusterDefaultInterfaceName constant) cfg' = (c, None)
       /\ MultipleSubnets cfg' = MultipleSubnets cfg
       /\ SingleSubnet cfg' = SingleSubnet cfg
       /\ ShouldReclaimIPPool constant anno = (ReclaimIPPool cfg', None)
       /\ match anno !! AnnoSpiderSubnetPoolIPNumber constant with
          | None =>
              FlexibleIPNum cfg' = Some (ClusterSubnetDefaultFlexibleIPNumber env)
              /\ AssignIPNum cfg' = AssignIPNum cfg
          | Some poolIPNum =>
              exists isFlexible ipNum,
                GetPoolIPNumber poolIPNum = (isFlexible, ipNum, None)
                /\ 0 <= ipNum
                /\ if (isFlexible : bool)
                   then FlexibleIPNum cfg' = Some ipNum /\ AssignIPNum cfg' = AssignIPNum cfg
                   else FlexibleIPNum cfg' = FlexibleIPNum cfg /\ AssignIPNum cfg' = ipNum
          end.
Proof.
  unfold resolveCounts.
  destruct (anno !! AnnoSpiderSubnetPoolIPNumber constant) as [s|].
  - destruct (GetPoolIPNumber s) as [[fl n] [e|]] eqn:Hparse; [discriminate|].
    destruct (Z.ltb_spec n 0); [discriminate|].
    destruct fl;
      (destruct (ShouldReclaimIPPool constant anno) as [r [e|]]; [discriminate|];
       match goal with
       | |- context [mutateAndValidateSubnetAnno ?d ?x] =>
           destruct (mutateAndValidateSubnetAnno d x) as [c' [e|]] eqn:Hm;
           [discriminate|]; intros [= <- <-]; split; [reflexivity|]; exists x;
           repeat split; auto; do 2 eexists; repeat split; eauto
       end).
  - destruct (ShouldReclaimIPPool constant anno) as [r [e|]]; [discriminate|].
    match goal with
    | |- context [mutateAndValidateSubnetAnno ?d ?x] =>
        destruct (mutateAndValidateSubnetAnno d x) as [c' [e|]] eqn:Hm;
        [discriminate|]; intros [= <- <-]; split; [reflexivity|]; exists x;
        repeat split; auto
    end.
Qed.

(** The subnet selection of a returned configuration: with the subnets
    annotation, [MultipleSubnets] holds as many entries as the annotation
    decodes to, at least one, and [SingleSubnet] is nil; without it,
    [MultipleSubnets] is empty and [SingleSubnet] is set.  In both cases
    every entry names at most one subnet per family and at least one in all,
    none of them blank, and no two entries of [MultipleSubnets] share an
    interface name, an IPv4 subnet or an IPv6 subnet. *)
Theorem GetSubnetAnnoConfig_selection (anno : gmap string string)
    (c : PodSubnetAnnoConfig) (err : option error) :
  GetSubnetAnnoConfig constant env anno = (Some c, err) ->
  (forall subnets, anno !! AnnoSpiderSubnets constant = Some subnets ->
     exists items, unmarshalMultipleSubnets env subnets = inr items
       /\ MultipleSubnets c = normalizeItem <$> items
       /\ items <> [] /\ SingleSubnet c = None)
  /\ (anno !! AnnoSpiderSubnets constant = None ->
        MultipleSubnets c = []
        /\ exists subnet item,
             anno !! AnnoSpiderSubnet constant = Some subnet
             /\ unmarshalSingleSubnet env subnet = inr (Some item)
             /\ SingleSubnet c
                = Some (defaultInterface (ClusterDefaultInterfaceName constant)
                          (normalizeItem item)))
  /\ Forall normalItem (MultipleSubnets c)
  /\ (forall item, SingleSubnet c = Some item -> normalItem item)
  /\ NoDup (Interface <$> MultipleSubnets c)
  /\ NoDup (concat (IPv4 <$> MultipleSubnets c))
  /\ NoDup (concat (IPv6 <$> MultipleSubnets c)).
Proof.
  unfold GetSubnetAnnoConfig.
  destruct (anno !! AnnoSpiderSubnets constant) as [subnets|].
  - destruct (unmarshalMultipleSubnets env subnets) as [e|items] eqn:Hdec; [discriminate|].
    intros Hr. apply resolveCounts_returns in Hr as (_ & cfg' & Hm & Hmulti & Hsingle & _).
    cbn [MultipleSubnets SingleSubnet setMultipleSubnets zeroPodSubnetAnnoConfig]
      in Hmulti, Hsingle.
    assert (Hne : MultipleSubnets cfg' <> []).
    { destruct (mutateAndValidateSubnetAnno_multiple _ cfg' c Hsingle Hm)
        as (_ & Hcne & Hlen).
      intros E. rewrite E in Hlen. destruct (MultipleSubnets c); [contradiction|discriminate]. }
    destruct (mutateAndValidateSubnetAnno_multiple_criterion
                (ClusterDefaultInterfaceName constant) cfg' Hne) as [Hiff Hres].
    rewrite Hm in Hiff, Hres. cbn [fst snd] in Hiff, Hres.
    destruct (proj1 Hiff eq_refl) as (Hall & H4 & H6 & Hi).
    rewrite (Hres eq_refl). cbn [MultipleSubnets SingleSubnet setMultipleSubnets].
    rewrite Hmulti in *. rewrite Hsingle.
    split; [|split; [discriminate|split; [|split; [discriminate|split; [|split]]]]].
    + intros s [= <-]. exists items. rewrite Hdec. auto.
    + apply Forall_fmap. eapply Forall_impl; [exact Hall|].
      intros x Hx. now apply normalizeItem_normal.
    + rewrite <- list_fmap_compose. exact Hi.
    + now rewrite (concat_normalize IPv4) by reflexivity.
    + now rewrite (concat_normalize IPv6) by reflexivity.
  - destruct (anno !! AnnoSpiderSubnet constant) as [subnet|]; [|discriminate].
    destruct (unmarshalSingleSubnet env subnet) as [e|item] eqn:Hdec; [discriminate|].
    intros Hr. apply resolveCounts_returns in Hr as (_ & cfg' & Hm & Hmulti & Hsingle & _).
    cbn [MultipleSubnets SingleSubnet setSingleSubnet zeroPodSubnetAnnoConfig]
      in Hmulti, Hsingle.
    destruct (mutateAndValidateSubnetAnno_single_criterion
                (ClusterDefaultInterfaceName constant) cfg' Hmulti) as [Hsome Hnone].
    destruct item as [item|]; [|rewrite (Hnone Hsingle) in Hm; discriminate].
    destruct (Hsome item Hsingle) as [Hiff Hres].
    rewrite Hm in Hiff, Hres. cbn [fst snd] in Hiff, Hres.
    rewrite (Hres eq_refl). cbn [MultipleSubnets SingleSubnet setSingleSubnet].
    rewrite Hmulti.
    split; [discriminate|split; [|split; [constructor|split; [|repeat split; constructor]]]].
    + intros _. split; [reflexivity|]. exists subnet, item. auto.
    + intros it [= <-].
      pose proof (normalizeItem_normal item (proj1 Hiff eq_refl)) as Hn.
      exact Hn.
Qed.

End ReturnedConfigurations.

Lemma GetSubnetAnnoConfig_selection_witness :
  NoDup (Interface <$> [ {| Interface := "eth0"; IPv4 := ["subnet-a"%string]; IPv6 := [] |};
                         {| Interface := "net1"; IPv4 := ["subnet-b"%string];
                            IPv6 := ["subnet-6"%string] |} ])
  /\ Forall normalItem
       [ {| Interface := "eth0"; IPv4 := ["subnet-a"%string]; IPv6 := [] |};
         {| Interface := "net1"; IPv4 := ["subnet-b"%string]; IPv6 := ["subnet-6"%string] |} ].
Proof.
  assert (Hrun :
    GetSubnetAnnoConfig upstreamConstant
      (mkCollaborators
         (fun _ => inr [ {| Interface := "eth0"; IPv4 := ["subnet-a"; "subnet-x"]%string;
                            IPv6 := [] |};
                         {| Interface := "net1"; IPv4 := ["subnet-b"%string];
                            IPv6 := ["subnet-6"%string] |} ])
         (fun _ => inr None) 0)
      {[ "ipam.spidernet.io/subnets"%string := "[...]"%string ]}
    = (Some {| MultipleSubnets :=
                 [ {| Interface := "eth0"; IPv4 := ["subnet-a"%string]; IPv6 := [] |};
                   {| Interface := "net1"; IPv4 := ["subnet-b"%string];
                      IPv6 := ["subnet-6"%string] |} ];
               SingleSubnet := None; FlexibleIPNum := Some 0; AssignIPNum := 0;
               ReclaimIPPool := true |}, None))
    by (vm_compute; reflexivity).
  destruct (GetSubnetAnnoConfig_selection _ _ _ _ _ Hrun) as (_ & _ & Hn & _ & Hi & _).
  split; assumption.
Defined.

Section ReturnedCounts.

Variable constant : Constant.
Variable env : Collaborators.

(** The counts and the reclaim policy of a returned configuration.  Without
    the count annotation the flexible count is the cluster default, which is
    taken as it is, and the fixed count is 0.  With it, the annotation parses
    to a count between 0 and the largest 64-bit signed integer, held by
    [FlexibleIPNum] when the text has a ["+"] (the fixed count being 0) and by
    [AssignIPNum] otherwise (the flexible count being nil).  The reclaim
    policy is true without its annotation and the parsed boolean with it. *)
Theorem GetSubnetAnnoConfig_counts (anno : gmap string string)
    (c : PodSubnetAnnoConfig) (err : option error) :
  GetSubnetAnnoConfig constant env anno = (Some c, err) ->
  (anno !! AnnoSpiderSubnetPoolIPNumber constant = None ->
     FlexibleIPNum c = Some (ClusterSubnetDefaultFlexibleIPNumber env)
     /\ AssignIPNum c = 0)
  /\ (forall poolIPNum,
        anno !! AnnoSpiderSubnetPoolIPNumber constant = Some poolIPNum ->
        exists isFlexible ipNum,
          GetPoolIPNumber poolIPNum = (isFlexible, ipNum, None)
          /\ 0 <= ipNum <= 2 ^ 63 - 1
          /\ (isFlexible = true <-> Strings.Count poolIPNum "+" = 1)
          /\ if (isFlexible : bool)
             then FlexibleIPNum c = Some ipNum /\ AssignIPNum c = 0
             else FlexibleIPNum c = None /\ AssignIPNum c = ipNum)
  /\ (anno !! AnnoSpiderSubnetReclaimIPPool constant = None -> ReclaimIPPool c = true)
  /\ (forall reclaimPool,
        anno !! AnnoSpiderSubnetReclaimIPPool constant = Some reclaimPool ->
        Strconv.ParseBool reclaimPool = (ReclaimIPPool c, None)).
Proof.
  intros Hr.
  assert (Hres : exists cfg, resolveCounts constant env anno cfg = (Some c, err)
                             /\ FlexibleIPNum cfg = None /\ AssignIPNum cfg = 0).
  { unfold GetSubnetAnnoConfig in Hr.
    destruct (anno !! AnnoSpiderSubnets constant) as [s|].
    - destruct (unmarshalMultipleSubnets env s); [discriminate|]. eauto.
    - destruct (anno !! AnnoSpiderSubnet constant) as [s|]; [|discriminate].
      destruct (unmarshalSingleSubnet env s); [discriminate|]. eauto. }
  destruct Hres as (cfg & Hres & Hflex & Hassign).
  apply resolveCounts_returns in Hres as (_ & cfg' & Hm & _ & _ & Hreclaim & Hcount).
  destruct (mutateAndValidateSubnetAnno_frame (ClusterDefaultInterfaceName constant) cfg')
    as (Hf & Ha & Hrc).
  rewrite Hm in Hf, Ha, Hrc. cbn [fst] in Hf, Ha, Hrc. rewrite Hf, Ha, Hrc.
  split; [|split; [|split]].
  - intros Hnone. rewrite Hnone in Hcount. destruct Hcount as [-> ->]. auto.
  - intros poolIPNum Hsome. rewrite Hsome in Hcount.
    destruct Hcount as (fl & n & Hparse & Hn & Hfields).
    exists fl, n. split; [exact Hparse|].
    destruct (GetPoolIPNumber_success poolIPNum fl n Hparse)
      as (Hrange & _ & Hflag).
    split; [lia|]. split; [exact Hflag|].
    destruct fl; destruct Hfields as [-> ->]; auto.
  - intros Hnone. unfold ShouldReclaimIPPool in Hreclaim. rewrite Hnone in Hreclaim.
    now injection Hreclaim.
  - intros reclaimPool Hsome. unfold ShouldReclaimIPPool in Hreclaim.
    rewrite Hsome in Hreclaim.
    destruct (Strconv.ParseBool reclaimPool) as [b [e|]]; [discriminate|].
    now injection Hreclaim as ->.
Qed.

(** A subnet annotation that selects nothing is refused: when the subnets
    annotation decodes to an empty list, and when the subnet annotation, in
    the absence of the subnets one, decodes to the JSON null,
    [GetSubnetAnnoConfig] returns an error and no configuration. *)
Theorem GetSubnetAnnoConfig_empty_selection (anno : gmap string string) :
  (forall subnets,
     anno !! AnnoSpiderSubnets constant = Some subnets ->
     unmarshalMultipleSubnets env subnets = inr [] ->
     exists e, GetSubnetAnnoConfig constant env anno = (None, Some e))
  /\ (forall subnet,
        anno !! AnnoSpiderSubnets constant = None ->
        anno !! AnnoSpiderSubnet constant = Some subnet ->
        unmarshalSingleSubnet env subnet = inr None ->
        exists e, GetSubnetAnnoConfig constant env anno = (None, Some e)).
Proof.
  split.
  - intros subnets Hs Hdec. unfold GetSubnetAnnoConfig. rewrite Hs, Hdec.
    destruct (resolveCounts_shape constant env anno
                (setMultipleSubnets zeroPodSubnetAnnoConfig []))
      as [He|[c Hc]]; [exact He|].
    apply resolveCounts_returns in Hc as (_ & cfg' & Hm & Hmulti & Hsingle & _).
    destruct (mutateAndValidateSubnetAnno_single_criterion
                (ClusterDefaultInterfaceName constant) cfg' Hmulti) as [_ Hnone].
    rewrite (Hnone Hsingle) in Hm. discriminate.
  - intros subnet Hs0 Hs Hdec. unfold GetSubnetAnnoConfig. rewrite Hs0, Hs, Hdec.
    destruct (resolveCounts_shape constant env anno
                (setSingleSubnet zeroPodSubnetAnnoConfig None))
      as [He|[c Hc]]; [exact He|].
    apply resolveCounts_returns in Hc as (_ & cfg' & Hm & Hmulti & Hsingle & _).
    destruct (mutateAndValidateSubnetAnno_single_criterion
                (ClusterDefaultInterfaceName constant) cfg' Hmulti) as [_ Hnone].
    rewrite (Hnone Hsingle) in Hm. discriminate.
Qed.

End ReturnedCounts.

Lemma GetSubnetAnnoConfig_counts_witness :
  exists isFlexible ipNum,
    GetPoolIPNumber "+5" = (isFlexible, ipNum, None)
    /\ 0 <= ipNum <= 2 ^ 63 - 1
    /\ (isFlexible = true <-> Strings.Count "+5" "+" = 1)
    /\ if (isFlexible : bool)
       then Some 5 = Some ipNum /\ 0 = 0
       else Some 5 = None /\ 0 = ipNum.
Proof.
  assert (Hrun :
    GetSubnetAnnoConfig upstreamConstant
      (mkCollaborators (fun _ => inr [])
         (fun _ => inr (Some {| Interface := ""; IPv4 := ["subnet-a"%string]; IPv6 := [] |}))
         3)
      {[ "ipam.spidernet.io/subnet"%string := "{...}"%string;
         "ipam.spidernet.io/ippool-ip-number"%string := "+5"%string ]}
    = (Some {| MultipleSubnets := [];
               SingleSubnet := Some {| Interface := "eth0"; IPv4 := ["subnet-a"%string];
                                       IPv6 := [] |};
               FlexibleIPNum := Some 5; AssignIPNum := 0; ReclaimIPPool := true |}, None))
    by (vm_compute; reflexivity).
  destruct (GetSubnetAnnoConfig_counts _ _ _ _ _ Hrun) as (_ & Hc & _).
  apply (Hc "+5"%string). reflexivity.
Defined.

Lemma GetSubnetAnnoConfig_empty_selection_witness :
  exists e,
    GetSubnetAnnoConfig upstreamConstant
      (mkCollaborators (fun _ => inr [])
         (fun _ => inr (Some {| Interface := ""; IPv4 := ["subnet-a"%string]; IPv6 := [] |}))
         3)
      {[ "ipam.spidernet.io/subnets"%string := "[]"%string;
         "ipam.spidernet.io/subnet"%string := "{...}"%string ]}
    = (None, Some e).
Proof.
  eapply (proj1 (GetSubnetAnnoConfig_empty_selection _ _ _)); reflexivity.
Defined.

(** ** [GetPodTopController]: the other owners, the reads and the results *)

Lemma GetControllerOfRefs_none (refs : list OwnerReference) :
  GetControllerOfRefs refs = None
  <-> forall r, r ∈ refs -> refController r <> Some true.
Proof.
  induction refs as [|r refs IH]; simpl.
  - split; [intros _ r Hr; inversion Hr | reflexivity].
  - destruct (refController r) as [[|]|] eqn:Hc.
    + split; [discriminate|]. intros H. exfalso. apply (H r); [left | exact Hc].
    + rewrite IH. split.
      * intros H r' Hr'. apply elem_of_cons in Hr' as [->|Hr']; [congruence | auto].
      * intros H r' Hr'. apply H. now right.
    + rewrite IH. split.
      * intros H r' Hr'. apply elem_of_cons in Hr' as [->|Hr']; [congruence | auto].
      * intros H r' Hr'. apply H. now right.
Qed.

Lemma GetControllerOfRefs_first (before after : list OwnerReference) (r : OwnerReference) :
  (forall r', r' ∈ before -> refController r' <> Some true) ->
  refController r = Some true ->
  GetControllerOfRefs (before ++ r :: after) = Some r.
Proof.
  intros Hb Hr. induction before as [|x before IH]; simpl.
  - now rewrite Hr.
  - assert (Hx : refController x <> Some true) by (apply Hb; left).
    destruct (refController x) as [[|]|]; [congruence| |];
      apply IH; intros r' Hr'; apply Hb; now right.
Qed.

(** Owner references that are not controllers are skipped.  A pod none of
    whose owner references has the controller flag set to true resolves to
    itself, without a read; and in general the result is the one for the pod
    with its first controller reference alone, unless that is the pod
    itself. *)
Theorem GetPodTopController_first_controller
    (client_Get : ObjectType -> string -> string -> error + ObjectMeta)
    (pod : ObjectMeta) :
  ((forall r, r ∈ metaOwnerReferences pod -> refController r <> Some true) ->
     GetPodTopController client_Get pod =
       ([], ({| Kind := KindPod; Namespace := metaNamespace pod; Name := metaName pod;
                UID := metaUID pod; APP := Some (AppPod pod) |}, None)))
  /\ (forall before r after,
        metaOwnerReferences pod = before ++ r :: after ->
        (forall r', r' ∈ before -> refController r' <> Some true) ->
        refController r = Some true ->
        GetPodTopController client_Get pod =
          GetPodTopController client_Get
            {| metaNamespace := metaNamespace pod; metaName := metaName pod;
               metaUID := metaUID pod; metaOwnerReferences := [r];
               metaDeletionTimestamp := metaDeletionTimestamp pod;
               metaFinalizers := metaFinalizers pod |}).
Proof.
  split.
  - intros H. apply GetControllerOfRefs_none in H.
    unfold GetPodTopController, GetControllerOf. now rewrite H.
  - intros before r after Hrefs Hb Hr.
    unfold GetPodTopController, GetControllerOf. cbn [metaOwnerReferences
      metaNamespace metaName metaUID].
    rewrite Hrefs, (GetControllerOfRefs_first before after r Hb Hr).
    cbn [GetControllerOfRefs]. rewrite Hr. reflexivity.
Qed.

Lemma GetPodTopController_first_controller_witness :
  GetPodTopController (Fixture.client true)
    {| metaNamespace := "default"; metaName := "web-5d4f-x7k2p"; metaUID := "uid-pod";
       metaOwnerReferences :=
         [ {| refAPIVersion := "example.io/v1"; refKind := "Backup"; refName := "nightly";
              refUID := "uid-backup"; refController := Some false |};
           Fixture.controllerRef "apps/v1" "ReplicaSet" "web-5d4f" "uid-replicaset" ];
       metaDeletionTimestamp := None; metaFinalizers := [] |}
  = GetPodTopController (Fixture.client true) Fixture.pod.
Proof.
  assert (Hb : forall r',
             r' ∈ [ {| refAPIVersion := "example.io/v1"; refKind := "Backup";
                       refName := "nightly"; refUID := "uid-backup";
                       refController := Some false |} ] ->
             refController r' <> Some true).
  { intros r' Hr'. apply list_elem_of_singleton in Hr'. subst r'. discriminate. }
  exact (proj2 (GetPodTopController_first_controller (Fixture.client true)
                  {| metaNamespace := "default"; metaName := "web-5d4f-x7k2p";
                     metaUID := "uid-pod";
                     metaOwnerReferences :=
                       [ {| refAPIVersion := "example.io/v1"; refKind := "Backup";
                            refName := "nightly"; refUID := "uid-backup";
                            refController := Some false |};
                         Fixture.controllerRef "apps/v1" "ReplicaSet" "web-5d4f"
                           "uid-replicaset" ];
                     metaDeletionTimestamp := None; metaFinalizers := [] |})
           [ {| refAPIVersion := "example.io/v1"; refKind := "Backup";
                refName := "nightly"; refUID := "uid-backup";
                refController := Some false |} ]
           (Fixture.controllerRef "apps/v1" "ReplicaSet" "web-5d4f" "uid-replicaset") []
           eq_refl Hb eq_refl).
Defined.

(** The owners that stop the walk after one read, and the chain through a
    Job: a ReplicaSet or a Job without a controller owner resolves to
    itself; a StatefulSet resolves to itself; a Job owned by a CronJob
    resolves to the fetched CronJob, read in the namespace of the Job; an
    owner of the [apps] or [batch] version with any other kind resolves to
    [Kind=Unknown] with a warning and without a read. *)
Theorem GetPodTopController_other_owners
    (client_Get : ObjectType -> string -> string -> error + ObjectMeta)
    (p : ObjectMeta) (owner : OwnerReference) :
  GetControllerOf p = Some owner ->
  refAPIVersion owner = appsv1_GroupVersion \/ refAPIVersion owner = batchv1_GroupVersion ->
  (forall replicaset,
     refKind owner = KindReplicaSet ->
     client_Get TReplicaSet (metaNamespace p) (refName owner) = inr replicaset ->
     GetControllerOf replicaset = None ->
     GetPodTopController client_Get p =
       ([EvGet TReplicaSet (metaNamespace p) (refName owner)],
        ({| Kind := KindReplicaSet; Namespace := metaNamespace replicaset;
            Name := metaName replicaset; UID := metaUID replicaset;
            APP := Some (AppObject TReplicaSet replicaset) |}, None)))
  /\ (forall job,
        refKind owner = KindJob ->
        client_Get TJob (metaNamespace p) (refName owner) = inr job ->
        GetControllerOf job = None ->
        GetPodTopController client_Get p =
          ([EvGet TJob (metaNamespace p) (refName owner)],
           ({| Kind := KindJob; Namespace := metaNamespace job; Name := metaName job;
               UID := metaUID job; APP := Some (AppObject TJob job) |}, None)))
  /\ (forall job jobOwner cronJob,
        refKind owner = KindJob ->
        client_Get TJob (metaNamespace p) (refName owner) = inr job ->
        GetControllerOf job = Some jobOwner ->
        refKind jobOwner = KindCronJob ->
        client_Get TCronJob (metaNamespace job) (refName jobOwner) = inr cronJob ->
        GetPodTopController client_Get p =
          ([EvGet TJob (metaNamespace p) (refName owner);
            EvGet TCronJob (metaNamespace job) (refName jobOwner)],
           ({| Kind := KindCronJob; Namespace := metaNamespace cronJob;
               Name := metaName cronJob; UID := metaUID cronJob;
               APP := Some (AppObject TCronJob cronJob) |}, None)))
  /\ (forall statefulSet,
        refKind owner = KindStatefulSet ->
        client_Get TStatefulSet (metaNamespace p) (refName owner) = inr statefulSet ->
        GetPodTopController client_Get p =
          ([EvGet TStatefulSet (metaNamespace p) (refName owner)],
           ({| Kind := KindStatefulSet; Namespace := metaNamespace statefulSet;
               Name := metaName statefulSet; UID := metaUID statefulSet;
               APP := Some (AppObject TStatefulSet statefulSet) |}, None)))
  /\ (refKind owner <> KindReplicaSet -> refKind owner <> KindJob ->
      refKind owner <> KindDaemonSet -> refKind owner <> KindStatefulSet ->
      GetPodTopController client_Get p =
        ([EvWarn (refKind owner) (metaNamespace p) (metaName p)],
         ({| Kind := KindUnknown; Namespace := metaNamespace p; Name := refName owner;
             UID := refUID owner; APP := None |}, None))).
Proof.
  intros Ho Hv. unfold GetPodTopController. rewrite Ho, (apps_or_batch _ Hv).
  repeat split.
  - intros replicaset Hk Hget Hnone. rewrite Hk. simpl. now rewrite Hget, Hnone.
  - intros job Hk Hget Hnone. rewrite Hk. simpl. now rewrite Hget, Hnone.
  - intros job jobOwner cronJob Hk Hget Hjo Hk' Hget'. rewrite Hk. simpl.
    rewrite Hget, Hjo, Hk'. simpl. now rewrite Hget'.
  - intros statefulSet Hk Hget. rewrite Hk. simpl. now rewrite Hget.
  - intros H1 H2 H3 H4.
    destruct (String.eqb_spec (refKind owner) KindReplicaSet); [contradiction|].
    destruct (String.eqb_spec (refKind owner) KindJob); [contradiction|].
    destruct (String.eqb_spec (refKind owner) KindDaemonSet); [contradiction|].
    destruct (String.eqb_spec (refKind owner) KindStatefulSet); [contradiction|].
    reflexivity.
Qed.

Lemma GetPodTopController_other_owners_witness :
  GetPodTopController
    (fun type namespace name =>
       match type with
       | TJob =>
           inr {| metaNamespace := namespace; metaName := name; metaUID := "uid-job";
                  metaOwnerReferences :=
                    [Fixture.controllerRef "batch/v1" "CronJob" "nightly" "uid-cronjob"];
                  metaDeletionTimestamp := None; metaFinalizers := [] |}
       | _ =>
           inr {| metaNamespace := namespace; metaName := name; metaUID := "uid-cronjob";
                  metaOwnerReferences := []; metaDeletionTimestamp := None;
                  metaFinalizers := [] |}
       end)
    {| metaNamespace := "batch-ns"; metaName := "nightly-2817-abcde"; metaUID := "uid-pod";
       metaOwnerReferences := [Fixture.controllerRef "batch/v1" "Job" "nightly-2817" "uid-job"];
       metaDeletionTimestamp := None; metaFinalizers := [] |}
  = ([EvGet TJob "batch-ns" "nightly-2817"; EvGet TCronJob "batch-ns" "nightly"],
     ({| Kind := "CronJob"; Namespace := "batch-ns"; Name := "nightly"; UID := "uid-cronjob";
         APP := Some (AppObject TCronJob
                        {| metaNamespace := "batch-ns"; metaName := "nightly";
                           metaUID := "uid-cronjob"; metaOwnerReferences := [];
                           metaDeletionTimestamp := None; metaFinalizers := [] |}) |},
      None)).
Proof.
  match goal with
  | |- GetPodTopController ?client ?pod = _ =>
      destruct (GetPodTopController_other_owners client pod
                  (Fixture.controllerRef "batch/v1" "Job" "nightly-2817" "uid-job")
                  eq_refl (or_intror eq_refl)) as (_ & _ & H & _)
  end.
  exact (H {| metaNamespace := "batch-ns"; metaName := "nightly-2817"; metaUID := "uid-job";
              metaOwnerReferences :=
                [Fixture.controllerRef "batch/v1" "CronJob" "nightly" "uid-cronjob"];
              metaDeletionTimestamp := None; metaFinalizers := [] |}
           (Fixture.controllerRef "batch/v1" "CronJob" "nightly" "uid-cronjob")
           {| metaNamespace := "batch-ns"; metaName := "nightly"; metaUID := "uid-cronjob";
              metaOwnerReferences := []; metaDeletionTimestamp := None;
              metaFinalizers := [] |}
           eq_refl eq_refl eq_refl eq_refl eq_refl).
Defined.

(** The reads of one resolution: at most two reads and at most one warning;
    the first event after finding a controller owner, if a read, is for an
    object in the namespace of the pod named by the owner reference, of type
    ReplicaSet, Job, DaemonSet or StatefulSet; a second read is for a
    Deployment or a CronJob; and a warning only comes with [Kind=Unknown] and
    a nil error. *)
Theorem GetPodTopController_reads
    (client_Get : ObjectType -> string -> string -> error + ObjectMeta)
    (pod : ObjectMeta) :
  (length (List.filter isGet (fst (GetPodTopController client_Get pod))) <= 2)%nat
  /\ (length (List.filter isWarn (fst (GetPodTopController client_Get pod))) <= 1)%nat
  /\ (forall type namespace name,
        head (fst (GetPodTopController client_Get pod)) = Some (EvGet type namespace name) ->
        namespace = metaNamespace pod
        /\ (exists podOwner, GetControllerOf pod = Some podOwner /\ name = refName podOwner)
        /\ type ∈ [TReplicaSet; TJob; TDaemonSet; TStatefulSet])
  /\ (forall type namespace name,
        fst (GetPodTopController client_Get pod) !! 1%nat = Some (EvGet type namespace name) ->
        type = TDeployment \/ type = TCronJob)
  /\ (forall ownerKind podNamespace podName,
        EvWarn ownerKind podNamespace podName ∈ fst (GetPodTopController client_Get pod) ->
        snd (snd (GetPodTopController client_Get pod)) = None
        /\ Kind (fst (snd (GetPodTopController client_Get pod))) = KindUnknown
        /\ podNamespace = metaNamespace pod /\ podName = metaName pod).
Proof.
  split; [|split; [|split; [|split]]].
  - resolver_cases; simpl; lia.
  - resolver_cases; simpl; lia.
  - intros type namespace name. resolver_cases; simpl; intros [=]; subst;
      (split; [reflexivity|]); (split; [eauto|]); set_solver.
  - intros type namespace name. resolver_cases; simpl; intros [=]; subst; auto.
  - intros ownerKind podNamespace podName. resolver_cases; simpl; intros Hin;
      repeat match goal with
        | H : _ ∈ [] |- _ => inversion H
        | H : _ ∈ _ :: _ |- _ => apply elem_of_cons in H as [H|H]
        | H : EvWarn _ _ _ = EvWarn _ _ _ |- _ => injection H as -> -> ->
        | H : EvWarn _ _ _ = EvGet _ _ _ |- _ => discriminate H
        end; auto.
Qed.

(** The results of a resolution that returns no error: [APP] is nil exactly
    when the kind is [Unknown]; when [APP] is the pod, it is the given pod,
    which has no controller owner, with [Kind=Pod], its own identity and no
    read; when [APP] is a fetched object, the kind is the one of its type,
    the identity is the one of the object, and the object is what a read of
    the resolution returned. *)
Theorem GetPodTopController_result
    (client_Get : ObjectType -> string -> string -> error + ObjectMeta)
    (pod : ObjectMeta) (c : PodTopController) :
  snd (GetPodTopController client_Get pod) = (c, None) ->
  (APP c = None <-> Kind c = KindUnknown)
  /\ (forall p, APP c = Some (AppPod p) ->
        p = pod /\ GetControllerOf pod = None
        /\ fst (GetPodTopController client_Get pod) = []
        /\ Kind c = KindPod /\ Namespace c = metaNamespace pod
        /\ Name c = metaName pod /\ UID c = metaUID pod)
  /\ (forall type obj, APP c = Some (AppObject type obj) ->
        Kind c = typeKind type /\ Namespace c = metaNamespace obj
        /\ Name c = metaName obj /\ UID c = metaUID obj
        /\ exists namespace name,
             EvGet type namespace name ∈ fst (GetPodTopController client_Get pod)
             /\ client_Get type namespace name = inr obj).
Proof.
  resolver_cases; simpl; intros [= <-]; cbn [APP Kind Namespace Name UID];
    (split; [split; intros; (reflexivity || discriminate)|]);
    (split; [intros p' [= <-] || intros p' [=]; auto 10|]);
    (intros type' obj' [= <- <-] || intros type' obj' [=]);
    repeat split;
    repeat match goal with
      | H : client_Get ?t ?ns ?n = inr ?o |- exists _ _, _ ∈ _ /\ client_Get ?t _ _ = inr ?o =>
          exists ns, n; split; [set_solver | exact H]
      end.
Qed.

Lemma GetPodTopController_result_witness :
  (APP {| Kind := "Deployment"; Namespace := "default"; Name := "web";
          UID := "uid-deployment";
          APP := Some (AppObject TDeployment Fixture.deployment) |} = None
   <-> Kind {| Kind := "Deployment"; Namespace := "default"; Name := "web";
               UID := "uid-deployment";
               APP := Some (AppObject TDeployment Fixture.deployment) |} = KindUnknown).
Proof.
  apply (GetPodTopController_result (Fixture.client true) Fixture.pod). reflexivity.
Defined.

Lemma GetPodTopController_reads_witness :
  "default"%string = metaNamespace Fixture.pod
  /\ (exists podOwner,
        GetControllerOf Fixture.pod = Some podOwner /\ "web-5d4f"%string = refName podOwner)
  /\ TReplicaSet ∈ [TReplicaSet; TJob; TDaemonSet; TStatefulSet].
Proof.
  apply (proj1 (proj2 (proj2 (GetPodTopController_reads (Fixture.client true) Fixture.pod)))
           TReplicaSet "default"%string "web-5d4f"%string).
  reflexivity.
Defined.

(** ** [ValidateUpdate]: the decisions *)

(** The decisions of [ValidateUpdate].  The update is admitted exactly when
    the new object is being deleted and no longer carries the finalizer, or
    is not being deleted and the structural validation reports nothing.  A
    denial as Invalid only happens for an object that is not being deleted,
    and carries the name of the new object and all the errors reported; a
    denial as Forbidden only happens for an object that is being deleted and
    carries the finalizer.  For an object that is being deleted, neither the
    old object nor the structural validation is consulted. *)
Theorem ValidateUpdate_decisions
    (constant : Constant) (FieldError : Type)
    (validateUpdateSubnet : SpiderSubnet -> SpiderSubnet -> list FieldError)
    (oldSubnet newSubnet : SpiderSubnet) :
  (ValidateUpdate constant FieldError validateUpdateSubnet oldSubnet newSubnet = None
   <-> (metaDeletionTimestamp (subnetMeta newSubnet) <> None
        /\ SpiderFinalizer constant ∉ metaFinalizers (subnetMeta newSubnet))
       \/ (metaDeletionTimestamp (subnetMeta newSubnet) = None
           /\ validateUpdateSubnet oldSubnet newSubnet = []))
  /\ (forall group kind name errs,
        ValidateUpdate constant FieldError validateUpdateSubnet oldSubnet newSubnet
          = Some (Invalid group kind name errs) ->
        metaDeletionTimestamp (subnetMeta newSubnet) = None
        /\ errs = validateUpdateSubnet oldSubnet newSubnet /\ errs <> []
        /\ name = metaName (subnetMeta newSubnet)
        /\ group = SpiderpoolAPIGroup constant /\ kind = SpiderSubnetKind constant)
  /\ (forall msg,
        ValidateUpdate constant FieldError validateUpdateSubnet oldSubnet newSubnet
          = Some (Forbidden msg) ->
        metaDeletionTimestamp (subnetMeta newSubnet) <> None
        /\ SpiderFinalizer constant ∈ metaFinalizers (subnetMeta newSubnet))
  /\ (metaDeletionTimestamp (subnetMeta newSubnet) <> None ->
      forall validateUpdateSubnet' oldSubnet',
        ValidateUpdate constant FieldError validateUpdateSubnet' oldSubnet' newSubnet
          = ValidateUpdate constant FieldError validateUpdateSubnet oldSubnet newSubnet).
Proof.
  unfold ValidateUpdate.
  pose proof (ContainsFinalizer_spec (subnetMeta newSubnet) (SpiderFinalizer constant)) as Hf.
  destruct (metaDeletionTimestamp (subnetMeta newSubnet)) as [ts|].
  - destruct (ContainsFinalizer _ _); cbn [negb].
    + assert (Hin : SpiderFinalizer constant ∈ metaFinalizers (subnetMeta newSubnet))
        by now apply Hf.
      repeat split; try discriminate; auto;
        try (intros [[_ Hn]|[Hn _]]; [contradiction | discriminate]).
    + assert (Hnin : SpiderFinalizer constant ∉ metaFinalizers (subnetMeta newSubnet)).
      { intros Hin. apply Hf in Hin. discriminate. }
      repeat split; try discriminate; auto;
        try (intros _; left; split; [discriminate | exact Hnin]).
  - destruct (validateUpdateSubnet oldSubnet newSubnet) as [|e errs] eqn:Herrs;
      cbn [length Nat.eqb negb].
    + repeat split; try discriminate; auto; contradiction.
    + split; [|split; [|split; [discriminate|contradiction]]].
      * split; [discriminate|]. intros [[Hn _]|[_ Hn]]; [contradiction | discriminate].
      * intros group kind name errs' [= <- <- <- <-]. repeat split; discriminate.
Qed.

Lemma ValidateUpdate_decisions_witness :
  ValidateUpdate upstreamConstant unit (fun _ _ => [tt; tt])
    (Fixture.terminatingSubnet ["spiderpool.spidernet.io"%string] ["10.0.0.1-10.0.0.10"%string])
    (Fixture.terminatingSubnet [] ["10.0.0.1-10.0.0.200"%string])
  = ValidateUpdate upstreamConstant unit (fun _ _ => [])
      (Fixture.terminatingSubnet [] []) (Fixture.terminatingSubnet [] ["10.0.0.1-10.0.0.200"%string]).
Proof.
  apply (proj2 (proj2 (proj2 (ValidateUpdate_decisions upstreamConstant unit (fun _ _ => [])
                                (Fixture.terminatingSubnet [] [])
                                (Fixture.terminatingSubnet []
                                   ["10.0.0.1-10.0.0.200"%string]))))).
  discriminate.
Defined.
